(** * AgentCoordProtocol: a shallow embedding of the coordination contract

    The contract [src/contracts/AgentCoordProtocol.sol] is embedded as a
    state-passing program over its storage.  Every entry point is a
    computation in the monad [M] below; the calls it makes to other
    contracts (the MemeJob venue, the reviewed ERC-20 token, the Hedera
    schedule service, the plain value transfers of the fee distribution)
    are explicit nodes of the resulting program tree, at which the whole
    storage is handed to the callee, which may call back into the
    contract before it answers.

    Not modelled: gas (a call never runs out of gas), and the bound on
    the native balance, which is a natural number here.
    [block.timestamp] is the same for a transaction and all the calls
    nested in it. *)

From stdpp Require Import gmap strings list fin_maps.
From Stdlib Require Import NArith ZArith Lia.

Open Scope N_scope.

(** ** Solidity value types *)

(** [address] and [uint256] values are natural numbers; the zero address
    is [0].  Arithmetic of Solidity 0.8 is checked: an operation whose
    result leaves the type aborts the call with a panic, which the
    checked operations of the monad write out. *)
Abbreviation address := N (only parsing).
Abbreviation uint256 := N (only parsing).

Definition UINT256_MAX : N := 2 ^ 256 - 1.
Definition INT256_MIN : Z := (- 2 ^ 255)%Z.
Definition INT256_MAX : Z := (2 ^ 255 - 1)%Z.

(** ** Structs *)

Record Delegation := {
  delegator : address;
  delegate  : address;
  maxAmount : uint256;
  expiry    : uint256;
  signature : list N
}.

Record AgentIdentity := {
  agentAddress     : address;
  metadataURI      : string;
  registrationTime : uint256;
  reputationScore  : Z;
  totalTrades      : uint256;
  profitableTrades : uint256
}.

(** The thesis struct has a field [pledgedAmount] as well; it is called
    [thesisPledgedAmount] here, the share's field keeps the name. *)
Record AgentThesis := {
  agent               : address;
  thesis              : string;
  bullish             : bool;
  thesisPledgedAmount : uint256;
  submittedAt         : uint256
}.

Record TokenReview := {
  tokenAddress    : address;
  creator         : address;
  submissionFee   : uint256;
  deadline        : uint256;
  executed        : bool;
  exists_         : bool;
  totalPledged    : uint256;
  totalPurchased  : uint256;
  scheduleAddress : address
}.

Record AgentShare := {
  pledgedAmount : uint256;
  tokenShare    : uint256;
  claimed       : bool
}.

(** Zero values: what a mapping returns for a key never written. *)
Definition zeroDelegation : Delegation :=
  {| delegator := 0; delegate := 0; maxAmount := 0; expiry := 0; signature := [] |}.
Definition zeroIdentity : AgentIdentity :=
  {| agentAddress := 0; metadataURI := ""; registrationTime := 0;
     reputationScore := 0%Z; totalTrades := 0; profitableTrades := 0 |}.
Definition zeroThesis : AgentThesis :=
  {| agent := 0; thesis := ""; bullish := false; thesisPledgedAmount := 0; submittedAt := 0 |}.
Definition zeroReview : TokenReview :=
  {| tokenAddress := 0; creator := 0; submissionFee := 0; deadline := 0;
     executed := false; exists_ := false; totalPledged := 0; totalPurchased := 0;
     scheduleAddress := 0 |}.
Definition zeroShare : AgentShare :=
  {| pledgedAmount := 0; tokenShare := 0; claimed := false |}.

(** ** Events *)

Inductive Event :=
| TokenSubmitted (reviewId : uint256) (tokenAddress creator : address) (fee deadline : uint256)
| ThesisSubmitted (reviewId : uint256) (agent : address) (bullish : bool) (pledgedAmount : uint256)
| ReviewExecuted (reviewId totalSpent tokensReceived : uint256)
| AgentShareUpdated (reviewId : uint256) (agent : address) (tokenShare : uint256)
| ReputationUpdated (agent : address) (newScore : Z) (profitable : bool)
| DelegationRegistered (delegator delegate : address) (maxAmount expiry : uint256)
| AgentRegistered (agentAddress : address) (metadataURI : string)
| FeeDistributed (reviewId : uint256) (agent : address) (amount : uint256)
| TokensClaimed (reviewId : uint256) (agent : address) (amount : uint256)
| MemeJobAddressUpdated (newAddress : address).

(** ** Contract state *)

(** The storage variables of the contract, its three immutables, its own
    address, its native (HBAR) balance and the log of emitted events.
    Nested mappings are keyed by pairs. *)
Record State := {
  self                : address;
  REVIEW_WINDOW       : uint256;
  EXECUTION_GAS_LIMIT : uint256;
  MIN_SUBMISSION_FEE  : uint256;
  owner               : address;
  memeJobAddress      : address;
  nextReviewId        : uint256;
  reviews             : gmap N TokenReview;
  theses              : gmap (N * N) AgentThesis;
  reviewAgents        : gmap N (list N);
  agentShares         : gmap (N * N) AgentShare;
  delegations         : gmap (N * N) Delegation;
  agentIdentities     : gmap N AgentIdentity;
  agentEscrow         : gmap N N;
  balance             : N;
  events              : list Event
}.

Definition set_memeJobAddress (v : address) (s : State) : State :=
  {| self := self s; REVIEW_WINDOW := REVIEW_WINDOW s;
     EXECUTION_GAS_LIMIT := EXECUTION_GAS_LIMIT s; MIN_SUBMISSION_FEE := MIN_SUBMISSION_FEE s;
     owner := owner s; memeJobAddress := v; nextReviewId := nextReviewId s;
     reviews := reviews s; theses := theses s; reviewAgents := reviewAgents s;
     agentShares := agentShares s; delegations := delegations s;
     agentIdentities := agentIdentities s; agentEscrow := agentEscrow s;
     balance := balance s; events := events s |}.

Definition set_nextReviewId (v : uint256) (s : State) : State :=
  {| self := self s; REVIEW_WINDOW := REVIEW_WINDOW s;
     EXECUTION_GAS_LIMIT := EXECUTION_GAS_LIMIT s; MIN_SUBMISSION_FEE := MIN_SUBMISSION_FEE s;
     owner := owner s; memeJobAddress := memeJobAddress s; nextReviewId := v;
     reviews := reviews s; theses := theses s; reviewAgents := reviewAgents s;
     agentShares := agentShares s; delegations := delegations s;
     agentIdentities := agentIdentities s; agentEscrow := agentEscrow s;
     balance := balance s; events := events s |}.

Definition set_reviews (v : gmap N TokenReview) (s : State) : State :=
  {| self := self s; REVIEW_WINDOW := REVIEW_WINDOW s;
     EXECUTION_GAS_LIMIT := EXECUTION_GAS_LIMIT s; MIN_SUBMISSION_FEE := MIN_SUBMISSION_FEE s;
     owner := owner s; memeJobAddress := memeJobAddress s; nextReviewId := nextReviewId s;
     reviews := v; theses := theses s; reviewAgents := reviewAgents s;
     agentShares := agentShares s; delegations := delegations s;
     agentIdentities := agentIdentities s; agentEscrow := agentEscrow s;
     balance := balance s; events := events s |}.

Definition set_theses (v : gmap (N * N) AgentThesis) (s : State) : State :=
  {| self := self s; REVIEW_WINDOW := REVIEW_WINDOW s;
     EXECUTION_GAS_LIMIT := EXECUTION_GAS_LIMIT s; MIN_SUBMISSION_FEE := MIN_SUBMISSION_FEE s;
     owner := owner s; memeJobAddress := memeJobAddress s; nextReviewId := nextReviewId s;
     reviews := reviews s; theses := v; reviewAgents := reviewAgents s;
     agentShares := agentShares s; delegations := delegations s;
     agentIdentities := agentIdentities s; agentEscrow := agentEscrow s;
     balance := balance s; events := events s |}.

Definition set_reviewAgents (v : gmap N (list N)) (s : State) : State :=
  {| self := self s; REVIEW_WINDOW := REVIEW_WINDOW s;
     EXECUTION_GAS_LIMIT := EXECUTION_GAS_LIMIT s; MIN_SUBMISSION_FEE := MIN_SUBMISSION_FEE s;
     owner := owner s; memeJobAddress := memeJobAddress s; nextReviewId := nextReviewId s;
     reviews := reviews s; theses := theses s; reviewAgents := v;
     agentShares := agentShares s; delegations := delegations s;
     agentIdentities := agentIdentities s; agentEscrow := agentEscrow s;
     balance := balance s; events := events s |}.

Definition set_agentShares (v : gmap (N * N) AgentShare) (s : State) : State :=
  {| self := self s; REVIEW_WINDOW := REVIEW_WINDOW s;
     EXECUTION_GAS_LIMIT := EXECUTION_GAS_LIMIT s; MIN_SUBMISSION_FEE := MIN_SUBMISSION_FEE s;
     owner := owner s; memeJobAddress := memeJobAddress s; nextReviewId := nextReviewId s;
     reviews := reviews s; theses := theses s; reviewAgents := reviewAgents s;
     agentShares := v; delegations := delegations s;
     agentIdentities := agentIdentities s; agentEscrow := agentEscrow s;
     balance := balance s; events := events s |}.

Definition set_delegations (v : gmap (N * N) Delegation) (s : State) : State :=
  {| self := self s; REVIEW_WINDOW := REVIEW_WINDOW s;
     EXECUTION_GAS_LIMIT := EXECUTION_GAS_LIMIT s; MIN_SUBMISSION_FEE := MIN_SUBMISSION_FEE s;
     owner := owner s; memeJobAddress := memeJobAddress s; nextReviewId := nextReviewId s;
     reviews := reviews s; theses := theses s; reviewAgents := reviewAgents s;
     agentShares := agentShares s; delegations := v;
     agentIdentities := agentIdentities s; agentEscrow := agentEscrow s;
     balance := balance s; events := events s |}.

Definition set_agentIdentities (v : gmap N AgentIdentity) (s : State) : State :=
  {| self := self s; REVIEW_WINDOW := REVIEW_WINDOW s;
     EXECUTION_GAS_LIMIT := EXECUTION_GAS_LIMIT s; MIN_SUBMISSION_FEE := MIN_SUBMISSION_FEE s;
     owner := owner s; memeJobAddress := memeJobAddress s; nextReviewId := nextReviewId s;
     reviews := reviews s; theses := theses s; reviewAgents := reviewAgents s;
     agentShares := agentShares s; delegations := delegations s;
     agentIdentities := v; agentEscrow := agentEscrow s;
     balance := balance s; events := events s |}.

Definition set_agentEscrow (v : gmap N N) (s : State) : State :=
  {| self := self s; REVIEW_WINDOW := REVIEW_WINDOW s;
     EXECUTION_GAS_LIMIT := EXECUTION_GAS_LIMIT s; MIN_SUBMISSION_FEE := MIN_SUBMISSION_FEE s;
     owner := owner s; memeJobAddress := memeJobAddress s; nextReviewId := nextReviewId s;
     reviews := reviews s; theses := theses s; reviewAgents := reviewAgents s;
     agentShares := agentShares s; delegations := delegations s;
     agentIdentities := agentIdentities s; agentEscrow := v;
     balance := balance s; events := events s |}.

Definition set_balance (v : N) (s : State) : State :=
  {| self := self s; REVIEW_WINDOW := REVIEW_WINDOW s;
     EXECUTION_GAS_LIMIT := EXECUTION_GAS_LIMIT s; MIN_SUBMISSION_FEE := MIN_SUBMISSION_FEE s;
     owner := owner s; memeJobAddress := memeJobAddress s; nextReviewId := nextReviewId s;
     reviews := reviews s; theses := theses s; reviewAgents := reviewAgents s;
     agentShares := agentShares s; delegations := delegations s;
     agentIdentities := agentIdentities s; agentEscrow := agentEscrow s;
     balance := v; events := events s |}.

Definition set_events (v : list Event) (s : State) : State :=
  {| self := self s; REVIEW_WINDOW := REVIEW_WINDOW s;
     EXECUTION_GAS_LIMIT := EXECUTION_GAS_LIMIT s; MIN_SUBMISSION_FEE := MIN_SUBMISSION_FEE s;
     owner := owner s; memeJobAddress := memeJobAddress s; nextReviewId := nextReviewId s;
     reviews := reviews s; theses := theses s; reviewAgents := reviewAgents s;
     agentShares := agentShares s; delegations := delegations s;
     agentIdentities := agentIdentities s; agentEscrow := agentEscrow s;
     balance := balance s; events := v |}.

(** Mapping reads: a missing key reads as the zero value. *)
Definition getReview (s : State) (reviewId : uint256) : TokenReview :=
  default zeroReview (reviews s !! reviewId).
Definition getThesis (s : State) (reviewId : uint256) (a : address) : AgentThesis :=
  default zeroThesis (theses s !! (reviewId, a)).
Definition getReviewAgents (s : State) (reviewId : uint256) : list N :=
  default [] (reviewAgents s !! reviewId).
Definition getAgentShare (s : State) (reviewId : uint256) (a : address) : AgentShare :=
  default zeroShare (agentShares s !! (reviewId, a)).
Definition getDelegation (s : State) (d a : address) : Delegation :=
  default zeroDelegation (delegations s !! (d, a)).
Definition getAgentIdentity (s : State) (a : address) : AgentIdentity :=
  default zeroIdentity (agentIdentities s !! a).
Definition getAgentEscrow (s : State) (a : address) : uint256 :=
  default 0 (agentEscrow s !! a).

(** Mapping writes. *)
Definition setReview (reviewId : uint256) (r : TokenReview) (s : State) : State :=
  set_reviews (<[reviewId := r]> (reviews s)) s.
Definition setThesis (reviewId : uint256) (a : address) (t : AgentThesis) (s : State) : State :=
  set_theses (<[(reviewId, a) := t]> (theses s)) s.
Definition pushReviewAgent (reviewId : uint256) (a : address) (s : State) : State :=
  set_reviewAgents (<[reviewId := getReviewAgents s reviewId ++ [a]]> (reviewAgents s)) s.
Definition setAgentShare (reviewId : uint256) (a : address) (sh : AgentShare) (s : State) : State :=
  set_agentShares (<[(reviewId, a) := sh]> (agentShares s)) s.
Definition setDelegation (d a : address) (x : Delegation) (s : State) : State :=
  set_delegations (<[(d, a) := x]> (delegations s)) s.
Definition deleteDelegation (d a : address) (s : State) : State :=
  set_delegations (delete (d, a) (delegations s)) s.
Definition setAgentIdentity (a : address) (x : AgentIdentity) (s : State) : State :=
  set_agentIdentities (<[a := x]> (agentIdentities s)) s.
Definition setAgentEscrow (a : address) (v : uint256) (s : State) : State :=
  set_agentEscrow (<[a := v]> (agentEscrow s)) s.

(** Field updates of the structs the contract modifies in place. *)
Definition with_executed (b : bool) (r : TokenReview) : TokenReview :=
  {| tokenAddress := tokenAddress r; creator := creator r; submissionFee := submissionFee r;
     deadline := deadline r; executed := b; exists_ := exists_ r;
     totalPledged := totalPledged r; totalPurchased := totalPurchased r;
     scheduleAddress := scheduleAddress r |}.
Definition with_totalPledged (v : uint256) (r : TokenReview) : TokenReview :=
  {| tokenAddress := tokenAddress r; creator := creator r; submissionFee := submissionFee r;
     deadline := deadline r; executed := executed r; exists_ := exists_ r;
     totalPledged := v; totalPurchased := totalPurchased r;
     scheduleAddress := scheduleAddress r |}.
Definition with_totalPurchased (v : uint256) (r : TokenReview) : TokenReview :=
  {| tokenAddress := tokenAddress r; creator := creator r; submissionFee := submissionFee r;
     deadline := deadline r; executed := executed r; exists_ := exists_ r;
     totalPledged := totalPledged r; totalPurchased := v;
     scheduleAddress := scheduleAddress r |}.
Definition with_scheduleAddress (v : address) (r : TokenReview) : TokenReview :=
  {| tokenAddress := tokenAddress r; creator := creator r; submissionFee := submissionFee r;
     deadline := deadline r; executed := executed r; exists_ := exists_ r;
     totalPledged := totalPledged r; totalPurchased := totalPurchased r;
     scheduleAddress := v |}.
Definition with_tokenShare (v : uint256) (sh : AgentShare) : AgentShare :=
  {| pledgedAmount := pledgedAmount sh; tokenShare := v; claimed := claimed sh |}.
Definition with_claimed (b : bool) (sh : AgentShare) : AgentShare :=
  {| pledgedAmount := pledgedAmount sh; tokenShare := tokenShare sh; claimed := b |}.

(** ** External calls and the program monad *)

(** A call the contract makes to another account.  [call_value] is the
    low-level [payable(agent).call{value: payout}("")] of the fee
    distribution; the others are calls through the interfaces [IMemeJob]
    and [IERC20], and the inherited [scheduleCall] helper that talks to
    the Hedera schedule service. *)
Inductive ExtCall :=
| addressToMemeTokenMapping (memeJob token : address)
| scheduleCall (to : address) (expirySecond gasLimit value reviewId : uint256)
| balanceOf (token account : address)
| buyJob (memeJob : address) (value : uint256) (memeAddress : address)
         (amount : uint256) (referrer : address)
| transfer (token to : address) (amount : uint256)
| call_value (to : address) (value : uint256).

(** What the callee answers: it reverts, or returns nothing, a word, a
    boolean, or the (response code, schedule address) pair. *)
Inductive ExtRet :=
| XRevert
| XUnit
| XWord (w : N)
| XBool (b : bool)
| XSched (rc : Z) (scheduleAddress : address).

(** Calls to [view] functions are static calls: the callee cannot change
    any state, so it cannot call back into a state-changing function. *)
Definition is_static (c : ExtCall) : bool :=
  match c with
  | addressToMemeTokenMapping _ _ | balanceOf _ _ => true
  | _ => false
  end.

(** The native value a call carries. *)
Definition ext_value (c : ExtCall) : N :=
  match c with
  | buyJob _ v _ _ _ => v
  | call_value _ v => v
  | scheduleCall _ _ _ _ _ | addressToMemeTokenMapping _ _ | balanceOf _ _
  | transfer _ _ _ => 0
  end.

(** Why a call aborts: a [require] with its message, a compiler-inserted
    panic with its code (0x11 arithmetic, 0x32 array index), or a failed
    high-level external call whose failure is passed on. *)
Inductive Error :=
| Revert (reason : string)
| Panic (code : N)
| CallFailed.

(** The names the specification uses for the failures, as the messages of
    the source. *)
Definition NotOwner : Error := Revert "Not owner".
Definition ReviewNotFound : Error := Revert "Review does not exist".
Definition AlreadyExecuted : Error := Revert "Already executed".
Definition WindowClosed : Error := Revert "Review window closed".
Definition WindowNotClosed : Error := Revert "Window not closed yet".
Definition InvalidAgent : Error := Revert "Invalid agent".
Definition InvalidAmount : Error := Revert "maxAmount must be > 0".
Definition NoDelegation : Error := Revert "No delegation found".
Definition Expired : Error := Revert "Delegation expired".
Definition ZeroAmount : Error := Revert "No HBAR sent".
Definition AlreadyRegistered : Error := Revert "Already registered".
Definition FeeTooLow : Error := Revert "Insufficient submission fee".
Definition InvalidAsset : Error := Revert "Invalid token address".
Definition AssetNotFound : Error := Revert "Token not found on MemeJob".
Definition ScheduleFailed : Error := Revert "scheduleCall failed".
Definition NoValidDelegation : Error := Revert "No valid delegation".
Definition DelegationExpired : Error := Revert "Delegation expired".
Definition DuplicateThesis : Error := Revert "Thesis already submitted".
Definition MustPledgeIfBullish : Error := Revert "Must pledge > 0 if bullish".
Definition ExceedsLimit : Error := Revert "Exceeds delegation limit".
Definition InsufficientEscrow : Error := Revert "Insufficient escrow".
Definition ReviewNotExecuted : Error := Revert "Review not yet executed".
Definition AgentDidNotInvest : Error := Revert "Agent did not invest".
Definition NotRegistered : Error := Revert "Agent not registered (ERC-8004)".
Definition NotExecuted : Error := Revert "Not yet executed".
Definition NoShare : Error := Revert "No tokens to claim".
Definition AlreadyClaimed : Error := Revert "Already claimed".
Definition TransferFailed : Error := Revert "Transfer failed".

(** A running call of the contract: it has returned, it has aborted, or
    it stands at an external call.  At [Extern st c k] the contract has
    reached the call [c] with storage [st]; the callee runs (and may call
    back), and the contract goes on as [k st' r] from the storage [st']
    the callee left and its answer [r]. *)
Inductive Prog (A : Type) : Type :=
| Return (a : A) (st : State)
| Throw (e : Error)
| Extern (st : State) (c : ExtCall) (k : State -> ExtRet -> Prog A).

Arguments Return {A} a st.
Arguments Throw {A} e.
Arguments Extern {A} st c k.

Fixpoint bindP {A B : Type} (p : Prog A) (f : A -> State -> Prog B) : Prog B :=
  match p with
  | Return a st => f a st
  | Throw e => Throw e
  | Extern st c k => Extern st c (fun st' r => bindP (k st' r) f)
  end.

Definition M (A : Type) : Type := State -> Prog A.

Definition ret {A : Type} (a : A) : M A := fun st => Return a st.
Definition bind {A B : Type} (m : M A) (f : A -> M B) : M B :=
  fun st => bindP (m st) f.
Definition throw {A : Type} (e : Error) : M A := fun _ => Throw e.
Definition gets {A : Type} (f : State -> A) : M A := fun st => Return (f st) st.
Definition modify (f : State -> State) : M unit := fun st => Return tt (f st).
Definition extern (c : ExtCall) : M ExtRet :=
  fun st => Extern st c (fun st' r => Return r st').

Declare Scope prog_scope.
Delimit Scope prog_scope with prog.
Notation "'let*' x ':=' m 'in' k" := (bind m (fun x => k))
  (at level 10, x pattern, m at level 100, k at level 200) : prog_scope.
Notation "m '>>' k" := (bind m (fun _ => k))
  (at level 100, k at level 200, right associativity) : prog_scope.
Open Scope prog_scope.

Definition require (cond : bool) (reason : string) : M unit :=
  if cond then ret tt else throw (Revert reason).

Definition emit (e : Event) : M unit :=
  modify (fun st => set_events (events st ++ [e]) st).

(** Checked arithmetic of Solidity 0.8. *)
Definition checked_add (a b : uint256) : M uint256 :=
  if a + b <=? UINT256_MAX then ret (a + b) else throw (Panic 17).
Definition checked_sub (a b : uint256) : M uint256 :=
  if b <=? a then ret (a - b) else throw (Panic 17).
Definition checked_mul (a b : uint256) : M uint256 :=
  if a * b <=? UINT256_MAX then ret (a * b) else throw (Panic 17).
Definition checked_add_int (a b : Z) : M Z :=
  if ((INT256_MIN <=? a + b) && (a + b <=? INT256_MAX))%Z then ret (a + b)%Z
  else throw (Panic 17).

(** [for (i = 0; i < n; i++) body(i)] as a walk over the indices. *)
Fixpoint forM_ {A : Type} (l : list A) (body : A -> M unit) : M unit :=
  match l with
  | [] => ret tt
  | x :: l' => body x >> forM_ l' body
  end.

(** [agents[i]] on the storage array [reviewAgents[reviewId]]. *)
Definition agentAt (reviewId : uint256) (i : nat) : M address :=
  let* agents := gets (fun st => getReviewAgents st reviewId) in
  match agents !! i with
  | Some a => ret a
  | None => throw (Panic 50)
  end.

(** A payable function receives [msg.value] with the call. *)
Definition payable (value : uint256) : M unit :=
  modify (fun st => set_balance (balance st + value) st).

(** *** Typed external calls *)

(** A high-level call that reverts, or whose answer does not decode at
    the declared return type, aborts the caller.  Of the tuple that
    [addressToMemeTokenMapping] returns the contract reads the first
    component only, the token address, which is the word of the answer. *)
Definition call_addressToMemeTokenMapping (memeJob token : address) : M address :=
  let* r := extern (addressToMemeTokenMapping memeJob token) in
  match r with XWord tAddr => ret tAddr | _ => throw CallFailed end.

Definition call_balanceOf (token account : address) : M uint256 :=
  let* r := extern (balanceOf token account) in
  match r with XWord w => ret w | _ => throw CallFailed end.

Definition call_buyJob (memeJob : address) (value : uint256) (memeAddress : address)
    (amount : uint256) (referrer : address) : M unit :=
  let* r := extern (buyJob memeJob value memeAddress amount referrer) in
  match r with XRevert => throw CallFailed | _ => ret tt end.

Definition call_transfer (token to : address) (amount : uint256) : M bool :=
  let* r := extern (transfer token to amount) in
  match r with XBool b => ret b | _ => throw CallFailed end.

(** The low-level call returns its success flag and never aborts the
    caller. *)
Definition call_send (to : address) (value : uint256) : M bool :=
  let* r := extern (call_value to value) in
  match r with XRevert => ret false | _ => ret true end.

Definition HEDERA_SUCCESS : Z := 22.
Definition HEDERA_UNKNOWN : Z := 21.

(** The inherited [scheduleCall] helper wraps a low-level call to the
    schedule service: a failed call is reported as the response code
    UNKNOWN with the zero address. *)
Definition call_scheduleCall (to : address) (expirySecond gasLimit value reviewId : uint256)
    : M (Z * address) :=
  let* r := extern (scheduleCall to expirySecond gasLimit value reviewId) in
  match r with
  | XSched rc a => ret (rc, a)
  | _ => ret (HEDERA_UNKNOWN, 0)
  end.

(** ** The contract *)

(** [msg.sender] is a [positive]: no call ever arrives from the zero
    address, which has no key and no code.  As an address it is
    [Npos sender].  [now] is [block.timestamp], and [value] is
    [msg.value] of a payable function. *)

(** *** Modifiers *)

Definition onlyOwner (sender : positive) : M unit :=
  let* o := gets owner in
  require (Npos sender =? o) "Not owner".

Definition reviewExists (reviewId : uint256) : M unit :=
  let* r := gets (fun st => getReview st reviewId) in
  require (exists_ r) "Review does not exist".

Definition reviewOpen (now reviewId : uint256) : M unit :=
  let* r := gets (fun st => getReview st reviewId) in
  require (negb (executed r)) "Already executed" >>
  require (now <? deadline r) "Review window closed".

(** *** Constructor *)

Definition constructor (this : address) (sender : positive) (value : uint256)
    (_memeJobAddress : address) (_minSubmissionFee _reviewWindow _executionGasLimit : uint256)
    : State :=
  {| self := this; REVIEW_WINDOW := _reviewWindow;
     EXECUTION_GAS_LIMIT := _executionGasLimit; MIN_SUBMISSION_FEE := _minSubmissionFee;
     owner := Npos sender; memeJobAddress := _memeJobAddress; nextReviewId := 0;
     reviews := ∅; theses := ∅; reviewAgents := ∅; agentShares := ∅; delegations := ∅;
     agentIdentities := ∅; agentEscrow := ∅; balance := value; events := [] |}.

(** [receive() external payable {}] *)
Definition receive (value : uint256) : M unit := payable value.

(** *** Admin *)

Definition setMemeJobAddress (sender : positive) (_memeJobAddress : address) : M unit :=
  onlyOwner sender >>
  modify (set_memeJobAddress _memeJobAddress) >>
  emit (MemeJobAddressUpdated _memeJobAddress).

(** *** Delegation *)

Definition registerDelegation (sender : positive) (agentAddress : address)
    (maxAmount expiry : uint256) (signature : list N) : M unit :=
  require (negb (agentAddress =? 0)) "Invalid agent" >>
  require (0 <? maxAmount) "maxAmount must be > 0" >>
  modify (setDelegation (Npos sender) agentAddress
            {| delegator := Npos sender; delegate := agentAddress;
               maxAmount := maxAmount; expiry := expiry; signature := signature |}) >>
  emit (DelegationRegistered (Npos sender) agentAddress maxAmount expiry).

Definition depositForAgent (now : uint256) (sender : positive) (value : uint256)
    (agentAddress : address) : M unit :=
  payable value >>
  let* d := gets (fun st => getDelegation st (Npos sender) agentAddress) in
  require (delegate d =? agentAddress) "No delegation found" >>
  require ((expiry d =? 0) || (now <? expiry d)) "Delegation expired" >>
  require (0 <? value) "No HBAR sent" >>
  let* escrow := gets (fun st => getAgentEscrow st agentAddress) in
  let* escrow' := checked_add escrow value in
  modify (setAgentEscrow agentAddress escrow').

Definition revokeDelegation (sender : positive) (agentAddress : address) : M unit :=
  let* d := gets (fun st => getDelegation st (Npos sender) agentAddress) in
  require (delegate d =? agentAddress) "No delegation found" >>
  modify (deleteDelegation (Npos sender) agentAddress).

(** *** Agent identity *)

Definition registerAgent (now : uint256) (sender : positive) (metadataURI : string) : M unit :=
  let* i := gets (fun st => getAgentIdentity st (Npos sender)) in
  require (agentAddress i =? 0) "Already registered" >>
  modify (setAgentIdentity (Npos sender)
            {| agentAddress := Npos sender; metadataURI := metadataURI;
               registrationTime := now; reputationScore := 0%Z;
               totalTrades := 0; profitableTrades := 0 |}) >>
  emit (AgentRegistered (Npos sender) metadataURI).

(** *** Token submission *)

Definition submitToken (now : uint256) (sender : positive) (value : uint256)
    (tokenAddress : address) : M uint256 :=
  payable value >>
  let* minFee := gets MIN_SUBMISSION_FEE in
  require (minFee <=? value) "Insufficient submission fee" >>
  require (negb (tokenAddress =? 0)) "Invalid token address" >>
  let* memeJob := gets memeJobAddress in
  let* tAddr := call_addressToMemeTokenMapping memeJob tokenAddress in
  require (negb (tAddr =? 0)) "Token not found on MemeJob" >>
  let* reviewId := gets nextReviewId in
  let* next := checked_add reviewId 1 in
  modify (set_nextReviewId next) >>
  let* window := gets REVIEW_WINDOW in
  let* deadline := checked_add now window in
  modify (setReview reviewId
            {| tokenAddress := tokenAddress; creator := Npos sender;
               submissionFee := value; deadline := deadline;
               executed := false; exists_ := true;
               totalPledged := 0; totalPurchased := 0; scheduleAddress := 0 |}) >>
  let* this := gets self in
  let* gasLimit := gets EXECUTION_GAS_LIMIT in
  let* (rc, schedAddr) := call_scheduleCall this deadline gasLimit 0 reviewId in
  require (rc =? HEDERA_SUCCESS)%Z "scheduleCall failed" >>
  modify (fun st => setReview reviewId (with_scheduleAddress schedAddr (getReview st reviewId)) st) >>
  emit (TokenSubmitted reviewId tokenAddress (Npos sender) value deadline) >>
  ret reviewId.

(** *** Thesis submission *)

Definition submitThesis (now : uint256) (sender : positive) (reviewId : uint256)
    (thesis : string) (bullish : bool) (pledgedAmount : uint256) (delegator : address)
    : M unit :=
  reviewExists reviewId >>
  reviewOpen now reviewId >>
  let* d := gets (fun st => getDelegation st delegator (Npos sender)) in
  require (delegate d =? Npos sender) "No valid delegation" >>
  require ((expiry d =? 0) || (now <? expiry d)) "Delegation expired" >>
  let* t := gets (fun st => getThesis st reviewId (Npos sender)) in
  require (agent t =? 0) "Thesis already submitted" >>
  let* pledgedAmount :=
    (if bullish then
       require (0 <? pledgedAmount) "Must pledge > 0 if bullish" >>
       require (pledgedAmount <=? maxAmount d) "Exceeds delegation limit" >>
       let* escrow := gets (fun st => getAgentEscrow st (Npos sender)) in
       require (pledgedAmount <=? escrow) "Insufficient escrow" >>
       modify (setAgentEscrow (Npos sender) (escrow - pledgedAmount)) >>
       let* r := gets (fun st => getReview st reviewId) in
       let* total := checked_add (totalPledged r) pledgedAmount in
       modify (setReview reviewId (with_totalPledged total r)) >>
       modify (setAgentShare reviewId (Npos sender)
                 {| pledgedAmount := pledgedAmount; tokenShare := 0; claimed := false |}) >>
       ret pledgedAmount
     else ret 0) in
  modify (setThesis reviewId (Npos sender)
            {| agent := Npos sender; thesis := thesis; bullish := bullish;
               thesisPledgedAmount := pledgedAmount; submittedAt := now |}) >>
  modify (pushReviewAgent reviewId (Npos sender)) >>
  emit (ThesisSubmitted reviewId (Npos sender) bullish pledgedAmount).

(** *** Fee distribution *)

(** The amount the loop pays at index [i].  The divisions and products
    here cannot leave [uint256]: [agentCount] is not zero,
    [perAgent * agentCount <= fee], and [perAgent + remainder <= fee]. *)
Definition payout (fee agentCount : uint256) (i : nat) : uint256 :=
  let perAgent := fee / agentCount in
  let remainder := fee - perAgent * agentCount in
  if N.of_nat i =? agentCount - 1 then perAgent + remainder else perAgent.

(** The body of the distribution loop at index [i]. *)
Definition payAgent (reviewId fee : uint256) (agentCount : nat) (i : nat) : M unit :=
  let* agent := agentAt reviewId i in
  let payout := payout fee (N.of_nat agentCount) i in
  if 0 <? payout then
    let* sent := call_send agent payout in
    if sent then emit (FeeDistributed reviewId agent payout) else ret tt
  else ret tt.

Definition _distributeSubmissionFee (reviewId : uint256) : M unit :=
  let* agents := gets (fun st => getReviewAgents st reviewId) in
  let agentCount := length agents in
  if Nat.eqb agentCount 0 then ret tt
  else
    let* fee := gets (fun st => submissionFee (getReview st reviewId)) in
    forM_ (seq 0 agentCount) (payAgent reviewId fee agentCount).

(** *** Execution *)

(** The allocation loop of [executeReview], body first.  The loop makes no
    external call, so [agents.length] is the same at every test of the
    loop condition. *)
Definition allocateShare (reviewId totalPledged tokensReceived : uint256) (i : nat)
    : M unit :=
  let* agent := agentAt reviewId i in
  let* share := gets (fun st => getAgentShare st reviewId agent) in
  if (0 <? pledgedAmount share) && (0 <? tokensReceived) then
    let* product := checked_mul (pledgedAmount share) tokensReceived in
    let tokenShare := product / totalPledged in
    modify (fun st => setAgentShare reviewId agent
                        (with_tokenShare tokenShare (getAgentShare st reviewId agent)) st) >>
    emit (AgentShareUpdated reviewId agent tokenShare)
  else ret tt.

Definition allocateShares (reviewId totalPledged tokensReceived : uint256) : M unit :=
  let* agents := gets (fun st => getReviewAgents st reviewId) in
  forM_ (seq 0 (length agents)) (allocateShare reviewId totalPledged tokensReceived).

Definition executeReview (now : uint256) (reviewId : uint256) : M unit :=
  reviewExists reviewId >>
  let* review := gets (fun st => getReview st reviewId) in
  require (negb (executed review)) "Already executed" >>
  require (deadline review <=? now) "Window not closed yet" >>
  modify (fun st => setReview reviewId (with_executed true (getReview st reviewId)) st) >>
  let* totalPledged := gets (fun st => totalPledged (getReview st reviewId)) in
  if totalPledged =? 0 then
    _distributeSubmissionFee reviewId
  else
    let* token := gets (fun st => tokenAddress (getReview st reviewId)) in
    let* this := gets self in
    let* balanceBefore := call_balanceOf token this in
    let* memeJob := gets memeJobAddress in
    let* memeAddress := gets (fun st => tokenAddress (getReview st reviewId)) in
    call_buyJob memeJob totalPledged memeAddress totalPledged 0 >>
    let* this := gets self in
    let* balanceAfter := call_balanceOf token this in
    let* tokensReceived := checked_sub balanceAfter balanceBefore in
    modify (fun st => setReview reviewId
                        (with_totalPurchased tokensReceived (getReview st reviewId)) st) >>
    allocateShares reviewId totalPledged tokensReceived >>
    _distributeSubmissionFee reviewId >>
    emit (ReviewExecuted reviewId totalPledged tokensReceived).

(** *** Reputation *)

Definition REPUTATION_WIN_DELTA : Z := 1.
Definition REPUTATION_LOSS_DELTA : Z := 1.

Definition with_reputation (score : Z) (trades profitable : uint256) (i : AgentIdentity)
    : AgentIdentity :=
  {| agentAddress := agentAddress i; metadataURI := metadataURI i;
     registrationTime := registrationTime i; reputationScore := score;
     totalTrades := trades; profitableTrades := profitable |}.

Definition updateReputation (sender : positive) (reviewId : uint256) (agent : address)
    (profitable : bool) : M unit :=
  onlyOwner sender >>
  reviewExists reviewId >>
  let* r := gets (fun st => getReview st reviewId) in
  require (executed r) "Review not yet executed" >>
  let* sh := gets (fun st => getAgentShare st reviewId agent) in
  require (0 <? pledgedAmount sh) "Agent did not invest" >>
  let* identity := gets (fun st => getAgentIdentity st agent) in
  require (negb (agentAddress identity =? 0)) "Agent not registered (ERC-8004)" >>
  let* trades := checked_add (totalTrades identity) 1 in
  let* (score, wins) :=
    (if profitable then
       let* score := checked_add_int (reputationScore identity) REPUTATION_WIN_DELTA in
       let* wins := checked_add (profitableTrades identity) 1 in
       ret (score, wins)
     else
       let* score := checked_add_int (reputationScore identity) (- REPUTATION_LOSS_DELTA)%Z in
       ret (score, profitableTrades identity)) in
  modify (setAgentIdentity agent (with_reputation score trades wins identity)) >>
  emit (ReputationUpdated agent score profitable).

(** *** Claim *)

Definition claimTokens (sender : positive) (reviewId : uint256) : M unit :=
  reviewExists reviewId >>
  let* r := gets (fun st => getReview st reviewId) in
  require (executed r) "Not yet executed" >>
  let* share := gets (fun st => getAgentShare st reviewId (Npos sender)) in
  require (0 <? tokenShare share) "No tokens to claim" >>
  require (negb (claimed share)) "Already claimed" >>
  modify (fun st => setAgentShare reviewId (Npos sender)
                      (with_claimed true (getAgentShare st reviewId (Npos sender))) st) >>
  let* token := gets (fun st => tokenAddress (getReview st reviewId)) in
  let* amount := gets (fun st => tokenShare (getAgentShare st reviewId (Npos sender))) in
  let* ok := call_transfer token (Npos sender) amount in
  require ok "Transfer failed" >>
  let* amount := gets (fun st => tokenShare (getAgentShare st reviewId (Npos sender))) in
  emit (TokensClaimed reviewId (Npos sender) amount).

(** ** Transactions and callbacks *)

(** The state-changing entry points, with their caller and arguments. *)
Inductive Call :=
| Receive (sender : positive) (value : uint256)
| SetMemeJobAddress (sender : positive) (_memeJobAddress : address)
| RegisterDelegation (sender : positive) (agentAddress : address)
    (maxAmount expiry : uint256) (signature : list N)
| DepositForAgent (sender : positive) (value : uint256) (agentAddress : address)
| RevokeDelegation (sender : positive) (agentAddress : address)
| RegisterAgent (sender : positive) (metadataURI : string)
| SubmitToken (sender : positive) (value : uint256) (tokenAddress : address)
| SubmitThesis (sender : positive) (reviewId : uint256) (thesis : string)
    (bullish : bool) (pledgedAmount : uint256) (delegator : address)
| ExecuteReview (sender : positive) (reviewId : uint256)
| UpdateReputation (sender : positive) (reviewId : uint256) (agent : address)
    (profitable : bool)
| ClaimTokens (sender : positive) (reviewId : uint256).

Definition dispatch (now : uint256) (c : Call) : M unit :=
  match c with
  | Receive _ value => receive value
  | SetMemeJobAddress sender a => setMemeJobAddress sender a
  | RegisterDelegation sender a m e sig => registerDelegation sender a m e sig
  | DepositForAgent sender value a => depositForAgent now sender value a
  | RevokeDelegation sender a => revokeDelegation sender a
  | RegisterAgent sender uri => registerAgent now sender uri
  | SubmitToken sender value token => submitToken now sender value token >> ret tt
  | SubmitThesis sender id text b p d => submitThesis now sender id text b p d
  | ExecuteReview _ id => executeReview now id
  | UpdateReputation sender id a b => updateReputation sender id a b
  | ClaimTokens sender id => claimTokens sender id
  end.

(** The behaviour of the rest of the chain during one call of the
    contract: for each external call the contract makes, in order, the
    calls the callee makes back into the contract before it answers
    (each with the behaviour of the chain during that nested call), and
    its answer. *)
Inductive Oracle : Type :=
| ONil
| OCons (callbacks : Reentry) (answer : ExtRet) (rest : Oracle)
with Reentry : Type :=
| RNil
| RCons (c : Call) (inner : Oracle) (rest : Reentry).

(** One external call of a run: the state the contract was in when it
    made the call, the call, and the answer it went on with. *)
Record Interaction := {
  seen     : State;
  called   : ExtCall;
  answered : ExtRet
}.

(** How a call of the contract ends: with a result, the state it leaves
    and the external calls this call itself made, or
    with an error (and then without any effect). *)
Inductive Outcome (A : Type) : Type :=
| Ok (a : A) (st : State) (trace : list Interaction)
| Fail (e : Error).

Arguments Ok {A} a st trace.
Arguments Fail {A} e.

Definition record {A : Type} (st0 : State) (c : ExtCall) (r : ExtRet) (o : Outcome A)
    : Outcome A :=
  match o with
  | Ok a st tr => Ok a st ({| seen := st0; called := c; answered := r |} :: tr)
  | Fail e => Fail e
  end.

(** With no behaviour left to consult, every external call fails. *)
Fixpoint run_nil {A : Type} (p : Prog A) : Outcome A :=
  match p with
  | Return a st => Ok a st []
  | Throw e => Fail e
  | Extern st c k => record st c XRevert (run_nil (k st XRevert))
  end.

(** [run now p o] runs [p] to its end.  At an external call: a call that
    carries more value than the contract holds fails; a failing call
    leaves the state as it was; a static call only answers; otherwise
    the value leaves the balance, the callbacks run in order, each one
    atomically (a callback that aborts has no effect), and the caller
    goes on from the state they leave. *)
Fixpoint run {A : Type} (now : uint256) (p : Prog A) (o : Oracle) {struct o} : Outcome A :=
  match o with
  | ONil => run_nil p
  | OCons callbacks answer rest =>
      match p with
      | Return a st => Ok a st []
      | Throw e => Fail e
      | Extern st c k =>
          if is_static c then record st c answer (run now (k st answer) rest)
          else if balance st <? ext_value c then record st c XRevert (run now (k st XRevert) rest)
          else match answer with
               | XRevert => record st c XRevert (run now (k st XRevert) rest)
               | _ =>
                   let st1 := set_balance (balance st - ext_value c) st in
                   let st2 := run_callbacks now callbacks st1 in
                   record st c answer (run now (k st2 answer) rest)
               end
      end
  end
with run_callbacks (now : uint256) (cbs : Reentry) (st : State) {struct cbs} : State :=
  match cbs with
  | RNil => st
  | RCons c inner rest =>
      let st' := match run now (dispatch now c st) inner with
                 | Ok _ st' _ => st'
                 | Fail _ => st
                 end in
      run_callbacks now rest st'
  end.

(** A transaction: the top-level call either commits or leaves the state
    untouched. *)
Definition transact (now : uint256) (c : Call) (o : Oracle) (st : State) : State :=
  match run now (dispatch now c st) o with
  | Ok _ st' _ => st'
  | Fail _ => st
  end.

(** The states the contract can be in: deployed, then any number of
    transactions at any times against any behaviour of the other
    accounts. *)
Inductive reachable : State -> Prop :=
| reachable_deploy this sender value memeJob minFee window gasLimit :
    reachable (constructor this sender value memeJob minFee window gasLimit)
| reachable_transact st now c o :
    reachable st -> reachable (transact now c o st).

(** ** Invariants and the program logic *)

Definition sumN (l : list N) : N := foldr N.add 0 l.

(** The pledges recorded in the shares of the agents [l] of a review. *)
Definition pledges (s : State) (reviewId : uint256) (l : list N) : list N :=
  map (fun a => pledgedAmount (getAgentShare s reviewId a)) l.

(** The token shares recorded for the agents [l] of a review. *)
Definition tokenShares (s : State) (reviewId : uint256) (l : list N) : list N :=
  map (fun a => tokenShare (getAgentShare s reviewId a)) l.

Definition is_ReviewExecuted (reviewId : uint256) (e : Event) : bool :=
  match e with
  | ReviewExecuted id _ _ => id =? reviewId
  | _ => false
  end.

(** What holds of the storage at every moment another account can
    observe it. *)
Record Inv (s : State) : Prop := {
  inv_fresh : forall id, nextReviewId s <= id -> exists_ (getReview s id) = false;
  inv_unborn : forall id, exists_ (getReview s id) = false ->
      executed (getReview s id) = false /\ getReviewAgents s id = [];
  inv_member : forall id a, a ∈ getReviewAgents s id -> agent (getThesis s id a) <> 0;
  inv_nonmember : forall id a, a ∉ getReviewAgents s id -> getAgentShare s id a = zeroShare;
  inv_nodup : forall id, NoDup (getReviewAgents s id);
  inv_sum : forall id,
      sumN (pledges s id (getReviewAgents s id)) = totalPledged (getReview s id);
  inv_open : forall id, executed (getReview s id) = false ->
      totalPurchased (getReview s id) = 0 /\
      forall a, tokenShare (getAgentShare s id a) = 0 /\ claimed (getAgentShare s id a) = false;
  inv_claimed : forall id a, claimed (getAgentShare s id a) = true ->
      0 < tokenShare (getAgentShare s id a);
  inv_share : forall id, executed (getReview s id) = true ->
      0 < totalPurchased (getReview s id) ->
      forall a, tokenShare (getAgentShare s id a) =
                pledgedAmount (getAgentShare s id a) * totalPurchased (getReview s id)
                / totalPledged (getReview s id)
}.

(** What no call changes about a review that was executed when the call
    began: its record, its list of agents, the pledges and token shares;
    a share once claimed stays claimed; and no review-executed event is
    emitted for it again. *)
Record Frozen (s s' : State) : Prop := {
  fr_review : forall id, executed (getReview s id) = true -> getReview s' id = getReview s id;
  fr_agents : forall id, executed (getReview s id) = true ->
      getReviewAgents s' id = getReviewAgents s id;
  fr_shares : forall id a, executed (getReview s id) = true ->
      pledgedAmount (getAgentShare s' id a) = pledgedAmount (getAgentShare s id a) /\
      tokenShare (getAgentShare s' id a) = tokenShare (getAgentShare s id a) /\
      (claimed (getAgentShare s id a) = true -> claimed (getAgentShare s' id a) = true);
  fr_events : exists new, events s' = events s ++ new /\
      forall id, executed (getReview s id) = true ->
                 Forall (fun e => is_ReviewExecuted id e = false) new
}.

(** The relation every call of the contract keeps between the state it
    starts from and every state it hands to another account or leaves. *)
Definition R (s s' : State) : Prop := Inv s -> Inv s' /\ Frozen s s'.

(** [wp p Q E]: however the other accounts behave within [R], if [p]
    returns [a] in state [st] after the interactions [tr] then
    [Q a st tr], and if it aborts with [e] then [E e]. *)
Fixpoint wp {A : Type} (p : Prog A) (Q : A -> State -> list Interaction -> Prop)
    (E : Error -> Prop) : Prop :=
  match p with
  | Return a st => Q a st []
  | Throw e => E e
  | Extern st c k =>
      forall st' r, R st st' ->
        wp (k st' r)
           (fun a s tr => Q a s ({| seen := st; called := c; answered := r |} :: tr)) E
  end.

(** ** Properties used in the statements below *)

(** An outcome satisfies [Q] when it is a result and [E] when it is an
    error. *)
Definition holds {A} (o : Outcome A) (Q : A -> State -> list Interaction -> Prop)
    (E : Error -> Prop) : Prop :=
  match o with
  | Ok a st tr => Q a st tr
  | Fail e => E e
  end.

(** Two states with the same reviews, theses, agent lists and shares. *)
Definition same_core (s s' : State) : Prop :=
  nextReviewId s' = nextReviewId s /\ reviews s' = reviews s /\ theses s' = theses s /\
  reviewAgents s' = reviewAgents s /\ agentShares s' = agentShares s.

(** [s'] reads as [s] on every review other than [id]. *)
Definition agree_off (id : N) (s s' : State) : Prop :=
  forall id', id' <> id ->
    getReview s' id' = getReview s id' /\
    getReviewAgents s' id' = getReviewAgents s id' /\
    (forall a, getAgentShare s' id' a = getAgentShare s id' a) /\
    (forall a, getThesis s' id' a = getThesis s id' a).

(** The value transfers the distribution attempts over the indices [l]
    of the agent list: one per agent whose payout is not zero. *)
Definition fee_calls (agents : list N) (fee : uint256) (l : list nat) : list ExtCall :=
  flat_map (fun i => match agents !! i with
                     | Some a =>
                         let p := payout fee (N.of_nat (length agents)) i in
                         if 0 <? p then [call_value a p] else []
                     | None => []
                     end) l.

(** The state in which an external call was made satisfies the
    invariant and has review [id] marked executed. *)
Definition observed (id : uint256) (i : Interaction) : Prop :=
  Inv (seen i) /\ executed (getReview (seen i) id) = true.

(** What the distribution for review [id], begun in [s0], guarantees of
    the state [s'] it leaves and of its interactions [tr]. *)
Definition distributed (id fee : uint256) (agents : list N) (l : list nat)
    (s0 s' : State) (tr : list Interaction) : Prop :=
  Inv s' /\ Frozen s0 s' /\
  map called tr = fee_calls agents fee l /\
  Forall (observed id) tr.

(** What the allocation loop over the agents [agents] of review [id] does
    to a state [s]: the agents with a pledge get their token share, and
    nothing else changes but the log, which gains share-updated events. *)
Definition allocated (id P T : uint256) (agents : list N) (s s' : State) : Prop :=
  nextReviewId s' = nextReviewId s /\
  (forall id', getReview s' id' = getReview s id') /\
  (forall id' a, getThesis s' id' a = getThesis s id' a) /\
  (forall id', getReviewAgents s' id' = getReviewAgents s id') /\
  (forall id' a,
     id' <> id \/ a ∉ agents \/ pledgedAmount (getAgentShare s id a) = 0 \/ T = 0 ->
     getAgentShare s' id' a = getAgentShare s id' a) /\
  (forall a, a ∈ agents -> 0 < pledgedAmount (getAgentShare s id a) -> 0 < T ->
     getAgentShare s' id a =
     with_tokenShare (pledgedAmount (getAgentShare s id a) * T / P) (getAgentShare s id a)) /\
  exists new, events s' = events s ++ new /\
              forall id', Forall (fun e => is_ReviewExecuted id' e = false) new.

(** What a run of [executeReview] on review [id] from [st] guarantees of
    the state [s'] it leaves and its interactions [tr]. *)
Definition executedReview (id : uint256) (st s' : State) (tr : list Interaction) : Prop :=
  Inv s' /\ Frozen st s' /\
  executed (getReview s' id) = true /\
  Forall (observed id) tr /\
  (totalPledged (getReview st id) = 0 ->
   distributed id (submissionFee (getReview st id)) (getReviewAgents st id)
     (seq 0 (length (getReviewAgents st id)))
     (setReview id (with_executed true (getReview st id)) st) s' tr).

(** What a successful [claimTokens] of [sender] on review [id] from [st]
    guarantees. *)
Definition claimedTokens (sender : positive) (id : uint256) (st s' : State)
    (tr : list Interaction) : Prop :=
  let caller := Npos sender in
  let share := getAgentShare st id caller in
  Inv s' /\ Frozen st s' /\
  claimed (getAgentShare s' id caller) = true /\
  tr = [ {| seen := setAgentShare id caller (with_claimed true share) st;
            called := transfer (tokenAddress (getReview st id)) caller (tokenShare share);
            answered := XBool true |} ].

(** The states that follow a state by transactions. *)
Inductive later (st : State) : State -> Prop :=
| later_now : later st st
| later_transact st' now c o : later st st' -> later st (transact now c o st').

(** The answer to the first external call of a run ([XRevert] when the
    behaviour of the other accounts is exhausted). *)
Definition first_answer (o : Oracle) : ExtRet :=
  match o with
  | ONil => XRevert
  | OCons _ answer _ => answer
  end.

(** The ledger of the repository's test token [MockERC20], the reviewed
    token of the local deployment (declared next to [MockMemeJob]). *)
Module MockERC20.

Definition balanceOf (ledger : gmap N N) (account : address) : uint256 :=
  default 0 (ledger !! account).

(** [transfer(to, amount)] called by [sender]: [None] is a revert,
    [Some] the ledger after a call that returned [true]. *)
Definition transfer (sender to : address) (amount : uint256) (ledger : gmap N N)
    : option (gmap N N) :=
  if amount <=? balanceOf ledger sender then
    let ledger1 := <[sender := balanceOf ledger sender - amount]> ledger in
    if balanceOf ledger1 to + amount <=? UINT256_MAX then
      Some (<[to := balanceOf ledger1 to + amount]> ledger1)
    else None
  else None.

End MockERC20.

(** The reviewed token as the repository's [MockERC20]: what the token
    at [token], holding the balances [ledger], does at an interaction of
    a run, and the balances afterwards ([None] when the interaction is
    not what that token does).  The caller the token sees is the
    contract itself; a [transfer] the token accepts is answered [true]
    and moves the amount, one it refuses reverts and moves nothing;
    [balanceOf] answers the balance; calls to other accounts leave the
    token alone. *)
Definition token_step (token : address) (i : Interaction) (ledger : gmap N N)
    : option (gmap N N) :=
  match called i with
  | transfer t to amount =>
      if t =? token then
        match MockERC20.transfer (self (seen i)) to amount ledger, answered i with
        | Some ledger', XBool true => Some ledger'
        | None, XRevert => Some ledger
        | _, _ => None
        end
      else Some ledger
  | balanceOf t account =>
      if t =? token then
        match answered i with
        | XWord w => if w =? MockERC20.balanceOf ledger account then Some ledger else None
        | _ => None
        end
      else Some ledger
  | _ => Some ledger
  end.

(** The balances of the token after the interactions [tr] of a run, when
    every one of them is what the token does. *)
Fixpoint token_serves (token : address) (tr : list Interaction) (ledger : gmap N N)
    : option (gmap N N) :=
  match tr with
  | [] => Some ledger
  | i :: tr' =>
      match token_step token i ledger with
      | Some ledger' => token_serves token tr' ledger'
      | None => None
      end
  end.

(** The condition for equality in the sum of the token shares as the
    specification words it: the total divides every pledge. *)
Definition equality_only_when_total_divides_pledges (st : State) (id : uint256) : Prop :=
  sumN (tokenShares st id (getReviewAgents st id)) = totalPurchased (getReview st id) ->
  forall a, a ∈ getReviewAgents st id ->
            (totalPledged (getReview st id) | pledgedAmount (getAgentShare st id a)).

(** ** Concrete scenarios *)

Module Scenario.

(** The protocol at address 1000, deployed by account 1 with 1000 units,
    venue 2000, minimum fee 100, review window 600. *)
Definition deployed : State := constructor 1000 1 1000 2000 100 600 1000000.

(** The venue knows the token, and the schedule service accepts. *)
Definition submit_ok : Oracle :=
  OCons RNil (XWord 3000) (OCons RNil (XSched HEDERA_SUCCESS 1) ONil).

(** Principal 10 delegates to agents 20, 21 and 22 and funds 20 and 21;
    creator 30 submits token 3000 with fee 100 at time 0. *)
Definition funded : State :=
  transact 0 (SubmitToken 30 100 3000) submit_ok
    (transact 0 (DepositForAgent 10 70 21) ONil
       (transact 0 (DepositForAgent 10 50 20) ONil
          (transact 0 (RegisterDelegation 10 22 100 0 []) ONil
             (transact 0 (RegisterDelegation 10 21 100 0 []) ONil
                (transact 0 (RegisterDelegation 10 20 100 0 []) ONil deployed))))).

(** Scenario A: agents 20 and 21 pledge 40 and 60. *)
Definition pledgedA : State :=
  transact 1 (SubmitThesis 21 0 "buy" true 60 10) ONil
    (transact 1 (SubmitThesis 20 0 "buy" true 40 10) ONil funded).

(** The purchase brings 1000 tokens; both fee payments are accepted. *)
Definition purchase_ok : Oracle :=
  OCons RNil (XWord 5) (OCons RNil XUnit (OCons RNil (XWord 1005)
    (OCons RNil XUnit (OCons RNil XUnit ONil)))).

Definition executedA : State := transact 600 (ExecuteReview 99 0) purchase_ok pledgedA.

(** Scenario C: agents 20 and 22 pass on the token. *)
Definition bearishC : State :=
  transact 1 (SubmitThesis 22 0 "skip" false 0 10) ONil
    (transact 1 (SubmitThesis 20 0 "skip" false 0 10) ONil funded).

(** The first recipient refuses its payment, the second accepts. *)
Definition first_refuses : Oracle := OCons RNil XRevert (OCons RNil XUnit ONil).

(** The token accepts the transfer of a claim. *)
Definition transfer_ok : Oracle := OCons RNil (XBool true) ONil.

(** The token reports failure. *)
Definition transfer_refused : Oracle := OCons RNil (XBool false) ONil.

End Scenario.

(** The floors and remainders of [p * T / P] over a list of pledges. *)
Definition floors (P T : N) (l : list N) : list N := map (fun p => p * T / P) l.
Definition rests (P T : N) (l : list N) : list N := map (fun p => (p * T) mod P) l.

(** ** Further invariants: solvency and well-formed records *)

(** The sum of [f] over the values of a mapping. *)
Definition total {A : Type} (f : A -> N) (m : gmap N A) : N :=
  map_fold (fun _ v acc => f v + acc) 0 m.

(** What the contract still holds for a review: the submission fee and
    the pledges, until the review is executed. *)
Definition review_owed (r : TokenReview) : N :=
  if executed r then 0 else submissionFee r + totalPledged r.

(** What the contract holds for others: the escrow of every agent, and
    the fee and pledges of every review not yet executed. *)
Definition owed (s : State) : N :=
  total (fun v => v) (agentEscrow s) + total review_owed (reviews s).

(** The native balance beyond what is owed (negative if the contract
    were short). *)
Definition slack (s : State) : Z := (Z.of_N (balance s) - Z.of_N (owed s))%Z.

(** The fields of a review that are written when it is submitted. *)
Definition terms (r : TokenReview) : N * N * N * N * bool :=
  (tokenAddress r, creator r, submissionFee r, deadline r, exists_ r).

(** What holds of the records of the storage, beyond [Inv], at every
    moment another account can observe them. *)
Record Wf (s : State) : Prop := {
  wf_dense : forall id, id < nextReviewId s -> exists_ (getReview s id) = true;
  wf_review : forall id, exists_ (getReview s id) = true ->
      tokenAddress (getReview s id) <> 0 /\ creator (getReview s id) <> 0 /\
      MIN_SUBMISSION_FEE s <= submissionFee (getReview s id);
  wf_author : forall id a, a ∈ getReviewAgents s id ->
      agent (getThesis s id a) = a /\
      submittedAt (getThesis s id a) < deadline (getReview s id);
  wf_silent : forall id a, a ∉ getReviewAgents s id -> getThesis s id a = zeroThesis;
  wf_pledge : forall id a,
      thesisPledgedAmount (getThesis s id a) = pledgedAmount (getAgentShare s id a) /\
      (bullish (getThesis s id a) = true <-> 0 < pledgedAmount (getAgentShare s id a));
  wf_unpurchased : forall id a,
      totalPurchased (getReview s id) = 0 -> tokenShare (getAgentShare s id a) = 0;
  wf_delegation : forall d a x, delegations s !! (d, a) = Some x ->
      delegator x = d /\ delegate x = a /\ d <> 0 /\ a <> 0 /\ 0 < maxAmount x;
  wf_identity : forall a i, agentIdentities s !! a = Some i ->
      agentAddress i = a /\ a <> 0 /\ profitableTrades i <= totalTrades i /\
      reputationScore i = (2 * Z.of_N (profitableTrades i) - Z.of_N (totalTrades i))%Z;
  wf_unborn : forall id, exists_ (getReview s id) = false ->
      submissionFee (getReview s id) = 0
}.

(** What a call never undoes between a state [s] and a later state
    [s']; the slack may have gone down by [b] at most. *)
Record Mono (b : Z) (s s' : State) : Prop := {
  mono_config :
      owner s' = owner s /\ self s' = self s /\ REVIEW_WINDOW s' = REVIEW_WINDOW s /\
      EXECUTION_GAS_LIMIT s' = EXECUTION_GAS_LIMIT s /\
      MIN_SUBMISSION_FEE s' = MIN_SUBMISSION_FEE s;
  mono_next : nextReviewId s <= nextReviewId s';
  mono_review : forall id, exists_ (getReview s id) = true ->
      terms (getReview s' id) = terms (getReview s id) /\
      totalPledged (getReview s id) <= totalPledged (getReview s' id);
  mono_thesis : forall id a, a ∈ getReviewAgents s id ->
      getThesis s' id a = getThesis s id a /\
      pledgedAmount (getAgentShare s' id a) = pledgedAmount (getAgentShare s id a);
  mono_agents : forall id, getReviewAgents s id `prefix_of` getReviewAgents s' id;
  mono_identity : forall a i, agentIdentities s !! a = Some i ->
      exists i', agentIdentities s' !! a = Some i' /\
                 metadataURI i' = metadataURI i /\
                 registrationTime i' = registrationTime i /\
                 totalTrades i <= totalTrades i';
  mono_slack : (slack s - b <= slack s')%Z
}.

(** The relation every call keeps between the state it starts from and
    every state it hands to another account or leaves: [R], and from a
    well-formed state a well-formed one, nothing undone, no slack lost. *)
Definition G (s s' : State) : Prop :=
  R s s' /\ (Inv s -> Wf s -> Wf s' /\ Mono 0 s s').

(** The state the callee of the external call [c] starts from, when the
    contract makes the call in [st]: [st] itself, or [st] less the value
    the call carries. *)
Definition handed (st : State) (c : ExtCall) (st1 : State) : Prop :=
  st1 = st \/
  (ext_value c <= balance st /\ st1 = set_balance (balance st - ext_value c) st).

(** [wpG p Q]: however the other accounts behave within [G], if [p]
    returns [a] in state [st] then [Q a st]. *)
Fixpoint wpG {A : Type} (p : Prog A) (Q : A -> State -> Prop) : Prop :=
  match p with
  | Return a st => Q a st
  | Throw e => True
  | Extern st c k =>
      forall st1 st' r, handed st c st1 -> G st1 st' -> wpG (k st' r) Q
  end.

(** What a step from [s] guarantees of the state [s'] it leaves. *)
Definition Keeps (b : Z) (s s' : State) : Prop :=
  Inv s' /\ Wf s' /\ Frozen s s' /\ Mono b s s'.

(** Two states that differ in the shares and the log at most. *)
Definition same_rest (s s' : State) : Prop :=
  balance s' = balance s /\ agentEscrow s' = agentEscrow s /\ reviews s' = reviews s /\
  delegations s' = delegations s /\ agentIdentities s' = agentIdentities s /\
  owner s' = owner s /\ self s' = self s /\ REVIEW_WINDOW s' = REVIEW_WINDOW s /\
  EXECUTION_GAS_LIMIT s' = EXECUTION_GAS_LIMIT s /\
  MIN_SUBMISSION_FEE s' = MIN_SUBMISSION_FEE s.


(** ** Read helpers *)

(** The [view] functions that do more than read one mapping entry.  A
    view leaves the state as it is. *)
Module View.

(** The loop of [getTheses] over the indices [l]:
    [result[i] = theses[reviewId][agents[i]]].  An index outside the
    storage array or outside the memory array panics. *)
Fixpoint fill (s : State) (reviewId : uint256) (l : list nat) (result : list AgentThesis)
    : option (list AgentThesis) :=
  match l with
  | [] => Some result
  | i :: l' =>
      match getReviewAgents s reviewId !! i with
      | Some a =>
          if (i <? length result)%nat
          then fill s reviewId l' (<[i := getThesis s reviewId a]> result)
          else None
      | None => None
      end
  end.

Definition getTheses (reviewId : uint256) : M (list AgentThesis) :=
  reviewExists reviewId >>
  let* n := gets (fun st => length (getReviewAgents st reviewId)) in
  let* filled := gets (fun st => fill st reviewId (seq 0 n) (replicate n zeroThesis)) in
  match filled with
  | Some result => ret result
  | None => throw (Panic 50)
  end.

Definition getReview (reviewId : uint256) : M TokenReview :=
  reviewExists reviewId >> gets (fun st => getReview st reviewId).

End View.

(** ** After the execution of scenario A *)

Module Aftermath.

(** Agent 20 registers an identity. *)
Definition registered : State :=
  transact 601 (RegisterAgent 20 "ipfs://agent20") ONil Scenario.executedA.

(** The owner records one losing and two profitable trades of agent 20
    on review 0. *)
Definition rated : State :=
  transact 900 (UpdateReputation 1 0 20 true) ONil
    (transact 800 (UpdateReputation 1 0 20 true) ONil
       (transact 700 (UpdateReputation 1 0 20 false) ONil registered)).

End Aftermath.

(** ** Two reviews open at once *)

Module TwoReviews.

(** Principal 10 grants agent 20 a cap of 40 and funds it with 100; the
    creators 30 and 31 submit the tokens 3000 and 3001 at time 0. *)
Definition opened : State :=
  transact 0 (SubmitToken 31 100 3001)
    (OCons RNil (XWord 3001) (OCons RNil (XSched HEDERA_SUCCESS 2) ONil))
    (transact 0 (SubmitToken 30 100 3000) Scenario.submit_ok
       (transact 0 (DepositForAgent 10 100 20) ONil
          (transact 0 (RegisterDelegation 10 20 40 0 []) ONil Scenario.deployed))).

End TwoReviews.

(** ** The dashboard's view of a review *)

(** [frontend/src/lib/utils.ts].  The numbers of the dashboard are IEEE
    doubles; the ones that occur here are integers, and are written as
    integers.  [now] is [Math.floor(Date.now() / 1000)], the dashboard's
    clock in seconds, itself a double. *)
Module Frontend.

Definition MAX_SAFE_INTEGER : Z := (2 ^ 53 - 1)%Z.

(** [Number(n)] for a [bigint] [n >= 0]: the double nearest to [n], the
    one with the even mantissa when two are equally near.  Below [2 ^ 53]
    it is [n]; from there on [n] keeps its 53 leading bits, rounded.  (A
    [uint256] is far below the largest double.) *)
Definition Number (n : N) : N :=
  if n <? 2 ^ 53 then n
  else
    let e := N.log2 n - 52 in
    let q := n / 2 ^ e in
    let r := n mod 2 ^ e in
    let half := 2 ^ (e - 1) in
    let q' := if r <? half then q
              else if half <? r then q + 1
              else if N.even q then q else q + 1 in
    q' * 2 ^ e.

(** [a - b] on doubles that are integers: the difference, rounded as
    [Number] rounds. *)
Definition minus (a b : Z) : Z :=
  let d := (a - b)%Z in
  (Z.sgn d * Z.of_N (Number (Z.abs_N d)))%Z.

Inductive ReviewStatus := open | pending_execution | no_pledges | executed.

Definition secondsUntil (now : Z) (deadlineUnix : N) : Z :=
  let remaining := minus (Z.of_N (Number deadlineUnix)) now in
  Z.max 0 remaining.

Definition getReviewStatus (now : Z) (executed_ : bool) (deadline : N) (totalPledged : N)
    : ReviewStatus :=
  if executed_ then executed
  else if (0 <? secondsUntil now deadline)%Z then open
  else if totalPledged =? 0 then no_pledges
  else pending_execution.

End Frontend.


(** ** The test doubles of the local deployment *)

(** [MockERC20] and [MockMemeJob], the token and the venue the contract
    is run against locally.  A call that reverts is [None]; [sender] is
    [msg.sender].  The events of the doubles are left out. *)
Module Mock.

Record Token := {
  name        : string;
  symbol      : string;
  totalSupply : uint256;
  balanceOf   : gmap N N;
  allowance   : gmap (N * N) N;
  minter      : address
}.

Definition decimals : N := 18.

Definition constructor (_name _symbol : string) (_minter : address) : Token :=
  {| name := _name; symbol := _symbol; totalSupply := 0; balanceOf := ∅;
     allowance := ∅; minter := _minter |}.

Definition set_ledger (supply : uint256) (ledger : gmap N N) (t : Token) : Token :=
  {| name := name t; symbol := symbol t; totalSupply := supply; balanceOf := ledger;
     allowance := allowance t; minter := minter t |}.

Definition set_allowance (a : gmap (N * N) N) (t : Token) : Token :=
  {| name := name t; symbol := symbol t; totalSupply := totalSupply t;
     balanceOf := balanceOf t; allowance := a; minter := minter t |}.

Definition getAllowance (t : Token) (owner spender : address) : uint256 :=
  default 0 (allowance t !! (owner, spender)).

Definition mint (sender to : address) (amount : uint256) (t : Token) : option Token :=
  if sender =? minter t then
    if totalSupply t + amount <=? UINT256_MAX then
      if MockERC20.balanceOf (balanceOf t) to + amount <=? UINT256_MAX then
        Some (set_ledger (totalSupply t + amount)
                (<[to := MockERC20.balanceOf (balanceOf t) to + amount]> (balanceOf t)) t)
      else None
    else None
  else None.

Definition transfer (sender to : address) (amount : uint256) (t : Token) : option Token :=
  match MockERC20.transfer sender to amount (balanceOf t) with
  | Some ledger => Some (set_ledger (totalSupply t) ledger t)
  | None => None
  end.

Definition approve (sender spender : address) (amount : uint256) (t : Token) : Token :=
  set_allowance (<[(sender, spender) := amount]> (allowance t)) t.

Definition transferFrom (sender from to : address) (amount : uint256) (t : Token)
    : option Token :=
  if amount <=? getAllowance t from sender then
    if amount <=? MockERC20.balanceOf (balanceOf t) from then
      let t1 := set_allowance (<[(from, sender) := getAllowance t from sender - amount]>
                                 (allowance t)) t in
      let ledger1 := <[from := MockERC20.balanceOf (balanceOf t) from - amount]>
                       (balanceOf t) in
      if MockERC20.balanceOf ledger1 to + amount <=? UINT256_MAX then
        Some (set_ledger (totalSupply t)
                (<[to := MockERC20.balanceOf ledger1 to + amount]> ledger1) t1)
      else None
    else None
  else None.

(** The calls of the token, and the tokens that a deployment followed by
    successful calls leads to. *)
Inductive TokenCall :=
| Mint (sender to : address) (amount : uint256)
| Transfer (sender to : address) (amount : uint256)
| Approve (sender spender : address) (amount : uint256)
| TransferFrom (sender from to : address) (amount : uint256).

Definition call (c : TokenCall) (t : Token) : option Token :=
  match c with
  | Mint sender to amount => mint sender to amount t
  | Transfer sender to amount => transfer sender to amount t
  | Approve sender spender amount => Some (approve sender spender amount t)
  | TransferFrom sender from to amount => transferFrom sender from to amount t
  end.

Inductive issued : Token -> Prop :=
| issued_deploy _name _symbol _minter : issued (constructor _name _symbol _minter)
| issued_call c t t' : issued t -> call c t = Some t' -> issued t'.

(** [MockMemeJob]: its registry, and with it the tokens deployed on the
    chain, its own address and its native balance. *)
Record MemeToken := {
  tokenAddress      : address;
  creatorAddress    : address;
  fundsRaised       : uint256;
  tokensSold        : uint256;
  firstBuyer        : address;
  distributeRewards : bool
}.

Definition zeroMemeToken : MemeToken :=
  {| tokenAddress := 0; creatorAddress := 0; fundsRaised := 0; tokensSold := 0;
     firstBuyer := 0; distributeRewards := false |}.

Record World := {
  this       : address;
  memeTokens : gmap N MemeToken;
  tokens     : gmap N Token;
  funds      : uint256
}.

Definition getMemeToken (w : World) (token : address) : MemeToken :=
  default zeroMemeToken (memeTokens w !! token).

Definition registerMockToken (_tokenAddress creator : address) (w : World) : World :=
  {| this := this w;
     memeTokens := <[_tokenAddress :=
                      {| tokenAddress := _tokenAddress; creatorAddress := creator;
                         fundsRaised := 0; tokensSold := 0; firstBuyer := 0;
                         distributeRewards := false |}]> (memeTokens w);
     tokens := tokens w; funds := funds w |}.

Definition addressToMemeTokenMapping (token : address) (w : World) : MemeToken :=
  getMemeToken w token.

Definition ether : N := 10 ^ 18.

(** The number of tokens [buyJob] issues for [value]. *)
Definition tokensToIssue (value : uint256) : uint256 :=
  let n := value * 1000 / ether in
  if n =? 0 then 1 else n.

(** [buyJob(memeAddress, amount, referrer)] called by [sender] with
    [value].  The mint is a call to the contract at [memeAddress]; it
    reverts if there is none. *)
Definition buyJob (sender : address) (value : uint256) (memeAddress : address)
    (amount : uint256) (referrer : address) (w : World) : option World :=
  let m := getMemeToken w memeAddress in
  if tokenAddress m =? 0 then None
  else if negb (value =? amount) then None
  else if negb (value * 1000 <=? UINT256_MAX) then None
  else
    let n := tokensToIssue value in
    if negb (fundsRaised m + value <=? UINT256_MAX) then None
    else if negb (tokensSold m + n <=? UINT256_MAX) then None
    else
      let m' := {| tokenAddress := tokenAddress m; creatorAddress := creatorAddress m;
                   fundsRaised := fundsRaised m + value; tokensSold := tokensSold m + n;
                   firstBuyer := if firstBuyer m =? 0 then sender else firstBuyer m;
                   distributeRewards := distributeRewards m |} in
      match tokens w !! memeAddress with
      | None => None
      | Some t =>
          match mint (this w) sender n t with
          | None => None
          | Some t' =>
              Some {| this := this w;
                      memeTokens := <[memeAddress := m']> (memeTokens w);
                      tokens := <[memeAddress := t']> (tokens w);
                      funds := funds w + value |}
          end
      end.

End Mock.

(** The venue at address 2000 with the token 3000 registered and
    deployed, and the token after two purchases and a transfer. *)
Module MockScenario.

Definition token0 : Mock.Token := Mock.constructor "Meme" "MEME" 2000.

Definition world0 : Mock.World :=
  Mock.registerMockToken 3000 30
    {| Mock.this := 2000; Mock.memeTokens := ∅; Mock.tokens := {[3000 := token0]};
       Mock.funds := 0 |}.

(** The venue buys 500 tokens for the protocol (address 1000) and 100
    for account 7, who passes 30 on to account 8.  (The calls succeed;
    [default] only unwraps their results.) *)
Definition bought : Mock.Token := default token0 (Mock.mint 2000 1000 500 token0).
Definition bought2 : Mock.Token := default bought (Mock.mint 2000 7 100 bought).
Definition traded : Mock.Token := default bought2 (Mock.transfer 7 8 30 bought2).

End MockScenario.

(** What a successful [executeReview] of a review [id] with pledges did:
    it asked the token for the contract's balance, bought at the venue
    for exactly the pledged total, asked for the balance again, and
    recorded the difference as [totalPurchased]; the calls after these
    three are the value transfers of the fee distribution. *)
Definition purchased (id : uint256) (st s' : State) (tr : list Interaction) : Prop :=
  let P := totalPledged (getReview st id) in
  let token := tokenAddress (getReview st id) in
  exists balanceBefore balanceAfter i1 i2 i3 rest,
    tr = i1 :: i2 :: i3 :: rest /\
    called i1 = balanceOf token (self (seen i1)) /\ answered i1 = XWord balanceBefore /\
    called i2 = buyJob (memeJobAddress (seen i2)) P token P 0 /\ answered i2 <> XRevert /\
    called i3 = balanceOf token (self (seen i3)) /\ answered i3 = XWord balanceAfter /\
    balanceBefore <= balanceAfter /\
    totalPurchased (getReview s' id) = balanceAfter - balanceBefore /\
    totalPledged (getReview s' id) = P /\
    executed (getReview s' id) = true /\
    Forall (fun i => exists a v, called i = call_value a v) rest.

(** * Verification *)

(** ** The relation [R] is a preorder that ignores the balance *)

Lemma Frozen_refl s : Frozen s s.
Proof.
  constructor; auto.
  exists []. rewrite app_nil_r. split; [reflexivity | intros; constructor].
Qed.

Lemma Frozen_trans s1 s2 s3 : Frozen s1 s2 -> Frozen s2 s3 -> Frozen s1 s3.
Proof.
  intros [r1 a1 h1 (n1 & e1 & f1)] [r2 a2 h2 (n2 & e2 & f2)].
  assert (X : forall id, executed (getReview s1 id) = true ->
                         executed (getReview s2 id) = true).
  { intros id H. rewrite (r1 id H). exact H. }
  constructor.
  - intros id H. rewrite (r2 id (X id H)). auto.
  - intros id H. rewrite (a2 id (X id H)). auto.
  - intros id a H.
    destruct (h1 id a H) as (p1 & t1 & c1), (h2 id a (X id H)) as (p2 & t2 & c2).
    repeat split; [congruence | congruence | auto].
  - exists (n1 ++ n2). split.
    + rewrite e2, e1, app_assoc. reflexivity.
    + intros id H. apply Forall_app. split; [apply f1 | apply f2]; auto.
Qed.

Lemma R_refl s : R s s.
Proof. intros H. split; [exact H | apply Frozen_refl]. Qed.

Lemma R_trans s1 s2 s3 : R s1 s2 -> R s2 s3 -> R s1 s3.
Proof.
  intros H12 H23 I1. destruct (H12 I1) as [I2 F12]. destruct (H23 I2) as [I3 F23].
  split; [exact I3 | exact (Frozen_trans _ _ _ F12 F23)].
Qed.

Lemma Inv_core s s' : same_core s s' -> Inv s -> Inv s'.
Proof.
  destruct s, s'. unfold same_core. simpl.
  intros (-> & -> & -> & -> & ->) [H1 H2 H3 H4 H5 H6 H7 H8 H9].
  constructor; assumption.
Qed.

Lemma Frozen_core s s' new :
  same_core s s' -> events s' = events s ++ new ->
  (forall id, Forall (fun e => is_ReviewExecuted id e = false) new) ->
  Frozen s s'.
Proof.
  destruct s, s'. unfold same_core. simpl.
  intros (-> & -> & -> & -> & ->) He Hn.
  constructor; try (intros; reflexivity).
  - intros. repeat split; auto.
  - exists new. split; [exact He | intros; apply Hn].
Qed.

Lemma R_core s s' new :
  same_core s s' -> events s' = events s ++ new ->
  (forall id, Forall (fun e => is_ReviewExecuted id e = false) new) ->
  R s s'.
Proof.
  intros Hc He Hn HI. split; [exact (Inv_core _ _ Hc HI) | exact (Frozen_core _ _ _ Hc He Hn)].
Qed.

Lemma R_set_balance b s : R s (set_balance b s).
Proof.
  apply (R_core _ _ []).
  - repeat split.
  - simpl. rewrite app_nil_r. reflexivity.
  - intros; constructor.
Qed.

(** ** Rules of the program logic *)

Lemma wp_mono {A} (p : Prog A) (Q Q' : A -> State -> list Interaction -> Prop)
    (E E' : Error -> Prop) :
  (forall a s tr, Q a s tr -> Q' a s tr) -> (forall e, E e -> E' e) ->
  wp p Q E -> wp p Q' E'.
Proof.
  revert Q Q'. induction p as [a st | e | st c k IH]; simpl; intros Q Q' HQ HE Hwp.
  - auto.
  - auto.
  - intros st' r HR. eapply IH; [| exact HE | exact (Hwp st' r HR)].
    intros a s tr. apply HQ.
Qed.

Lemma wp_bindP {A B} (p : Prog A) (f : A -> State -> Prog B)
    (Q : B -> State -> list Interaction -> Prop) (E : Error -> Prop) :
  wp p (fun a st tr1 => wp (f a st) (fun b s tr2 => Q b s (tr1 ++ tr2)) E) E ->
  wp (bindP p f) Q E.
Proof.
  revert Q. induction p as [a st | e | st c k IH]; simpl; intros Q Hwp.
  - exact Hwp.
  - exact Hwp.
  - intros st' r HR. apply IH. exact (Hwp st' r HR).
Qed.

(** ** Soundness of the program logic for [run] *)

Scheme Oracle_mut := Induction for Oracle Sort Prop
  with Reentry_mut := Induction for Reentry Sort Prop.
Combined Scheme Oracle_Reentry_ind from Oracle_mut, Reentry_mut.

Lemma holds_record {A} st c r (o : Outcome A) Q E :
  holds o (fun a s tr => Q a s ({| seen := st; called := c; answered := r |} :: tr)) E ->
  holds (record st c r o) Q E.
Proof. destruct o; simpl; auto. Qed.

Lemma run_nil_sound {A} (p : Prog A) Q E : wp p Q E -> holds (run_nil p) Q E.
Proof.
  revert Q. induction p as [a st | e | st c k IH]; simpl; intros Q Hwp.
  - exact Hwp.
  - exact Hwp.
  - apply holds_record. apply IH. apply Hwp. apply R_refl.
Qed.

Section Soundness.

(** Every entry point keeps [R] between the state it starts from and
    the state it leaves. *)
Hypothesis dispatch_R : forall now c st,
  wp (dispatch now c st) (fun _ st' _ => R st st') (fun _ => True).

Lemma run_sound_mut :
  (forall o now A (p : Prog A) Q E, wp p Q E -> holds (run now p o) Q E) /\
  (forall cbs now st, R st (run_callbacks now cbs st)).
Proof.
  apply Oracle_Reentry_ind.
  - intros now A p Q E Hwp. simpl. apply run_nil_sound. exact Hwp.
  - intros cbs IHc answer rest IHr now A p Q E Hwp.
    destruct p as [a st | e | st c k]; simpl in *; try exact Hwp.
    destruct (is_static c).
    { apply holds_record, IHr, Hwp, R_refl. }
    destruct (balance st <? ext_value c).
    { apply holds_record, IHr, Hwp, R_refl. }
    destruct answer;
      try (apply holds_record, IHr, Hwp;
           eapply R_trans; [apply R_set_balance | apply IHc]).
    apply holds_record, IHr, Hwp, R_refl.
  - intros now st. simpl. apply R_refl.
  - intros c inner IHi rest IHr now st. simpl.
    eapply R_trans; [| apply IHr].
    specialize (IHi now unit (dispatch now c st) _ _ (dispatch_R now c st)).
    destruct (run now (dispatch now c st) inner); simpl in IHi.
    + exact IHi.
    + apply R_refl.
Qed.

End Soundness.

(** ** Every entry point keeps [R] *)

#[local] Arguments N.eqb : simpl never.
#[local] Arguments N.ltb : simpl never.
#[local] Arguments N.leb : simpl never.
#[local] Arguments N.add : simpl never.
#[local] Arguments N.sub : simpl never.
#[local] Arguments N.mul : simpl never.
#[local] Arguments N.div : simpl never.
#[local] Arguments Z.add : simpl never.
#[local] Arguments Z.leb : simpl never.
#[local] Arguments Z.eqb : simpl never.
#[local] Arguments Z.opp : simpl never.

Ltac unfold_monad :=
  repeat (progress unfold bind, ret, gets, modify, require, throw, emit, payable,
            onlyOwner, reviewExists, reviewOpen, extern,
            checked_add, checked_sub, checked_mul, checked_add_int in * ).

Ltac split_ifs :=
  repeat (simpl;
          match goal with
          | |- context [if ?b then _ else _] => destruct b eqn:?
          end); simpl.

(** Closes [R s s'] when [s'] differs from [s] outside the reviews,
    theses, agent lists and shares, up to events other than the
    review-executed one. *)
Ltac solve_R_core :=
  eapply R_core;
  [ repeat split
  | simpl; first [reflexivity | symmetry; apply app_nil_r]
  | intros; repeat constructor ].

Lemma receive_R value st :
  wp (receive value st) (fun _ st' _ => R st st') (fun _ => True).
Proof. unfold receive. unfold_monad. simpl. solve_R_core. Qed.

Lemma setMemeJobAddress_R sender a st :
  wp (setMemeJobAddress sender a st) (fun _ st' _ => R st st') (fun _ => True).
Proof. unfold setMemeJobAddress. unfold_monad. split_ifs; auto. solve_R_core. Qed.

Lemma registerDelegation_R sender a m e sig st :
  wp (registerDelegation sender a m e sig st) (fun _ st' _ => R st st') (fun _ => True).
Proof. unfold registerDelegation. unfold_monad. split_ifs; auto. solve_R_core. Qed.

Lemma depositForAgent_R now sender value a st :
  wp (depositForAgent now sender value a st) (fun _ st' _ => R st st') (fun _ => True).
Proof. unfold depositForAgent. unfold_monad. split_ifs; auto. solve_R_core. Qed.

Lemma revokeDelegation_R sender a st :
  wp (revokeDelegation sender a st) (fun _ st' _ => R st st') (fun _ => True).
Proof. unfold revokeDelegation. unfold_monad. split_ifs; auto. solve_R_core. Qed.

Lemma registerAgent_R now sender uri st :
  wp (registerAgent now sender uri st) (fun _ st' _ => R st st') (fun _ => True).
Proof. unfold registerAgent. unfold_monad. split_ifs; auto. solve_R_core. Qed.

Lemma updateReputation_R sender id a b st :
  wp (updateReputation sender id a b st) (fun _ st' _ => R st st') (fun _ => True).
Proof.
  unfold updateReputation, reviewExists. unfold_monad. split_ifs; auto; solve_R_core.
Qed.

(** ** Reading a mapping after a write *)

Lemma getReview_setThesis id a t id' s : getReview (setThesis id a t s) id' = getReview s id'.
Proof. reflexivity. Qed.
Lemma getReview_pushReviewAgent id a id' s : getReview (pushReviewAgent id a s) id' = getReview s id'.
Proof. reflexivity. Qed.
Lemma getReview_setAgentShare id a sh id' s : getReview (setAgentShare id a sh s) id' = getReview s id'.
Proof. reflexivity. Qed.
Lemma getReview_setAgentEscrow a v id' s : getReview (setAgentEscrow a v s) id' = getReview s id'.
Proof. reflexivity. Qed.
Lemma getReview_set_nextReviewId v id' s : getReview (set_nextReviewId v s) id' = getReview s id'.
Proof. reflexivity. Qed.
Lemma getReview_set_events v id' s : getReview (set_events v s) id' = getReview s id'.
Proof. reflexivity. Qed.
Lemma getReview_set_balance v id' s : getReview (set_balance v s) id' = getReview s id'.
Proof. reflexivity. Qed.
Lemma getThesis_setReview id r id' a' s : getThesis (setReview id r s) id' a' = getThesis s id' a'.
Proof. reflexivity. Qed.
Lemma getThesis_pushReviewAgent id a id' a' s : getThesis (pushReviewAgent id a s) id' a' = getThesis s id' a'.
Proof. reflexivity. Qed.
Lemma getThesis_setAgentShare id a sh id' a' s : getThesis (setAgentShare id a sh s) id' a' = getThesis s id' a'.
Proof. reflexivity. Qed.
Lemma getThesis_setAgentEscrow a v id' a' s : getThesis (setAgentEscrow a v s) id' a' = getThesis s id' a'.
Proof. reflexivity. Qed.
Lemma getThesis_set_nextReviewId v id' a' s : getThesis (set_nextReviewId v s) id' a' = getThesis s id' a'.
Proof. reflexivity. Qed.
Lemma getThesis_set_events v id' a' s : getThesis (set_events v s) id' a' = getThesis s id' a'.
Proof. reflexivity. Qed.
Lemma getThesis_set_balance v id' a' s : getThesis (set_balance v s) id' a' = getThesis s id' a'.
Proof. reflexivity. Qed.
Lemma getReviewAgents_setReview id r id' s : getReviewAgents (setReview id r s) id' = getReviewAgents s id'.
Proof. reflexivity. Qed.
Lemma getReviewAgents_setThesis id a t id' s : getReviewAgents (setThesis id a t s) id' = getReviewAgents s id'.
Proof. reflexivity. Qed.
Lemma getReviewAgents_setAgentShare id a sh id' s : getReviewAgents (setAgentShare id a sh s) id' = getReviewAgents s id'.
Proof. reflexivity. Qed.
Lemma getReviewAgents_setAgentEscrow a v id' s : getReviewAgents (setAgentEscrow a v s) id' = getReviewAgents s id'.
Proof. reflexivity. Qed.
Lemma getReviewAgents_set_nextReviewId v id' s : getReviewAgents (set_nextReviewId v s) id' = getReviewAgents s id'.
Proof. reflexivity. Qed.
Lemma getReviewAgents_set_events v id' s : getReviewAgents (set_events v s) id' = getReviewAgents s id'.
Proof. reflexivity. Qed.
Lemma getReviewAgents_set_balance v id' s : getReviewAgents (set_balance v s) id' = getReviewAgents s id'.
Proof. reflexivity. Qed.
Lemma getAgentShare_setReview id r id' a' s : getAgentShare (setReview id r s) id' a' = getAgentShare s id' a'.
Proof. reflexivity. Qed.
Lemma getAgentShare_setThesis id a t id' a' s : getAgentShare (setThesis id a t s) id' a' = getAgentShare s id' a'.
Proof. reflexivity. Qed.
Lemma getAgentShare_pushReviewAgent id a id' a' s : getAgentShare (pushReviewAgent id a s) id' a' = getAgentShare s id' a'.
Proof. reflexivity. Qed.
Lemma getAgentShare_setAgentEscrow a v id' a' s : getAgentShare (setAgentEscrow a v s) id' a' = getAgentShare s id' a'.
Proof. reflexivity. Qed.
Lemma getAgentShare_set_nextReviewId v id' a' s : getAgentShare (set_nextReviewId v s) id' a' = getAgentShare s id' a'.
Proof. reflexivity. Qed.
Lemma getAgentShare_set_events v id' a' s : getAgentShare (set_events v s) id' a' = getAgentShare s id' a'.
Proof. reflexivity. Qed.
Lemma getAgentShare_set_balance v id' a' s : getAgentShare (set_balance v s) id' a' = getAgentShare s id' a'.
Proof. reflexivity. Qed.
Lemma nextReviewId_setReview id r s : nextReviewId (setReview id r s) = nextReviewId s.
Proof. reflexivity. Qed.
Lemma nextReviewId_setThesis id a t s : nextReviewId (setThesis id a t s) = nextReviewId s.
Proof. reflexivity. Qed.
Lemma nextReviewId_pushReviewAgent id a s : nextReviewId (pushReviewAgent id a s) = nextReviewId s.
Proof. reflexivity. Qed.
Lemma nextReviewId_setAgentShare id a sh s : nextReviewId (setAgentShare id a sh s) = nextReviewId s.
Proof. reflexivity. Qed.
Lemma nextReviewId_setAgentEscrow a v s : nextReviewId (setAgentEscrow a v s) = nextReviewId s.
Proof. reflexivity. Qed.
Lemma nextReviewId_set_events v s : nextReviewId (set_events v s) = nextReviewId s.
Proof. reflexivity. Qed.
Lemma nextReviewId_set_balance v s : nextReviewId (set_balance v s) = nextReviewId s.
Proof. reflexivity. Qed.
Lemma events_setReview id r s : events (setReview id r s) = events s.
Proof. reflexivity. Qed.
Lemma events_setThesis id a t s : events (setThesis id a t s) = events s.
Proof. reflexivity. Qed.
Lemma events_pushReviewAgent id a s : events (pushReviewAgent id a s) = events s.
Proof. reflexivity. Qed.
Lemma events_setAgentShare id a sh s : events (setAgentShare id a sh s) = events s.
Proof. reflexivity. Qed.
Lemma events_setAgentEscrow a v s : events (setAgentEscrow a v s) = events s.
Proof. reflexivity. Qed.
Lemma events_set_nextReviewId v s : events (set_nextReviewId v s) = events s.
Proof. reflexivity. Qed.
Lemma events_set_balance v s : events (set_balance v s) = events s.
Proof. reflexivity. Qed.
Lemma memeJobAddress_setReview id r s : memeJobAddress (setReview id r s) = memeJobAddress s.
Proof. reflexivity. Qed.
Lemma memeJobAddress_setThesis id a t s : memeJobAddress (setThesis id a t s) = memeJobAddress s.
Proof. reflexivity. Qed.
Lemma memeJobAddress_pushReviewAgent id a s : memeJobAddress (pushReviewAgent id a s) = memeJobAddress s.
Proof. reflexivity. Qed.
Lemma memeJobAddress_setAgentShare id a sh s : memeJobAddress (setAgentShare id a sh s) = memeJobAddress s.
Proof. reflexivity. Qed.
Lemma memeJobAddress_setAgentEscrow a v s : memeJobAddress (setAgentEscrow a v s) = memeJobAddress s.
Proof. reflexivity. Qed.
Lemma memeJobAddress_set_nextReviewId v s : memeJobAddress (set_nextReviewId v s) = memeJobAddress s.
Proof. reflexivity. Qed.
Lemma memeJobAddress_set_events v s : memeJobAddress (set_events v s) = memeJobAddress s.
Proof. reflexivity. Qed.
Lemma memeJobAddress_set_balance v s : memeJobAddress (set_balance v s) = memeJobAddress s.
Proof. reflexivity. Qed.
Lemma self_setReview id r s : self (setReview id r s) = self s.
Proof. reflexivity. Qed.
Lemma self_setThesis id a t s : self (setThesis id a t s) = self s.
Proof. reflexivity. Qed.
Lemma self_pushReviewAgent id a s : self (pushReviewAgent id a s) = self s.
Proof. reflexivity. Qed.
Lemma self_setAgentShare id a sh s : self (setAgentShare id a sh s) = self s.
Proof. reflexivity. Qed.
Lemma self_setAgentEscrow a v s : self (setAgentEscrow a v s) = self s.
Proof. reflexivity. Qed.
Lemma self_set_nextReviewId v s : self (set_nextReviewId v s) = self s.
Proof. reflexivity. Qed.
Lemma self_set_events v s : self (set_events v s) = self s.
Proof. reflexivity. Qed.
Lemma self_set_balance v s : self (set_balance v s) = self s.
Proof. reflexivity. Qed.

Lemma getReview_setReview id r s id' :
  getReview (setReview id r s) id' = if decide (id = id') then r else getReview s id'.
Proof.
  unfold getReview, setReview; simpl. rewrite lookup_insert. case_decide; reflexivity.
Qed.

Lemma getThesis_setThesis id a t s id' a' :
  getThesis (setThesis id a t s) id' a' =
  if decide ((id, a) = (id', a')) then t else getThesis s id' a'.
Proof.
  unfold getThesis, setThesis; simpl. rewrite lookup_insert. case_decide; reflexivity.
Qed.

Lemma getReviewAgents_pushReviewAgent id a s id' :
  getReviewAgents (pushReviewAgent id a s) id' =
  if decide (id = id') then getReviewAgents s id ++ [a] else getReviewAgents s id'.
Proof.
  unfold getReviewAgents at 1. unfold pushReviewAgent; simpl.
  rewrite lookup_insert. case_decide; reflexivity.
Qed.

Lemma getAgentShare_setAgentShare id a sh s id' a' :
  getAgentShare (setAgentShare id a sh s) id' a' =
  if decide ((id, a) = (id', a')) then sh else getAgentShare s id' a'.
Proof.
  unfold getAgentShare, setAgentShare; simpl. rewrite lookup_insert. case_decide; reflexivity.
Qed.

Lemma nextReviewId_set_nextReviewId v s : nextReviewId (set_nextReviewId v s) = v.
Proof. reflexivity. Qed.

Lemma events_set_events v s : events (set_events v s) = v.
Proof. reflexivity. Qed.

Create Rewrite HintDb state_rw.
#[local] Hint Rewrite
  getReview_setThesis
  getReview_pushReviewAgent
  getReview_setAgentShare
  getReview_setAgentEscrow
  getReview_set_nextReviewId
  getReview_set_events
  getReview_set_balance
  getThesis_setReview
  getThesis_pushReviewAgent
  getThesis_setAgentShare
  getThesis_setAgentEscrow
  getThesis_set_nextReviewId
  getThesis_set_events
  getThesis_set_balance
  getReviewAgents_setReview
  getReviewAgents_setThesis
  getReviewAgents_setAgentShare
  getReviewAgents_setAgentEscrow
  getReviewAgents_set_nextReviewId
  getReviewAgents_set_events
  getReviewAgents_set_balance
  getAgentShare_setReview
  getAgentShare_setThesis
  getAgentShare_pushReviewAgent
  getAgentShare_setAgentEscrow
  getAgentShare_set_nextReviewId
  getAgentShare_set_events
  getAgentShare_set_balance
  nextReviewId_setReview
  nextReviewId_setThesis
  nextReviewId_pushReviewAgent
  nextReviewId_setAgentShare
  nextReviewId_setAgentEscrow
  nextReviewId_set_events
  nextReviewId_set_balance
  events_setReview
  events_setThesis
  events_pushReviewAgent
  events_setAgentShare
  events_setAgentEscrow
  events_set_nextReviewId
  events_set_balance
  memeJobAddress_setReview
  memeJobAddress_setThesis
  memeJobAddress_pushReviewAgent
  memeJobAddress_setAgentShare
  memeJobAddress_setAgentEscrow
  memeJobAddress_set_nextReviewId
  memeJobAddress_set_events
  memeJobAddress_set_balance
  self_setReview
  self_setThesis
  self_pushReviewAgent
  self_setAgentShare
  self_setAgentEscrow
  self_set_nextReviewId
  self_set_events
  self_set_balance
  getReview_setReview
  getThesis_setThesis
  getReviewAgents_pushReviewAgent
  getAgentShare_setAgentShare
  nextReviewId_set_nextReviewId
  events_set_events
  : state_rw.

#[local] Arguments setReview : simpl never.
#[local] Arguments setThesis : simpl never.
#[local] Arguments pushReviewAgent : simpl never.
#[local] Arguments setAgentShare : simpl never.
#[local] Arguments setAgentEscrow : simpl never.
#[local] Arguments set_nextReviewId : simpl never.
#[local] Arguments set_events : simpl never.
#[local] Arguments set_balance : simpl never.
#[local] Arguments getReview : simpl never.
#[local] Arguments getThesis : simpl never.
#[local] Arguments getReviewAgents : simpl never.
#[local] Arguments getAgentShare : simpl never.
(** ** Sums over the agents of a review *)

Lemma sumN_app l1 l2 : sumN (l1 ++ l2) = sumN l1 + sumN l2.
Proof. induction l1 as [| x l1 IH]; simpl; [reflexivity | rewrite IH; lia]. Qed.

Lemma pledges_ext s s' id id' l :
  (forall a, a ∈ l ->
     pledgedAmount (getAgentShare s' id' a) = pledgedAmount (getAgentShare s id a)) ->
  pledges s' id' l = pledges s id l.
Proof.
  intros H. unfold pledges. apply map_ext_in. intros a Ha. apply H.
  apply list_elem_of_In. exact Ha.
Qed.

Lemma pledges_app s id l1 l2 : pledges s id (l1 ++ l2) = pledges s id l1 ++ pledges s id l2.
Proof. unfold pledges. apply map_app. Qed.

Ltac rw_state := autorewrite with state_rw in *.

(** ** Steps that touch one review only *)

Lemma Frozen_confined s0 s s' id new :
  Frozen s0 s -> executed (getReview s0 id) = false -> agree_off id s s' ->
  events s' = events s ++ new ->
  (forall id', id' <> id -> Forall (fun e => is_ReviewExecuted id' e = false) new) ->
  Frozen s0 s'.
Proof.
  intros [r a h (n & e & f)] Hid Hoff He Hn.
  assert (X : forall id', executed (getReview s0 id') = true -> id' <> id) by congruence.
  constructor.
  - intros id' H. destruct (Hoff id' (X id' H)) as (-> & _). auto.
  - intros id' H. destruct (Hoff id' (X id' H)) as (_ & -> & _). auto.
  - intros id' a' H. destruct (Hoff id' (X id' H)) as (_ & _ & -> & _). auto.
  - exists (n ++ new). split.
    + rewrite He, e, app_assoc. reflexivity.
    + intros id' H. apply Forall_app. split; [apply f | apply Hn]; auto.
Qed.

Section SubmitThesisStep.

Variables (st st' : State) (id S p : N) (t : AgentThesis).
Hypothesis HI : Inv st.
Hypothesis Hexists : exists_ (getReview st id) = true.
Hypothesis Hopen : executed (getReview st id) = false.
Hypothesis Hnew : agent (getThesis st id S) = 0.
Hypothesis Ht : agent t <> 0.
Hypothesis Hnext : nextReviewId st' = nextReviewId st.
Hypothesis Hreview : forall id', getReview st' id' =
  if decide (id = id')
  then with_totalPledged (totalPledged (getReview st id) + p) (getReview st id)
  else getReview st id'.
Hypothesis Hthesis : forall id' a', getThesis st' id' a' =
  if decide ((id, S) = (id', a')) then t else getThesis st id' a'.
Hypothesis Hagents : forall id', getReviewAgents st' id' =
  if decide (id = id') then getReviewAgents st id ++ [S] else getReviewAgents st id'.
Hypothesis Hshare : forall id' a', getAgentShare st' id' a' =
  if decide ((id, S) = (id', a'))
  then {| pledgedAmount := p; tokenShare := 0; claimed := false |}
  else getAgentShare st id' a'.

Lemma submitThesis_fresh : S ∉ getReviewAgents st id.
Proof. intros Hin. exact (inv_member st HI _ _ Hin Hnew). Qed.

Lemma Inv_submitThesis : Inv st'.
Proof.
  pose proof submitThesis_fresh as Hfresh.
  destruct HI as [H1 H2 H3 H4 H5 H6 H7 H8 H9].
  constructor.
  - intros id'. rewrite Hnext, Hreview. case_decide; subst; simpl; auto.
  - intros id'. rewrite Hreview, Hagents. case_decide; subst; simpl; auto. congruence.
  - intros id' a. rewrite Hagents, Hthesis.
    destruct (decide (id = id')) as [<- |]; case_decide; simplify_eq; auto.
    intros Hin. apply elem_of_app in Hin as [Hin | Hin]; auto.
    apply list_elem_of_singleton in Hin. congruence.
  - intros id' a. rewrite Hagents, Hshare.
    destruct (decide (id = id')) as [<- |]; case_decide; simplify_eq; auto.
    + intros Hin. exfalso. apply Hin, elem_of_app. right. constructor.
    + intros Hin. apply H4. intros Hin'. apply Hin, elem_of_app. auto.
  - intros id'. rewrite Hagents. case_decide; subst; auto.
    apply NoDup_app. repeat split; auto.
    + intros x Hx Hx'. apply list_elem_of_singleton in Hx'. subst. auto.
    + apply NoDup_singleton.
  - intros id'. rewrite Hagents, Hreview. case_decide; subst; simpl.
    + rewrite pledges_app, sumN_app.
      rewrite (pledges_ext st st' id' id').
      * rewrite H6. unfold pledges. simpl. rewrite Hshare.
        rewrite decide_True by reflexivity. simpl. lia.
      * intros a Ha. rewrite Hshare. rewrite decide_False; auto. congruence.
    + rewrite (pledges_ext st st' id' id'); auto.
      intros a Ha. rewrite Hshare. rewrite decide_False; auto. congruence.
  - intros id'. rewrite Hreview. intros He.
    assert (He' : executed (getReview st id') = false).
    { revert He. case_decide; subst; simpl; auto. }
    clear He. destruct (H7 id' He') as [Hp Hs]. split.
    + case_decide; subst; simpl; auto.
    + intros a. rewrite Hshare. case_decide; simpl; auto.
  - intros id' a. rewrite Hshare. case_decide; simpl; auto. discriminate.
  - intros id'. rewrite Hreview.
    case_decide; subst; simpl; [congruence |].
    intros He Hp a. rewrite Hshare. rewrite decide_False by congruence. auto.
Qed.

Lemma agree_off_submitThesis : agree_off id st st'.
Proof.
  intros id' Hne. rewrite Hreview, Hagents. rewrite !decide_False by congruence.
  repeat split; auto; intros a.
  - rewrite Hshare. rewrite decide_False by congruence. reflexivity.
  - rewrite Hthesis. rewrite decide_False by congruence. reflexivity.
Qed.

End SubmitThesisStep.

Lemma wp_assume {A} (P : Prop) (p : Prog A) Q :
  (P -> wp p Q (fun _ => True)) ->
  wp p (fun a s tr => P -> Q a s tr) (fun _ => True).
Proof.
  revert Q. induction p as [a st | e | st c k IH]; simpl; intros Q H.
  - exact H.
  - exact I.
  - intros st' r HR. apply (IH st' r (fun a s tr => Q a s (_ :: tr))).
    intros HP. exact (H HP st' r HR).
Qed.

Lemma with_totalPledged_same r : with_totalPledged (totalPledged r + 0) r = r.
Proof. destruct r. unfold with_totalPledged. simpl. f_equal. lia. Qed.

Lemma not_ReviewExecuted_1 e :
  (forall id, is_ReviewExecuted id e = false) ->
  forall id : N, Forall (fun e => is_ReviewExecuted id e = false) [e].
Proof. intros H id. repeat constructor. apply H. Qed.

Lemma submitThesis_Inv now sender id text b p d st :
  Inv st ->
  wp (submitThesis now sender id text b p d st)
     (fun _ st' _ => Inv st' /\ Frozen st st') (fun _ => True).
Proof.
  intros HI. unfold submitThesis. unfold_monad. split_ifs; auto.
  - apply negb_true_iff in Heqb1. apply N.eqb_eq in Heqb5. rw_state. split.
    + eapply (Inv_submitThesis st _ id (N.pos sender) p); eauto;
        try (intros; rw_state; reflexivity).
      simpl. discriminate.
    + eapply (Frozen_confined st st _ id);
        [ apply Frozen_refl | exact Heqb1 | | rw_state; reflexivity
        | intros; apply not_ReviewExecuted_1; reflexivity ].
      eapply (agree_off_submitThesis st _ id (N.pos sender) p);
        intros; rw_state; reflexivity.
  - apply negb_true_iff in Heqb1. apply N.eqb_eq in Heqb5.
    assert (Hfresh := submitThesis_fresh st id (N.pos sender) HI Heqb5).
    assert (Hr : forall id', getReview st id' =
              if decide (id = id')
              then with_totalPledged (totalPledged (getReview st id) + 0) (getReview st id)
              else getReview st id').
    { intros. case_decide; subst; [rewrite with_totalPledged_same |]; reflexivity. }
    assert (Hs : forall id' a', getAgentShare st id' a' =
              if decide ((id, N.pos sender) = (id', a'))
              then {| pledgedAmount := 0; tokenShare := 0; claimed := false |}
              else getAgentShare st id' a').
    { intros. case_decide; simplify_eq; [apply (inv_nonmember st HI); auto | reflexivity]. }
    split.
    + eapply (Inv_submitThesis st _ id (N.pos sender) 0); eauto;
        try (intros; rw_state; reflexivity);
        try (intros; rw_state; auto).
    + eapply (Frozen_confined st st _ id);
        [ apply Frozen_refl | exact Heqb1 | | rw_state; reflexivity
        | intros; apply not_ReviewExecuted_1; reflexivity ].
      eapply (agree_off_submitThesis st _ id (N.pos sender) 0);
        intros; rw_state; auto; reflexivity.
Qed.

Lemma Inv_set_events v s : Inv s -> Inv (set_events v s).
Proof. apply Inv_core. repeat split. Qed.

Lemma Frozen_emit s0 s e :
  Frozen s0 s -> (forall id, is_ReviewExecuted id e = false) ->
  Frozen s0 (set_events (events s ++ [e]) s).
Proof.
  intros HF He. eapply Frozen_trans; [exact HF |].
  apply (Frozen_core _ _ [e]); [repeat split | reflexivity |].
  apply not_ReviewExecuted_1, He.
Qed.

Section ClaimStep.

Variables (st st' : State) (id S : N).
Hypothesis HI : Inv st.
Hypothesis Hexecuted : executed (getReview st id) = true.
Hypothesis Hpositive : 0 < tokenShare (getAgentShare st id S).
Hypothesis Hnext : nextReviewId st' = nextReviewId st.
Hypothesis Hreview : forall id', getReview st' id' = getReview st id'.
Hypothesis Hthesis : forall id' a', getThesis st' id' a' = getThesis st id' a'.
Hypothesis Hagents : forall id', getReviewAgents st' id' = getReviewAgents st id'.
Hypothesis Hevents : events st' = events st.
Hypothesis Hshare : forall id' a', getAgentShare st' id' a' =
  if decide ((id, S) = (id', a')) then with_claimed true (getAgentShare st id S)
  else getAgentShare st id' a'.

Lemma claim_pledged id' a' :
  pledgedAmount (getAgentShare st' id' a') = pledgedAmount (getAgentShare st id' a').
Proof. rewrite Hshare. case_decide; simplify_eq; reflexivity. Qed.

Lemma claim_tokenShare id' a' :
  tokenShare (getAgentShare st' id' a') = tokenShare (getAgentShare st id' a').
Proof. rewrite Hshare. case_decide; simplify_eq; reflexivity. Qed.

Lemma Inv_claim : Inv st'.
Proof.
  destruct HI as [H1 H2 H3 H4 H5 H6 H7 H8 H9].
  constructor.
  - intros id'. rewrite Hnext, Hreview. auto.
  - intros id'. rewrite Hreview, Hagents. auto.
  - intros id' a. rewrite Hagents, Hthesis. auto.
  - intros id' a. rewrite Hagents, Hshare. intros Hin.
    case_decide; simplify_eq; auto.
    rewrite (H4 _ _ Hin) in Hpositive. simpl in Hpositive. lia.
  - intros id'. rewrite Hagents. auto.
  - intros id'. rewrite Hagents, Hreview. rewrite <- H6.
    f_equal. apply pledges_ext. intros. apply claim_pledged.
  - intros id'. rewrite Hreview. intros He. destruct (H7 id' He) as [Hp Hs].
    split; auto. intros a. rewrite Hshare.
    case_decide; simplify_eq; [congruence | apply Hs].
  - intros id' a. rewrite claim_tokenShare. rewrite Hshare.
    case_decide; simplify_eq; auto.
  - intros id'. rewrite Hreview. intros He Hp a.
    rewrite claim_tokenShare, claim_pledged. auto.
Qed.

Lemma Frozen_claim : Frozen st st'.
Proof.
  constructor; auto.
  - intros id' a' _. rewrite claim_pledged, claim_tokenShare. repeat split.
    rewrite Hshare. case_decide; simplify_eq; auto.
  - exists []. rewrite app_nil_r. split; [exact Hevents | intros; constructor].
Qed.

End ClaimStep.

Lemma claimTokens_Inv sender id st :
  Inv st ->
  wp (claimTokens sender id st) (fun _ st' _ => Inv st' /\ Frozen st st') (fun _ => True).
Proof.
  intros HI. unfold claimTokens, call_transfer. unfold_monad. split_ifs; auto.
  intros st' r HR.
  apply N.ltb_lt in Heqb1.
  match type of HR with R ?s _ => set (s1 := s) in * end.
  assert (HI1 : Inv s1).
  { eapply (Inv_claim st s1 id (N.pos sender)); eauto;
      intros; unfold s1; rw_state; reflexivity. }
  assert (HF1 : Frozen st s1).
  { eapply (Frozen_claim st s1 id (N.pos sender)); eauto;
      intros; unfold s1; rw_state; reflexivity. }
  destruct (HR HI1) as [HI' HF']. clearbody s1.
  destruct r as [| | w | [|] | rc a]; simpl; auto.
  split.
  - apply Inv_set_events, HI'.
  - apply Frozen_emit; [| reflexivity]. eapply Frozen_trans; eauto.
Qed.

Section FreshReview.

Variables (st st' : State) (r : TokenReview).
Hypothesis HI : Inv st.
Hypothesis Hr : exists_ r = true /\ executed r = false /\
                totalPledged r = 0 /\ totalPurchased r = 0.
Hypothesis Hnext : nextReviewId st' = nextReviewId st + 1.
Hypothesis Hreview : forall id', getReview st' id' =
  if decide (nextReviewId st = id') then r else getReview st id'.
Hypothesis Hthesis : forall id' a', getThesis st' id' a' = getThesis st id' a'.
Hypothesis Hagents : forall id', getReviewAgents st' id' = getReviewAgents st id'.
Hypothesis Hshare : forall id' a', getAgentShare st' id' a' = getAgentShare st id' a'.

Lemma fresh_unborn :
  executed (getReview st (nextReviewId st)) = false /\
  getReviewAgents st (nextReviewId st) = [].
Proof. apply (inv_unborn st HI), (inv_fresh st HI). apply N.le_refl. Qed.

Lemma Inv_fresh : Inv st'.
Proof.
  destruct fresh_unborn as [Hx Ha].
  destruct Hr as (r1 & r2 & r3 & r4).
  destruct HI as [H1 H2 H3 H4 H5 H6 H7 H8 H9].
  constructor.
  - intros id'. rewrite Hnext, Hreview. intros Hle.
    rewrite decide_False by lia. apply H1. lia.
  - intros id'. rewrite Hreview, Hagents. case_decide; subst; auto; congruence.
  - intros id' a. rewrite Hagents, Hthesis. auto.
  - intros id' a. rewrite Hagents, Hshare. auto.
  - intros id'. rewrite Hagents. auto.
  - intros id'. rewrite Hagents, Hreview.
    rewrite (pledges_ext st st' id' id') by (intros; apply f_equal, Hshare).
    case_decide; subst; auto. rewrite Ha, r3. reflexivity.
  - intros id'. rewrite Hreview. case_decide; subst.
    + intros _. split; [exact r4 |]. intros a. rewrite Hshare.
      rewrite (H4 (nextReviewId st) a); [auto |].
      rewrite Ha. apply not_elem_of_nil.
    + intros He. destruct (H7 id' He) as [Hp Hs]. split; [exact Hp |].
      intros a. rewrite Hshare. apply Hs.
  - intros id' a. rewrite Hshare. auto.
  - intros id'. rewrite Hreview. case_decide; subst; [congruence |].
    intros He Hp a. rewrite Hshare. auto.
Qed.

Lemma agree_off_fresh : agree_off (nextReviewId st) st st'.
Proof.
  intros id' Hne. rewrite Hreview, Hagents. rewrite decide_False by congruence.
  repeat split; auto.
Qed.

End FreshReview.

Section SameEssentials.

Variables (st st' : State).
Hypothesis HI : Inv st.
Hypothesis Hnext : nextReviewId st' = nextReviewId st.
Hypothesis Hreview : forall id',
  exists_ (getReview st' id') = exists_ (getReview st id') /\
  executed (getReview st' id') = executed (getReview st id') /\
  totalPledged (getReview st' id') = totalPledged (getReview st id') /\
  totalPurchased (getReview st' id') = totalPurchased (getReview st id').
Hypothesis Hthesis : forall id' a', getThesis st' id' a' = getThesis st id' a'.
Hypothesis Hagents : forall id', getReviewAgents st' id' = getReviewAgents st id'.
Hypothesis Hshare : forall id' a', getAgentShare st' id' a' = getAgentShare st id' a'.

Lemma Inv_essentials : Inv st'.
Proof.
  destruct HI as [H1 H2 H3 H4 H5 H6 H7 H8 H9].
  constructor.
  - intros id'. destruct (Hreview id') as (-> & _). rewrite Hnext. auto.
  - intros id'. destruct (Hreview id') as (-> & -> & _). rewrite Hagents. auto.
  - intros id' a. rewrite Hagents, Hthesis. auto.
  - intros id' a. rewrite Hagents, Hshare. auto.
  - intros id'. rewrite Hagents. auto.
  - intros id'. destruct (Hreview id') as (_ & _ & -> & _). rewrite Hagents.
    rewrite (pledges_ext st st' id' id') by (intros; apply f_equal, Hshare). auto.
  - intros id'. destruct (Hreview id') as (_ & -> & _ & ->). intros He.
    destruct (H7 id' He) as [Hp Hs]. split; [exact Hp |].
    intros a. rewrite Hshare. apply Hs.
  - intros id' a. rewrite Hshare. auto.
  - intros id'. destruct (Hreview id') as (_ & -> & -> & ->).
    intros He Hp a. rewrite Hshare. auto.
Qed.

End SameEssentials.

Lemma Frozen_set_balance b s : Frozen s (set_balance b s).
Proof.
  apply (Frozen_core _ _ []); [repeat split | simpl; symmetry; apply app_nil_r |].
  intros; constructor.
Qed.

Lemma Frozen_executed_false s0 s id :
  Frozen s0 s -> executed (getReview s id) = false -> executed (getReview s0 id) = false.
Proof.
  intros HF He. destruct (executed (getReview s0 id)) eqn:E; [| reflexivity].
  rewrite (fr_review _ _ HF id E) in He. congruence.
Qed.

Lemma essentials_scheduleAddress s id a id' :
  let s' := setReview id (with_scheduleAddress a (getReview s id)) s in
  exists_ (getReview s' id') = exists_ (getReview s id') /\
  executed (getReview s' id') = executed (getReview s id') /\
  totalPledged (getReview s' id') = totalPledged (getReview s id') /\
  totalPurchased (getReview s' id') = totalPurchased (getReview s id').
Proof. simpl. rw_state. case_decide; subst; repeat split. Qed.

Lemma submitToken_Inv now sender value token st :
  Inv st ->
  wp (submitToken now sender value token st)
     (fun _ st' _ => Inv st' /\ Frozen st st') (fun _ => True).
Proof.
  intros HI. unfold submitToken, call_addressToMemeTokenMapping, call_scheduleCall.
  unfold_monad. split_ifs; auto.
  intros s1 r1 HR1.
  destruct HR1 as [HI1 HF1]; [eapply Inv_core; [| exact HI]; repeat split |].
  assert (HF01 : Frozen st s1).
  { eapply Frozen_trans; [apply Frozen_set_balance | exact HF1]. }
  clear HF1.
  destruct r1; simpl; auto. split_ifs; auto.
  intros s3 r3 HR3.
  match type of HR3 with R ?s _ => set (s2 := s) in * end.
  set (rid := nextReviewId s1) in *.
  destruct (fresh_unborn s1 HI1) as [Hx _]. fold rid in Hx.
  assert (Hx0 := Frozen_executed_false _ _ _ HF01 Hx).
  assert (HI2 : Inv s2).
  { eapply (Inv_fresh s1 s2); eauto; try (intros; unfold s2; rw_state; reflexivity).
    simpl. auto. }
  assert (HF2 : Frozen st s2).
  { eapply (Frozen_confined st s1 s2 rid []);
      [ exact HF01 | exact Hx0 | | unfold s2; rw_state; symmetry; apply app_nil_r
      | intros; constructor ].
    eapply (agree_off_fresh s1 s2); intros; unfold s2; rw_state; reflexivity. }
  destruct (HR3 HI2) as [HI3 HF3]. clearbody s2.
  assert (HF03 : Frozen st s3) by (eapply Frozen_trans; eauto).
  assert (forall a, Inv (set_events (events s3 ++ [TokenSubmitted rid token (N.pos sender)
                                                      value (now + REVIEW_WINDOW s1)])
                           (setReview rid (with_scheduleAddress a (getReview s3 rid)) s3)) /\
                    Frozen st (set_events (events s3 ++ [TokenSubmitted rid token (N.pos sender)
                                                      value (now + REVIEW_WINDOW s1)])
                           (setReview rid (with_scheduleAddress a (getReview s3 rid)) s3)))
    as Hfinal.
  { intros a. split.
    - apply Inv_set_events. eapply (Inv_essentials s3); eauto;
        try (intros; rw_state; reflexivity).
      intros id'. apply essentials_scheduleAddress.
    - eapply (Frozen_confined st s3 _ rid);
        [ exact HF03 | exact Hx0 | | rw_state; reflexivity
        | intros; apply not_ReviewExecuted_1; reflexivity ].
      intros id' Hne. rw_state. rewrite decide_False by congruence. repeat split. }
  destruct r3; simpl; split_ifs; auto.
Qed.

(** ** The fee distribution *)

Lemma payAgent_wp id fee agents s0 i s (Q : unit -> State -> list Interaction -> Prop) :
  (i < length agents)%nat ->
  executed (getReview s0 id) = true -> getReviewAgents s0 id = agents ->
  Inv s -> Frozen s0 s ->
  (forall s' tr, distributed id fee agents [i] s0 s' tr -> Q tt s' tr) ->
  wp (payAgent id fee (length agents) i s) Q (fun _ => False).
Proof.
  intros Hlt Hx Ha HI HF HQ.
  assert (Hxs : executed (getReview s id) = true).
  { rewrite (fr_review _ _ HF id Hx). exact Hx. }
  assert (Has : getReviewAgents s id = agents).
  { rewrite (fr_agents _ _ HF id Hx). exact Ha. }
  destruct (lookup_lt_is_Some_2 agents i Hlt) as [a Hi].
  unfold payAgent, agentAt, call_send. unfold_monad. simpl.
  rewrite Has, Hi. simpl.
  assert (Hcalls : fee_calls agents fee [i] =
            if 0 <? payout fee (N.of_nat (length agents)) i
            then [call_value a (payout fee (N.of_nat (length agents)) i)] else []).
  { unfold fee_calls. simpl. rewrite Hi. simpl. apply app_nil_r. }
  destruct (0 <? payout fee (N.of_nat (length agents)) i) eqn:Hp; simpl.
  - intros s' r HR. destruct (HR HI) as [HI' HF'].
    assert (HF0 : Frozen s0 s') by (eapply Frozen_trans; eauto).
    assert (Hdone : forall s'', Inv s'' -> Frozen s0 s'' ->
              Q tt s'' [{| seen := s;
                           called := call_value a (payout fee (N.of_nat (length agents)) i);
                           answered := r |}]).
    { intros s'' HI'' HF''. apply HQ.
      split; [exact HI'' |]. split; [exact HF'' |].
      split; [rewrite Hcalls; reflexivity |].
      constructor; [split; [exact HI | exact Hxs] | constructor]. }
    destruct r; simpl; apply Hdone; auto;
      try (apply Inv_set_events; auto); try (apply Frozen_emit; auto).
  - apply HQ. split; [| split; [| split]]; auto.
Qed.

Lemma fee_calls_cons agents fee i l :
  fee_calls agents fee (i :: l) = fee_calls agents fee [i] ++ fee_calls agents fee l.
Proof. unfold fee_calls. simpl. rewrite app_nil_r. reflexivity. Qed.

Lemma distribute_loop id fee agents s0 l :
  forall s,
  (forall i, i ∈ l -> (i < length agents)%nat) ->
  executed (getReview s0 id) = true -> getReviewAgents s0 id = agents ->
  Inv s -> Frozen s0 s ->
  wp (forM_ l (payAgent id fee (length agents)) s)
     (fun _ s' tr => distributed id fee agents l s0 s' tr) (fun _ => False).
Proof.
  induction l as [| i l IH]; intros s Hl Hx Ha HI HF.
  - simpl. unfold distributed. split; [| split; [| split]]; auto.
  - change (forM_ (i :: l) (payAgent id fee (length agents)) s)
      with (bindP (payAgent id fee (length agents) i s)
                  (fun _ => forM_ l (payAgent id fee (length agents)))).
    apply wp_bindP. apply (payAgent_wp id fee agents s0); auto.
    { apply Hl. left. }
    intros s' tr1 (H1 & H2 & H3 & H4).
    eapply wp_mono; [| | apply (IH s'); auto].
    + intros _ s1 tr2 (G1 & G2 & G3 & G4). split; [| split; [| split]]; auto.
      * rewrite map_app, H3, G3, <- fee_calls_cons. reflexivity.
      * apply Forall_app. auto.
    + auto.
    + intros j Hj. apply Hl. right. exact Hj.
Qed.

Lemma distribute_wp id s :
  Inv s -> executed (getReview s id) = true ->
  wp (_distributeSubmissionFee id s)
     (fun _ s' tr =>
        distributed id (submissionFee (getReview s id)) (getReviewAgents s id)
          (seq 0 (length (getReviewAgents s id))) s s' tr)
     (fun _ => False).
Proof.
  intros HI Hx. unfold _distributeSubmissionFee. unfold_monad. simpl.
  destruct (length (getReviewAgents s id) =? 0)%nat eqn:Hn.
  - apply Nat.eqb_eq in Hn. rewrite Hn. simpl.
    split; [| split; [| split]]; auto using Frozen_refl.
  - simpl. apply distribute_loop; auto using Frozen_refl.
    intros i Hi. apply elem_of_seq in Hi. lia.
Qed.

(** ** The allocation of token shares *)

Lemma allocated_nil id P T s : allocated id P T [] s s.
Proof.
  unfold allocated. repeat split; auto.
  - intros a Ha. apply not_elem_of_nil in Ha. contradiction.
  - exists []. rewrite app_nil_r. split; [reflexivity | intros; constructor].
Qed.

Lemma allocated_pledged id P T agents s s' id' a :
  allocated id P T agents s s' ->
  pledgedAmount (getAgentShare s' id' a) = pledgedAmount (getAgentShare s id' a).
Proof.
  intros (_ & _ & _ & _ & Hsame & Hset & _).
  destruct (decide (id' = id)) as [-> | Hne]; [| rewrite Hsame; auto].
  destruct (decide (a ∈ agents)) as [Hin | Hout]; [| rewrite Hsame; auto].
  destruct (N.eq_dec (pledgedAmount (getAgentShare s id a)) 0) as [Hz | Hnz];
    [rewrite Hsame; auto |].
  destruct (N.eq_dec T 0) as [Ht | Ht]; [rewrite Hsame; auto |].
  rewrite Hset by (auto; lia). reflexivity.
Qed.

Lemma with_tokenShare_idem v sh : with_tokenShare v (with_tokenShare v sh) = with_tokenShare v sh.
Proof. reflexivity. Qed.

Lemma allocated_snoc_skip id P T agents a s s' :
  (pledgedAmount (getAgentShare s id a) = 0 \/ T = 0) ->
  allocated id P T agents s s' -> allocated id P T (agents ++ [a]) s s'.
Proof.
  intros Hskip (H1 & H2 & H3 & H4 & Hsame & Hset & H7).
  unfold allocated. repeat split; auto.
  - intros id' a' [Hne | [Hout | Hz]]; apply Hsame; auto.
    right. left. intros Hin. apply Hout, elem_of_app. auto.
  - intros a' Hin Hp Ht. apply elem_of_app in Hin as [Hin | Hin]; [auto |].
    apply list_elem_of_singleton in Hin. subst. lia.
Qed.

Lemma allocated_snoc_set id P T agents a s s' :
  0 < pledgedAmount (getAgentShare s id a) -> 0 < T ->
  allocated id P T agents s s' ->
  allocated id P T (agents ++ [a]) s
    (set_events (events s' ++ [AgentShareUpdated id a
                                 (pledgedAmount (getAgentShare s id a) * T / P)])
       (setAgentShare id a
          (with_tokenShare (pledgedAmount (getAgentShare s id a) * T / P)
             (getAgentShare s' id a)) s')).
Proof.
  intros Hp Ht Hal.
  pose proof Hal as (H1 & H2 & H3 & H4 & Hsame & Hset & (new & He & Hnew)).
  unfold allocated. repeat split; try (intros; rw_state; auto; fail).
  - intros id' a' Hor. rw_state. case_decide; simplify_eq.
    + destruct Hor as [Hne | [Hout | Hz]]; [congruence | | lia].
      exfalso. apply Hout, elem_of_app. right. constructor.
    + apply Hsame. destruct Hor as [Hne | [Hout | Hz]]; auto.
      right. left. intros Hin. apply Hout, elem_of_app. auto.
  - intros a' Hin Hp' _. rw_state. case_decide; simplify_eq.
    + destruct (decide (a' ∈ agents)) as [Hin' | Hout].
      * rewrite Hset by auto. reflexivity.
      * rewrite Hsame by auto. reflexivity.
    + apply elem_of_app in Hin as [Hin | Hin]; [auto |].
      apply list_elem_of_singleton in Hin. congruence.
  - exists (new ++ [AgentShareUpdated id a (pledgedAmount (getAgentShare s id a) * T / P)]).
    split.
    + rw_state. rewrite He, app_assoc. reflexivity.
    + intros id'. apply Forall_app. split; [apply Hnew | repeat constructor].
Qed.

Lemma allocateShare_wp id P T agents s0 k s (Q : unit -> State -> list Interaction -> Prop) :
  (k < length agents)%nat -> getReviewAgents s0 id = agents ->
  allocated id P T (take k agents) s0 s ->
  (forall s', allocated id P T (take (S k) agents) s0 s' -> Q tt s' []) ->
  wp (allocateShare id P T k s) Q (fun _ => True).
Proof.
  intros Hlt Ha Hal HQ.
  pose proof Hal as (H1 & H2 & H3 & H4 & Hsame & Hset & H7).
  destruct (lookup_lt_is_Some_2 agents k Hlt) as [a Hk].
  rewrite (take_S_r _ _ _ Hk) in HQ.
  unfold allocateShare, agentAt. unfold_monad. simpl.
  rewrite H4, Ha, Hk. simpl.
  rewrite (allocated_pledged _ _ _ _ _ _ _ _ Hal).
  destruct (0 <? pledgedAmount (getAgentShare s0 id a)) eqn:Hp; simpl.
  - destruct (0 <? T) eqn:Ht; simpl.
    + apply N.ltb_lt in Hp, Ht.
      destruct (_ <=? UINT256_MAX); simpl; [| exact I].
      apply HQ. apply allocated_snoc_set; auto.
    + apply N.ltb_ge in Ht. apply HQ. apply allocated_snoc_skip; auto. right. lia.
  - apply N.ltb_ge in Hp. apply HQ. apply allocated_snoc_skip; auto. left. lia.
Qed.

Lemma allocate_loop id P T agents s0 m :
  forall k s,
  (k + m <= length agents)%nat -> getReviewAgents s0 id = agents ->
  allocated id P T (take k agents) s0 s ->
  wp (forM_ (seq k m) (allocateShare id P T) s)
     (fun _ s' tr => tr = [] /\ allocated id P T (take (k + m) agents) s0 s')
     (fun _ => True).
Proof.
  induction m as [| m IH]; intros k s Hle Ha Hal.
  - simpl. rewrite Nat.add_0_r. auto.
  - change (forM_ (seq k (S m)) (allocateShare id P T) s)
      with (bindP (allocateShare id P T k s)
                  (fun _ => forM_ (seq (S k) m) (allocateShare id P T))).
    apply wp_bindP. apply (allocateShare_wp id P T agents s0); auto; [lia |].
    intros s' Hal'. simpl.
    replace (k + S m)%nat with (S k + m)%nat by lia.
    apply IH; auto. lia.
Qed.

Lemma allocateShares_wp id P T s :
  wp (allocateShares id P T s)
     (fun _ s' tr => tr = [] /\ allocated id P T (getReviewAgents s id) s s')
     (fun _ => True).
Proof.
  unfold allocateShares. unfold_monad. simpl.
  eapply wp_mono; [| | apply (allocate_loop id P T (getReviewAgents s id) s)]; auto.
  - intros _ s' tr [-> Hal]. split; [reflexivity |].
    simpl in Hal. rewrite firstn_all in Hal. exact Hal.
  - simpl. apply allocated_nil.
Qed.

(** ** The steps of [executeReview] *)

Section ExecuteStep.

Variables (st : State) (id : N).
Hypothesis HI : Inv st.
Hypothesis Hexists : exists_ (getReview st id) = true.
Hypothesis Hopen : executed (getReview st id) = false.

Lemma Inv_execute : Inv (setReview id (with_executed true (getReview st id)) st).
Proof.
  set (st1 := setReview id (with_executed true (getReview st id)) st).
  destruct HI as [H1 H2 H3 H4 H5 H6 H7 H8 H9].
  destruct (H7 id Hopen) as [Hp0 Hs0].
  constructor; unfold st1.
  - intros id'. rw_state. case_decide; subst; simpl; auto.
  - intros id'. rw_state. case_decide; subst; simpl; auto. congruence.
  - intros id' a. rw_state. auto.
  - intros id' a. rw_state. auto.
  - intros id'. rw_state. auto.
  - intros id'. rw_state.
    rewrite (pledges_ext st _ id' id') by (intros; rw_state; reflexivity).
    case_decide; subst; simpl; auto.
  - intros id'. rw_state. case_decide; subst; simpl; [discriminate |].
    intros He. destruct (H7 id' He) as [Hp Hs]. split; [exact Hp |].
    intros a. rw_state. apply Hs.
  - intros id' a. rw_state. auto.
  - intros id'. rw_state. case_decide; subst; simpl.
    + intros _ Hp. rewrite Hp0 in Hp. lia.
    + intros He Hp a. rw_state. auto.
Qed.

Lemma Frozen_execute :
  Frozen st (setReview id (with_executed true (getReview st id)) st).
Proof.
  set (st1 := setReview id (with_executed true (getReview st id)) st).
  apply (Frozen_confined st st st1 id []); auto using Frozen_refl.
  - intros id' Hne. unfold st1. rw_state. rewrite decide_False by congruence.
    repeat split.
  - unfold st1. rw_state. symmetry. apply app_nil_r.
Qed.

End ExecuteStep.

Section AllocStep.

Variables (s3 s5 : State) (id P T : N).
Hypothesis HI : Inv s3.
Hypothesis Hx : executed (getReview s3 id) = true.
Hypothesis Hzero : forall a, tokenShare (getAgentShare s3 id a) = 0.
Hypothesis HP : P = totalPledged (getReview s3 id).
Hypothesis Hal :
  allocated id P T (getReviewAgents s3 id)
    (setReview id (with_totalPurchased T (getReview s3 id)) s3) s5.

Lemma alloc_review id' :
  getReview s5 id' =
  if decide (id = id') then with_totalPurchased T (getReview s3 id) else getReview s3 id'.
Proof. destruct Hal as (_ & H & _). rewrite H. rw_state. reflexivity. Qed.

Lemma alloc_agents id' : getReviewAgents s5 id' = getReviewAgents s3 id'.
Proof. destruct Hal as (_ & _ & _ & H & _). rewrite H. reflexivity. Qed.

Lemma alloc_thesis id' a : getThesis s5 id' a = getThesis s3 id' a.
Proof. destruct Hal as (_ & _ & H & _). rewrite H. reflexivity. Qed.

Lemma alloc_pledged id' a :
  pledgedAmount (getAgentShare s5 id' a) = pledgedAmount (getAgentShare s3 id' a).
Proof. rewrite (allocated_pledged _ _ _ _ _ _ _ _ Hal). reflexivity. Qed.

Lemma alloc_claimed id' a :
  claimed (getAgentShare s5 id' a) = claimed (getAgentShare s3 id' a).
Proof.
  destruct Hal as (_ & _ & _ & _ & Hsame & Hset & _).
  destruct (decide (id' = id)) as [-> | Hne]; [| rewrite Hsame; auto].
  destruct (decide (a ∈ getReviewAgents s3 id)) as [Hin | Hout]; [| rewrite Hsame; auto].
  destruct (N.eq_dec (pledgedAmount (getAgentShare s3 id a)) 0) as [Hz | Hnz];
    [rewrite Hsame; auto |].
  destruct (N.eq_dec T 0) as [Ht | Ht]; [rewrite Hsame; auto |].
  rewrite Hset by (auto; rw_state; lia). reflexivity.
Qed.

Lemma alloc_tokenShare_other id' a :
  id' <> id -> tokenShare (getAgentShare s5 id' a) = tokenShare (getAgentShare s3 id' a).
Proof.
  intros Hne. destruct Hal as (_ & _ & _ & _ & Hsame & _). rewrite Hsame; auto.
Qed.

Lemma alloc_tokenShare a :
  0 < T ->
  tokenShare (getAgentShare s5 id a) = pledgedAmount (getAgentShare s3 id a) * T / P.
Proof.
  intros Ht. destruct Hal as (_ & _ & _ & _ & Hsame & Hset & _).
  assert (Hskip : pledgedAmount (getAgentShare s3 id a) = 0 ->
                  tokenShare (getAgentShare s5 id a) =
                  pledgedAmount (getAgentShare s3 id a) * T / P).
  { intros Hz. rewrite Hsame by auto. rw_state. rewrite Hzero, Hz.
    rewrite N.mul_0_l. destruct P; reflexivity. }
  destruct (decide (a ∈ getReviewAgents s3 id)) as [Hin | Hout].
  - destruct (N.eq_dec (pledgedAmount (getAgentShare s3 id a)) 0) as [Hz | Hnz]; auto.
    rewrite Hset by (auto; rw_state; lia). reflexivity.
  - apply Hskip. rewrite (inv_nonmember s3 HI id a Hout). reflexivity.
Qed.

Lemma Inv_alloc : Inv s5.
Proof.
  pose proof Hal as (Hnext & _).
  pose proof HI as [H1 H2 H3 H4 H5 H6 H7 H8 H9].
  constructor.
  - intros id'. rewrite Hnext, alloc_review. rw_state.
    case_decide; try subst id'; simpl; auto.
  - intros id'. rewrite alloc_review, alloc_agents.
    case_decide; try subst id'; simpl; auto.
  - intros id' a. rewrite alloc_agents, alloc_thesis. auto.
  - intros id' a. rewrite alloc_agents. intros Hout.
    pose proof Hal as (_ & _ & _ & _ & Hsame & _).
    rewrite Hsame; [rw_state; auto |].
    destruct (decide (id' = id)) as [-> | Hne]; auto.
  - intros id'. rewrite alloc_agents. auto.
  - intros id'. rewrite alloc_agents, alloc_review.
    rewrite (pledges_ext s3 s5 id' id') by (intros; apply alloc_pledged).
    case_decide; try subst id'; simpl; auto.
  - intros id'. rewrite alloc_review. case_decide; try subst id'; simpl; [congruence |].
    intros He. destruct (H7 id' He) as [Hp Hs]. split; [exact Hp |].
    intros a. rewrite alloc_claimed, alloc_tokenShare_other by auto. apply Hs.
  - intros id' a. rewrite alloc_claimed. intros Hc.
    destruct (decide (id' = id)) as [-> | Hne].
    + apply H8 in Hc. rewrite Hzero in Hc. lia.
    + rewrite alloc_tokenShare_other by auto. auto.
  - intros id'. rewrite alloc_review. case_decide; try subst id'; simpl.
    + intros _ Ht a. rewrite alloc_tokenShare, alloc_pledged by auto.
      rewrite HP. reflexivity.
    + intros He Hp a. rewrite alloc_tokenShare_other, alloc_pledged by auto. auto.
Qed.

Lemma agree_off_alloc : agree_off id s3 s5.
Proof.
  intros id' Hne. rewrite alloc_review, alloc_agents.
  rewrite decide_False by congruence. repeat split; auto.
  - intros a. pose proof Hal as (_ & _ & _ & _ & Hsame & _). rewrite Hsame; auto.
  - intros a. apply alloc_thesis.
Qed.

End AllocStep.

Lemma Frozen_executed s0 s id :
  Frozen s0 s -> executed (getReview s0 id) = true -> executed (getReview s id) = true.
Proof. intros HF Hx. rewrite (fr_review _ _ HF id Hx). exact Hx. Qed.

Lemma executeReview_wp now id st :
  Inv st ->
  wp (executeReview now id st) (fun _ s' tr => executedReview id st s' tr) (fun _ => True).
Proof.
  intros HI. unfold executeReview, call_balanceOf, call_buyJob. unfold_monad. simpl.
  destruct (exists_ (getReview st id)) eqn:Hexists; simpl; auto.
  destruct (executed (getReview st id)) eqn:Hopen; simpl; auto.
  destruct (deadline (getReview st id) <=? now) eqn:Hdl; simpl; auto.
  set (st1 := setReview id (with_executed true (getReview st id)) st).
  assert (HI1 : Inv st1) by (apply Inv_execute; auto).
  assert (HF1 : Frozen st st1) by (apply Frozen_execute; auto).
  assert (Hr1 : getReview st1 id = with_executed true (getReview st id)).
  { unfold st1. rw_state. rewrite decide_True by reflexivity. reflexivity. }
  assert (Hx1 : executed (getReview st1 id) = true) by (rewrite Hr1; reflexivity).
  assert (Htp : totalPledged (getReview st1 id) = totalPledged (getReview st id))
    by (rewrite Hr1; reflexivity).
  assert (Hz1 : forall a, tokenShare (getAgentShare st1 id a) = 0).
  { intros a. unfold st1. rw_state. apply (inv_open st HI id Hopen). }
  destruct (totalPledged (getReview st1 id) =? 0) eqn:Hzero.
  - eapply wp_mono; [| | apply (distribute_wp id st1 HI1 Hx1)]; [| auto].
    intros [] s' tr Hd. pose proof Hd as (G1 & G2 & G3 & G4).
    split; [exact G1 |]. split; [eapply Frozen_trans; eauto |].
    split; [eapply Frozen_executed; eauto |]. split; [exact G4 |].
    intros _. revert Hd. rewrite Hr1. unfold st1. rw_state. simpl. auto.
  - apply N.eqb_neq in Hzero.
    intros s2 r2 HR2. destruct (HR2 HI1) as [HI2 HF2]. clear HR2.
    destruct r2; simpl; auto.
    intros s3 r3 HR3. destruct (HR3 HI2) as [HI3 HF3]. clear HR3.
    assert (HF13 : Frozen st1 s3) by (eapply Frozen_trans; eauto).
    assert (Hgo : forall s4 i1 i2 i3 balanceAfter,
              Frozen s3 s4 -> Inv s4 ->
              Forall (observed id) [i1; i2; i3] ->
              wp (bindP
                    ((if w <=? balanceAfter
                      then fun st5 : State => Return (balanceAfter - w) st5
                      else fun _ : State => Throw (Panic 17)) s4)
                    (fun (tokensReceived : N) (st5 : State) =>
                       bindP
                         (allocateShares id (totalPledged (getReview st1 id)) tokensReceived
                            (setReview id
                               (with_totalPurchased tokensReceived (getReview st5 id)) st5))
                         (fun (_ : ()) (st6 : State) =>
                            bindP (_distributeSubmissionFee id st6)
                              (fun (_ : ()) (st7 : State) =>
                                 Return ()
                                   (set_events
                                      (events st7 ++
                                       [ReviewExecuted id (totalPledged (getReview st1 id))
                                          tokensReceived]) st7)))))
                 (fun _ s' tr => executedReview id st s' (i1 :: i2 :: i3 :: tr))
                 (fun _ => True)).
    { intros s4 i1 i2 i3 balanceAfter HF4 HI4 Htr0.
      assert (HF14 : Frozen st1 s4) by (eapply Frozen_trans; eauto).
      destruct (w <=? balanceAfter); simpl; auto.
      set (T := balanceAfter - w).
      apply wp_bindP. eapply wp_mono; [| | apply allocateShares_wp]; [| auto].
      intros [] s6 tr [-> Hal]. rw_state.
      assert (Hx4 : executed (getReview s4 id) = true) by eauto using Frozen_executed.
      assert (Hz4 : forall a, tokenShare (getAgentShare s4 id a) = 0).
      { intros a. destruct (fr_shares _ _ HF14 id a Hx1) as (_ & -> & _). apply Hz1. }
      assert (HP : totalPledged (getReview st1 id) = totalPledged (getReview s4 id)).
      { rewrite (fr_review _ _ HF14 id Hx1). reflexivity. }
      assert (HI6 : Inv s6) by (eapply (Inv_alloc s4 s6 id); eauto).
      assert (Hr6 := alloc_review s4 s6 id _ T Hal id).
      rewrite decide_True in Hr6 by reflexivity.
      assert (Hx6 : executed (getReview s6 id) = true) by (rewrite Hr6; exact Hx4).
      assert (HF6 : Frozen st s6).
      { pose proof Hal as (_ & _ & _ & _ & _ & _ & (new & He & Hnew)).
        eapply (Frozen_confined st s4 s6 id new);
          [ eapply Frozen_trans; [exact HF1 | exact HF14] | exact Hopen
          | eapply (agree_off_alloc s4 s6 id); eauto
          | rewrite He; rw_state; reflexivity
          | intros; apply Hnew ]. }
      apply wp_bindP. eapply wp_mono; [| | apply (distribute_wp id s6 HI6 Hx6)]; [| auto].
      intros [] s7 tr (G1 & G2 & G3 & G4). simpl.
      split; [apply Inv_set_events; exact G1 |].
      split.
      { eapply (Frozen_confined st s7 _ id);
          [ eapply Frozen_trans; eauto | exact Hopen
          | intros id' Hne; rw_state; repeat split
          | rw_state; reflexivity
          | intros id' Hne; repeat constructor; simpl; apply N.eqb_neq; congruence ]. }
      split; [rw_state; eauto using Frozen_executed |].
      split.
      { apply (Forall_app _ [i1; i2; i3]). split; [exact Htr0 |].
        simpl. rewrite ?app_nil_r. exact G4. }
      intros Hz. rewrite Htp in Hzero. contradiction. }
    destruct r3; simpl; auto;
      intros s4 r4 HR4; destruct (HR4 HI3) as [HI4 HF4]; clear HR4;
      destruct r4; simpl; auto;
      (apply Hgo; [exact HF4 | exact HI4 |];
       constructor; [split; simpl; eauto using Frozen_executed |];
       constructor; [split; simpl; eauto using Frozen_executed |];
       constructor; [split; simpl; eauto using Frozen_executed | constructor]).
Qed.

(** ** Every call of the contract keeps [R] *)

Lemma wp_R {A} (p : Prog A) st :
  (Inv st -> wp p (fun _ st' _ => Inv st' /\ Frozen st st') (fun _ => True)) ->
  wp p (fun _ st' _ => R st st') (fun _ => True).
Proof. intros H. apply (wp_assume (Inv st) p _ H). Qed.

Lemma dispatch_R now c st :
  wp (dispatch now c st) (fun _ st' _ => R st st') (fun _ => True).
Proof.
  destruct c; simpl.
  - apply receive_R.
  - apply setMemeJobAddress_R.
  - apply registerDelegation_R.
  - apply depositForAgent_R.
  - apply revokeDelegation_R.
  - apply registerAgent_R.
  - apply wp_R. intros HI. unfold bind. apply wp_bindP.
    eapply wp_mono; [| | apply (submitToken_Inv _ _ _ _ _ HI)]; auto.
  - apply wp_R. apply submitThesis_Inv.
  - apply wp_R. intros HI.
    eapply wp_mono; [| | apply (executeReview_wp _ _ _ HI)]; auto.
    intros [] s' tr (H1 & H2 & _). auto.
  - apply updateReputation_R.
  - apply wp_R. apply claimTokens_Inv.
Qed.

Lemma run_sound {A} now (p : Prog A) o Q E : wp p Q E -> holds (run now p o) Q E.
Proof. intros H. apply (proj1 (run_sound_mut dispatch_R)). exact H. Qed.

Lemma run_callbacks_R now cbs st : R st (run_callbacks now cbs st).
Proof. apply (proj2 (run_sound_mut dispatch_R)). Qed.

Lemma transact_R now c o st : R st (transact now c o st).
Proof.
  unfold transact. pose proof (run_sound now (dispatch now c st) o _ _ (dispatch_R now c st)) as H.
  destruct (run now (dispatch now c st) o); simpl in H; [exact H | apply R_refl].
Qed.

Lemma later_R st st' : later st st' -> R st st'.
Proof.
  induction 1 as [| st' now c o _ IH]; [apply R_refl |].
  eapply R_trans; [exact IH | apply transact_R].
Qed.

Lemma Inv_constructor this sender value memeJob minFee window gasLimit :
  Inv (constructor this sender value memeJob minFee window gasLimit).
Proof.
  constructor; unfold getReview, getReviewAgents, getAgentShare, getThesis; simpl;
    intros; rewrite ?lookup_empty in *; simpl in *; auto; try discriminate.
  - exfalso. eapply not_elem_of_nil; eauto.
  - constructor.
Qed.

Lemma reachable_Inv st : reachable st -> Inv st.
Proof.
  induction 1 as [| st now c o _ IH].
  - apply Inv_constructor.
  - apply (transact_R now c o st IH).
Qed.

(** * The claims *)

(** ** Fee distribution: amounts (C4) *)

Lemma payout_before_last fee n i :
  (i < n - 1)%nat -> payout fee (N.of_nat n) i = fee / N.of_nat n.
Proof.
  intros Hi. unfold payout.
  destruct (N.eqb_spec (N.of_nat i) (N.of_nat n - 1)) as [He | _]; [lia | reflexivity].
Qed.

Lemma payout_last fee n :
  (1 <= n)%nat ->
  payout fee (N.of_nat n) (n - 1) =
  fee / N.of_nat n + (fee - fee / N.of_nat n * N.of_nat n).
Proof.
  intros Hn. unfold payout.
  destruct (N.eqb_spec (N.of_nat (n - 1)) (N.of_nat n - 1)) as [_ | Hne]; [reflexivity | lia].
Qed.

Lemma sum_payout_prefix fee n k :
  (k <= n - 1)%nat ->
  sumN (map (payout fee (N.of_nat n)) (seq 0 k)) = N.of_nat k * (fee / N.of_nat n).
Proof.
  induction k as [| k IH]; intros Hk; [reflexivity |].
  rewrite seq_S, map_app, sumN_app, IH by lia. simpl.
  rewrite payout_before_last by lia. lia.
Qed.

Lemma sum_payout fee n :
  (1 <= n)%nat -> sumN (map (payout fee (N.of_nat n)) (seq 0 n)) = fee.
Proof.
  intros Hn. replace n with (S (n - 1)) at 2 by lia.
  rewrite seq_S, map_app, sumN_app, sum_payout_prefix by lia. simpl.
  rewrite payout_last by lia.
  assert (Hle : fee / N.of_nat n * N.of_nat n <= fee).
  { rewrite N.mul_comm. apply N.Div0.mul_div_le. }
  replace (N.of_nat (n - 1)) with (N.of_nat n - 1) by lia.
  nia.
Qed.

Lemma sum_fee_calls agents fee l :
  (forall i, i ∈ l -> (i < length agents)%nat) ->
  sumN (map ext_value (fee_calls agents fee l)) =
  sumN (map (payout fee (N.of_nat (length agents))) l).
Proof.
  induction l as [| i l IH]; intros Hl; [reflexivity |].
  rewrite fee_calls_cons, map_app, sumN_app, IH
    by (intros j Hj; apply Hl; right; exact Hj).
  simpl. f_equal.
  destruct (lookup_lt_is_Some_2 agents i) as [a Hi]; [apply Hl; left |].
  unfold fee_calls. simpl. rewrite Hi. simpl.
  destruct (N.ltb_spec 0 (payout fee (N.of_nat (length agents)) i)); simpl; lia.
Qed.

Lemma holds_Ok {A} (o : Outcome A) Q :
  holds o Q (fun _ => False) -> exists a st tr, o = Ok a st tr /\ Q a st tr.
Proof. destruct o as [a st tr | e]; simpl; [eauto | contradiction]. Qed.

(** C4: with [n >= 1] submitters, the loop pays [floor(fee / n)] at every
    index but the last, that amount plus the remainder
    [fee - floor(fee / n) * n] at the last index, and the payouts sum to
    the fee exactly; and every run of the distribution for an executed
    review with [n] agents and that fee returns, having attempted one
    transfer of its payout to every agent whose payout is not zero,
    transfers whose values sum to the fee. *)
Theorem fee_distribution_amounts (fee : N) (n : nat) :
  (1 <= n)%nat ->
  (forall i, (i < n - 1)%nat -> payout fee (N.of_nat n) i = fee / N.of_nat n) /\
  payout fee (N.of_nat n) (n - 1) =
    fee / N.of_nat n + (fee - fee / N.of_nat n * N.of_nat n) /\
  sumN (map (payout fee (N.of_nat n)) (seq 0 n)) = fee /\
  (forall now id st o,
     Inv st -> executed (getReview st id) = true ->
     length (getReviewAgents st id) = n -> submissionFee (getReview st id) = fee ->
     exists st' tr,
       run now (_distributeSubmissionFee id st) o = Ok tt st' tr /\
       map called tr = fee_calls (getReviewAgents st id) fee (seq 0 n) /\
       sumN (map ext_value (map called tr)) = fee).
Proof.
  intros Hn. split; [intros i Hi; apply payout_before_last, Hi |].
  split; [apply payout_last, Hn |].
  split; [apply sum_payout, Hn |].
  intros now id st o HI Hx Hlen Hfee.
  pose proof (run_sound now _ o _ _ (distribute_wp id st HI Hx)) as H.
  apply holds_Ok in H as ([] & st' & tr & Hrun & (_ & _ & Hcalls & _)).
  rewrite Hlen, Hfee in Hcalls.
  exists st', tr. split; [exact Hrun |]. split; [exact Hcalls |].
  rewrite Hcalls, <- Hlen, sum_fee_calls.
  - rewrite Hlen. apply sum_payout, Hn.
  - intros i Hi. apply elem_of_seq in Hi. lia.
Qed.

Lemma fee_distribution_amounts_witness :
  (1 <= 3)%nat /\
  payout 100 3 0 = 33 /\ payout 100 3 1 = 33 /\ payout 100 3 2 = 34 /\
  sumN (map (payout 100 (N.of_nat 3)) (seq 0 3)) = 100.
Proof.
  split; [lia |].
  split; [reflexivity |]. split; [reflexivity |]. split; [reflexivity |].
  apply (fee_distribution_amounts 100 3). lia.
Defined.

(** ** The scenarios are reachable *)

Ltac reach := repeat apply reachable_transact; apply reachable_deploy.

Lemma reachable_funded : reachable Scenario.funded.
Proof. reach. Qed.

Lemma reachable_pledgedA : reachable Scenario.pledgedA.
Proof. reach. Qed.

Lemma reachable_executedA : reachable Scenario.executedA.
Proof. reach. Qed.

Lemma reachable_bearishC : reachable Scenario.bearishC.
Proof. reach. Qed.

(** ** Fee distribution: failures do not abort (C5) *)


Lemma fee_calls_elem agents fee i a :
  agents !! i = Some a -> 0 < payout fee (N.of_nat (length agents)) i ->
  call_value a (payout fee (N.of_nat (length agents)) i)
    ∈ fee_calls agents fee (seq 0 (length agents)).
Proof.
  intros Hi Hp. unfold fee_calls. apply list_elem_of_In, in_flat_map.
  exists i. split.
  - apply in_seq. apply lookup_lt_Some in Hi. lia.
  - rewrite Hi. simpl. apply N.ltb_lt in Hp. rewrite Hp. left. reflexivity.
Qed.

(** C5: the distribution for an executed review never aborts, whatever
    the recipients do (refuse the payment, or call back into the
    contract): against every behaviour of the other accounts it returns,
    and the transfers it attempted are, in order, one to every agent of
    the list whose payout is not zero, also after a transfer that failed. *)
Theorem distribution_survives_failures now id st o :
  Inv st -> executed (getReview st id) = true ->
  let agents := getReviewAgents st id in
  let fee := submissionFee (getReview st id) in
  exists st' tr,
    run now (_distributeSubmissionFee id st) o = Ok tt st' tr /\
    map called tr = fee_calls agents fee (seq 0 (length agents)) /\
    (forall i a, agents !! i = Some a -> 0 < payout fee (N.of_nat (length agents)) i ->
       call_value a (payout fee (N.of_nat (length agents)) i) ∈ map called tr).
Proof.
  intros HI Hx agents fee.
  pose proof (run_sound now _ o _ _ (distribute_wp id st HI Hx)) as H.
  apply holds_Ok in H as ([] & st' & tr & Hrun & (_ & _ & Hcalls & _)).
  exists st', tr. split; [exact Hrun |]. split; [exact Hcalls |].
  intros i a Hi Hp. rewrite Hcalls. apply fee_calls_elem; assumption.
Qed.

Lemma distribution_survives_failures_witness :
  exists st' tr,
    run 600 (_distributeSubmissionFee 0 Scenario.executedA) Scenario.first_refuses
      = Ok tt st' tr /\
    map called tr = [call_value 20 50; call_value 21 50] /\
    map answered tr = [XRevert; XUnit].
Proof.
  destruct (distribution_survives_failures 600 0 Scenario.executedA Scenario.first_refuses)
    as (st' & tr & Hrun & Hcalls & _).
  - apply reachable_Inv, reachable_executedA.
  - vm_compute. reflexivity.
  - exists st', tr. split; [exact Hrun |].
    revert Hrun Hcalls. vm_compute. intros Hrun Hcalls. split; [exact Hcalls |].
    injection Hrun as _ <-. reflexivity.
Defined.

(** ** Execution without pledges (C8) *)

Lemma executeReview_zero_wp now id st :
  Inv st -> exists_ (getReview st id) = true -> executed (getReview st id) = false ->
  deadline (getReview st id) <= now -> totalPledged (getReview st id) = 0 ->
  wp (executeReview now id st)
     (fun _ s' tr =>
        distributed id (submissionFee (getReview st id)) (getReviewAgents st id)
          (seq 0 (length (getReviewAgents st id)))
          (setReview id (with_executed true (getReview st id)) st) s' tr)
     (fun _ => False).
Proof.
  intros HI Hexists Hopen Hdl Hzero.
  unfold executeReview. unfold_monad. simpl.
  rewrite Hexists. simpl. rewrite Hopen. simpl.
  apply N.leb_le in Hdl. rewrite Hdl. simpl.
  set (st1 := setReview id (with_executed true (getReview st id)) st).
  assert (Hr1 : getReview st1 id = with_executed true (getReview st id)).
  { unfold st1. rw_state. rewrite decide_True by reflexivity. reflexivity. }
  rewrite Hr1. simpl. rewrite Hzero. simpl.
  eapply wp_mono; [| | apply (distribute_wp id st1)]; auto.
  - intros [] s' tr. rewrite Hr1. unfold st1 at 2. rw_state. simpl. auto.
  - apply Inv_execute; auto.
  - rewrite Hr1. reflexivity.
Qed.

Lemma executeReview_no_agents now id st :
  exists_ (getReview st id) = true -> executed (getReview st id) = false ->
  deadline (getReview st id) <= now -> totalPledged (getReview st id) = 0 ->
  getReviewAgents st id = [] ->
  executeReview now id st =
  Return tt (setReview id (with_executed true (getReview st id)) st).
Proof.
  intros Hexists Hopen Hdl Hzero Hnil.
  unfold executeReview, _distributeSubmissionFee. unfold_monad. simpl.
  rewrite Hexists. simpl. rewrite Hopen. simpl.
  apply N.leb_le in Hdl. rewrite Hdl. simpl.
  rw_state. rewrite decide_True by reflexivity. simpl. rewrite Hzero. simpl.
  rw_state. rewrite Hnil. reflexivity.
Qed.

Lemma run_Return {A} now (a : A) st o : run now (Return a st) o = Ok a st [].
Proof. destruct o; reflexivity. Qed.

Lemma fee_calls_are_sends agents fee l :
  Forall (fun c => exists a v, c = call_value a v) (fee_calls agents fee l).
Proof.
  unfold fee_calls. apply Forall_forall. intros c Hc.
  apply list_elem_of_In, in_flat_map in Hc as (i & _ & Hc).
  destruct (agents !! i) as [a |]; [| contradiction].
  simpl in Hc. destruct (0 <? _); [| contradiction].
  destruct Hc as [<- | []]. eauto.
Qed.

(** C8: executing a review on which nothing was pledged never aborts; it
    marks the review executed, makes no call to the venue or the token
    (its only external calls are the fee transfers to the submitters,
    one for every submitter with a payout), and emits no review-executed
    event for the review; with no submitter at all it makes no external
    call and only sets the flag. *)
Theorem execute_without_pledges now id st o :
  Inv st -> exists_ (getReview st id) = true -> executed (getReview st id) = false ->
  deadline (getReview st id) <= now -> totalPledged (getReview st id) = 0 ->
  let agents := getReviewAgents st id in
  let fee := submissionFee (getReview st id) in
  exists st' tr,
    run now (executeReview now id st) o = Ok tt st' tr /\
    executed (getReview st' id) = true /\
    map called tr = fee_calls agents fee (seq 0 (length agents)) /\
    Forall (fun c => exists a v, c = call_value a v) (map called tr) /\
    (exists new, events st' = events st ++ new /\
                 Forall (fun e => is_ReviewExecuted id e = false) new) /\
    (agents = [] ->
       tr = [] /\ st' = setReview id (with_executed true (getReview st id)) st).
Proof.
  intros HI Hexists Hopen Hdl Hzero agents fee.
  pose proof (run_sound now _ o _ _
                (executeReview_zero_wp now id st HI Hexists Hopen Hdl Hzero)) as H.
  apply holds_Ok in H as ([] & st' & tr & Hrun & (HI' & HF' & Hcalls & Hobs)).
  set (st1 := setReview id (with_executed true (getReview st id)) st) in *.
  assert (Hx1 : executed (getReview st1 id) = true).
  { unfold st1. rw_state. rewrite decide_True by reflexivity. reflexivity. }
  exists st', tr. split; [exact Hrun |].
  split; [eapply Frozen_executed; eauto |].
  split; [exact Hcalls |].
  split; [rewrite Hcalls; apply fee_calls_are_sends |].
  split.
  - destruct (fr_events _ _ HF') as (new & He & Hnew).
    exists new. split; [exact He | apply Hnew, Hx1].
  - intros Hnil. rewrite (executeReview_no_agents now id st) in Hrun by assumption.
    rewrite run_Return in Hrun. injection Hrun as <- <-. split; reflexivity.
Qed.

Lemma execute_without_pledges_witness :
  exists st' tr,
    run 600 (executeReview 600 0 Scenario.bearishC) Scenario.first_refuses = Ok tt st' tr /\
    executed (getReview st' 0) = true /\
    map called tr = [call_value 20 50; call_value 22 50] /\
    map answered tr = [XRevert; XUnit] /\
    events st' = events Scenario.bearishC ++ [FeeDistributed 0 22 50].
Proof.
  destruct (execute_without_pledges 600 0 Scenario.bearishC Scenario.first_refuses)
    as (st' & tr & Hrun & Hx & Hcalls & _).
  - apply reachable_Inv, reachable_bearishC.
  - vm_compute. reflexivity.
  - vm_compute. reflexivity.
  - vm_compute. discriminate.
  - vm_compute. reflexivity.
  - exists st', tr. split; [exact Hrun |]. split; [exact Hx |].
    revert Hrun Hcalls. vm_compute. intros Hrun Hcalls. split; [exact Hcalls |].
    injection Hrun as <- <-. split; reflexivity.
Defined.

(** ** Execution happens at most once (C1) *)

Lemma run_Throw {A} now (e : Error) o : run now (@Throw A e) o = Fail e.
Proof. destruct o; reflexivity. Qed.

Lemma Inv_executed_exists st id :
  Inv st -> executed (getReview st id) = true -> exists_ (getReview st id) = true.
Proof.
  intros HI Hx. destruct (exists_ (getReview st id)) eqn:He; [reflexivity |].
  destruct (inv_unborn st HI id He) as [Hx' _]. congruence.
Qed.

Lemma executeReview_again now id st :
  Inv st -> executed (getReview st id) = true ->
  executeReview now id st = Throw AlreadyExecuted.
Proof.
  intros HI Hx. unfold executeReview. unfold_monad. simpl.
  rewrite (Inv_executed_exists st id HI Hx). simpl. rewrite Hx. reflexivity.
Qed.

Lemma R_executed s s' id :
  R s s' -> Inv s -> executed (getReview s id) = true ->
  Inv s' /\ executed (getReview s' id) = true.
Proof.
  intros HR HI Hx. destruct (HR HI) as [HI' HF].
  split; [exact HI' | eapply Frozen_executed; eauto].
Qed.

(** C1: a run of [executeReview] that succeeds started with the flag
    unset, leaves it set, and had set it in every state in which it made
    an external call.  From a state in which the flag is set, every call
    of [executeReview] for that review fails with AlreadyExecuted, and no
    sequence of transactions and no chain of callbacks (whatever value
    the pending call carried away) unsets the flag; so a second call,
    also one made from inside an external call of the first, fails. *)
Theorem execute_at_most_once id st :
  Inv st ->
  (forall now o st' tr,
     run now (executeReview now id st) o = Ok tt st' tr ->
     executed (getReview st id) = false /\ Inv st' /\
     executed (getReview st' id) = true /\ Forall (observed id) tr) /\
  (executed (getReview st id) = true ->
     (forall now sender o,
        run now (dispatch now (ExecuteReview sender id) st) o = Fail AlreadyExecuted) /\
     (forall st', later st st' -> Inv st' /\ executed (getReview st' id) = true) /\
     (forall now cbs b,
        Inv (run_callbacks now cbs (set_balance b st)) /\
        executed (getReview (run_callbacks now cbs (set_balance b st)) id) = true)).
Proof.
  intros HI. split.
  - intros now o st' tr Hrun.
    pose proof (run_sound now _ o _ _ (executeReview_wp now id st HI)) as H.
    rewrite Hrun in H. destruct H as (HI' & _ & Hx' & Hobs & _).
    split; [| auto].
    destruct (executed (getReview st id)) eqn:Hx; [| reflexivity].
    rewrite (executeReview_again now id st HI Hx), run_Throw in Hrun. discriminate.
  - intros Hx. split; [| split].
    + intros now sender o. simpl.
      rewrite (executeReview_again now id st HI Hx). apply run_Throw.
    + intros st' Hlater. apply (R_executed st); auto. apply later_R, Hlater.
    + intros now cbs b. apply (R_executed st); auto.
      eapply R_trans; [apply R_set_balance | apply run_callbacks_R].
Qed.

Lemma execute_at_most_once_witness :
  Inv Scenario.executedA /\ executed (getReview Scenario.executedA 0) = true /\
  run 700 (dispatch 700 (ExecuteReview 99 0) Scenario.executedA) Scenario.purchase_ok
    = Fail AlreadyExecuted.
Proof.
  assert (HI : Inv Scenario.executedA) by apply reachable_Inv, reachable_executedA.
  assert (Hx : executed (getReview Scenario.executedA 0) = true) by (vm_compute; reflexivity).
  split; [exact HI |]. split; [exact Hx |].
  apply (proj2 (execute_at_most_once 0 Scenario.executedA HI) Hx).
Defined.

(** ** Claims (C6) *)


Lemma claimTokens_shape sender id st :
  exists_ (getReview st id) = true -> executed (getReview st id) = true ->
  0 < tokenShare (getAgentShare st id (Npos sender)) ->
  claimed (getAgentShare st id (Npos sender)) = false ->
  exists k,
    claimTokens sender id st =
    Extern (setAgentShare id (Npos sender)
              (with_claimed true (getAgentShare st id (Npos sender))) st)
           (transfer (tokenAddress (getReview st id)) (Npos sender)
              (tokenShare (getAgentShare st id (Npos sender)))) k /\
    forall st' r,
      k st' r =
      match r with
      | XBool true =>
          Return tt (set_events
                       (events st' ++
                        [TokensClaimed id (Npos sender)
                           (tokenShare (getAgentShare st' id (Npos sender)))]) st')
      | XBool false => Throw TransferFailed
      | _ => Throw CallFailed
      end.
Proof.
  intros Hexists Hx Hp Hc.
  unfold claimTokens, call_transfer. unfold_monad. simpl.
  rewrite Hexists. simpl. rewrite Hx. simpl.
  apply N.ltb_lt in Hp. rewrite Hp. simpl. rewrite Hc. simpl.
  rw_state. rewrite decide_True by reflexivity. simpl.
  eexists. split; [reflexivity |].
  intros st' r. destruct r as [| | w | [|] | rc a]; reflexivity.
Qed.

Lemma claimTokens_wp sender id st :
  Inv st ->
  wp (claimTokens sender id st) (fun _ s' tr => claimedTokens sender id st s' tr)
     (fun _ => True).
Proof.
  intros HI. unfold claimTokens, call_transfer. unfold_monad. split_ifs; auto.
  intros st' r HR.
  apply N.ltb_lt in Heqb1.
  match type of HR with R ?s _ => set (s1 := s) in * end.
  assert (HI1 : Inv s1).
  { eapply (Inv_claim st s1 id (N.pos sender)); eauto;
      intros; unfold s1; rw_state; reflexivity. }
  assert (HF1 : Frozen st s1).
  { eapply (Frozen_claim st s1 id (N.pos sender)); eauto;
      intros; unfold s1; rw_state; reflexivity. }
  assert (Hc1 : claimed (getAgentShare s1 id (N.pos sender)) = true).
  { unfold s1. rw_state. rewrite decide_True by reflexivity. reflexivity. }
  assert (Hx1 : executed (getReview s1 id) = true) by (unfold s1; rw_state; exact Heqb0).
  assert (Hcall : transfer (tokenAddress (getReview s1 id)) (N.pos sender)
                    (tokenShare (getAgentShare s1 id (N.pos sender))) =
                  transfer (tokenAddress (getReview st id)) (N.pos sender)
                    (tokenShare (getAgentShare st id (N.pos sender)))).
  { unfold s1. rw_state. rewrite decide_True by reflexivity. reflexivity. }
  destruct (HR HI1) as [HI' HF'].
  destruct r as [| | w | [|] | rc a]; simpl; auto.
  unfold claimedTokens. rw_state.
  split; [apply Inv_set_events, HI' |].
  split; [apply Frozen_emit; [| reflexivity]; eapply Frozen_trans; eauto |].
  split.
  - destruct (fr_shares _ _ HF' id (N.pos sender) Hx1) as (_ & _ & Hc). auto.
  - rewrite Hcall. reflexivity.
Qed.

Lemma claimTokens_again sender id st :
  Inv st -> executed (getReview st id) = true ->
  claimed (getAgentShare st id (Npos sender)) = true ->
  claimTokens sender id st = Throw AlreadyClaimed.
Proof.
  intros HI Hx Hc. unfold claimTokens. unfold_monad. simpl.
  rewrite (Inv_executed_exists st id HI Hx). simpl. rewrite Hx. simpl.
  pose proof (inv_claimed st HI id _ Hc) as Hp. apply N.ltb_lt in Hp.
  rewrite Hp. simpl. rewrite Hc. reflexivity.
Qed.

Lemma R_claimed s s' id a :
  R s s' -> Inv s -> executed (getReview s id) = true ->
  claimed (getAgentShare s id a) = true ->
  Inv s' /\ executed (getReview s' id) = true /\ claimed (getAgentShare s' id a) = true.
Proof.
  intros HR HI Hx Hc. destruct (HR HI) as [HI' HF].
  split; [exact HI' |]. split; [eapply Frozen_executed; eauto |].
  destruct (fr_shares _ _ HF id a Hx) as (_ & _ & H). auto.
Qed.

Lemma Inv_claimed_executed st id a :
  Inv st -> claimed (getAgentShare st id a) = true -> executed (getReview st id) = true.
Proof.
  intros HI Hc. destruct (executed (getReview st id)) eqn:Hx; [reflexivity |].
  destruct (inv_open st HI id Hx) as [_ H]. destruct (H a) as [_ Hc']. congruence.
Qed.

Lemma MockERC20_transfer_credit sender to amount ledger ledger' :
  to <> sender ->
  MockERC20.transfer sender to amount ledger = Some ledger' ->
  MockERC20.balanceOf ledger' to = MockERC20.balanceOf ledger to + amount /\
  MockERC20.balanceOf ledger' sender + amount = MockERC20.balanceOf ledger sender.
Proof.
  unfold MockERC20.transfer, MockERC20.balanceOf. intros Hne.
  destruct (N.leb_spec amount (default 0 (ledger !! sender))) as [Hle |]; [| discriminate].
  destruct (_ <=? UINT256_MAX); [| discriminate].
  intros [= <-]. rewrite lookup_insert_eq. simpl.
  rewrite (lookup_insert_ne _ sender to) by congruence.
  rewrite (lookup_insert_ne _ to sender) by congruence.
  rewrite lookup_insert_eq. simpl. split; [reflexivity | lia].
Qed.

Lemma MockERC20_transfer_frame sender to amount ledger ledger' a :
  a <> sender -> a <> to ->
  MockERC20.transfer sender to amount ledger = Some ledger' ->
  MockERC20.balanceOf ledger' a = MockERC20.balanceOf ledger a.
Proof.
  unfold MockERC20.transfer, MockERC20.balanceOf. intros Hs Ht.
  destruct (amount <=? default 0 (ledger !! sender)); [| discriminate].
  destruct (_ <=? UINT256_MAX); [| discriminate].
  intros [= <-]. rewrite !lookup_insert_ne by congruence. reflexivity.
Qed.

Lemma MockERC20_transfer_accepts sender to amount ledger :
  to <> sender ->
  amount <= MockERC20.balanceOf ledger sender ->
  MockERC20.balanceOf ledger to + amount <= UINT256_MAX ->
  exists ledger', MockERC20.transfer sender to amount ledger = Some ledger'.
Proof.
  intros Hne Hle Hmax. unfold MockERC20.transfer.
  destruct (N.leb_spec amount (MockERC20.balanceOf ledger sender)); [| lia].
  assert (Hto : MockERC20.balanceOf
                  (<[sender := MockERC20.balanceOf ledger sender - amount]> ledger) to
                = MockERC20.balanceOf ledger to).
  { unfold MockERC20.balanceOf. rewrite lookup_insert_ne by congruence. reflexivity. }
  rewrite Hto.
  destruct (N.leb_spec (MockERC20.balanceOf ledger to + amount) UINT256_MAX); [| lia].
  eauto.
Qed.

Lemma MockERC20_transfer_refuses sender to amount ledger :
  MockERC20.balanceOf ledger sender < amount ->
  MockERC20.transfer sender to amount ledger = None.
Proof.
  intros Hlt. unfold MockERC20.transfer.
  destruct (N.leb_spec amount (MockERC20.balanceOf ledger sender)); [lia | reflexivity].
Qed.

Lemma run_claim_ok now sender id st cbs rest :
  exists_ (getReview st id) = true -> executed (getReview st id) = true ->
  0 < tokenShare (getAgentShare st id (Npos sender)) ->
  claimed (getAgentShare st id (Npos sender)) = false ->
  exists st',
    run now (claimTokens sender id st) (OCons cbs (XBool true) rest) =
    Ok tt st'
      [ {| seen := setAgentShare id (Npos sender)
                     (with_claimed true (getAgentShare st id (Npos sender))) st;
           called := transfer (tokenAddress (getReview st id)) (Npos sender)
                       (tokenShare (getAgentShare st id (Npos sender)));
           answered := XBool true |} ].
Proof.
  intros H1 H2 H3 H4.
  destruct (claimTokens_shape sender id st H1 H2 H3 H4) as (k & Hk & Hcont).
  rewrite Hk. simpl.
  destruct (balance _ <? 0) eqn:Hb; [apply N.ltb_lt in Hb; lia |].
  rewrite Hcont. rewrite run_Return. simpl. eexists. reflexivity.
Qed.

(** The one interaction of a successful claim, served by the mock token. *)
Lemma token_serves_claim token s1 caller amount ledger :
  token_serves token
    [ {| seen := s1; called := transfer token caller amount; answered := XBool true |} ]
    ledger
  = MockERC20.transfer (self s1) caller amount ledger.
Proof.
  simpl. unfold token_step. simpl. rewrite N.eqb_refl.
  destruct (MockERC20.transfer (self s1) caller amount ledger); reflexivity.
Qed.

(** C6: on an existing review, [claimTokens] fails with NotExecuted
    before execution, with NoShare when the review is executed and the
    caller's token share is zero, and with AlreadyClaimed when the
    caller's share is marked claimed.  Otherwise it marks the share
    claimed and then calls [transfer(caller, tokenShare)] on the review's
    token; a run that succeeds made exactly that one external call,
    answered [true], leaves the share claimed, and from then on (in the
    state of the transfer, after any callbacks, and in every later
    state) a claim by the same caller on the same review fails with
    AlreadyClaimed, so no second transfer is ever made.  With the
    repository's [MockERC20] as the token, holding the balances
    [ledger]: in every successful run whose interactions are what that
    token does, the caller's token balance grows by exactly [tokenShare],
    the contract's shrinks by it and no other balance changes; such a
    run exists whenever the contract's token balance covers the share;
    and when it does not, no successful run is what the token does. *)
Theorem claim_once sender id st :
  Inv st -> exists_ (getReview st id) = true ->
  let caller := Npos sender in
  let share := getAgentShare st id caller in
  let token := tokenAddress (getReview st id) in
  (executed (getReview st id) = false -> claimTokens sender id st = Throw NotExecuted) /\
  (executed (getReview st id) = true -> tokenShare share = 0 ->
   claimTokens sender id st = Throw NoShare) /\
  (claimed share = true -> claimTokens sender id st = Throw AlreadyClaimed) /\
  (executed (getReview st id) = true -> 0 < tokenShare share -> claimed share = false ->
   let st1 := setAgentShare id caller (with_claimed true share) st in
   (exists k, claimTokens sender id st = Extern st1 (transfer token caller (tokenShare share)) k) /\
   claimed (getAgentShare st1 id caller) = true /\
   (forall now cbs b,
      claimTokens sender id (run_callbacks now cbs (set_balance b st1))
      = Throw AlreadyClaimed) /\
   (forall now o st' tr,
      run now (claimTokens sender id st) o = Ok tt st' tr ->
      tr = [ {| seen := st1; called := transfer token caller (tokenShare share);
                answered := XBool true |} ] /\
      claimed (getAgentShare st' id caller) = true /\
      tokenShare (getAgentShare st' id caller) = tokenShare share /\
      (forall st'', later st' st'' -> claimTokens sender id st'' = Throw AlreadyClaimed)) /\
   (forall now o st' tr ledger ledger',
      run now (claimTokens sender id st) o = Ok tt st' tr ->
      token_serves token tr ledger = Some ledger' ->
      caller <> self st ->
      MockERC20.balanceOf ledger' caller =
        MockERC20.balanceOf ledger caller + tokenShare share /\
      MockERC20.balanceOf ledger' (self st) + tokenShare share =
        MockERC20.balanceOf ledger (self st) /\
      (forall a, a <> caller -> a <> self st ->
                 MockERC20.balanceOf ledger' a = MockERC20.balanceOf ledger a)) /\
   (forall now cbs rest ledger,
      caller <> self st ->
      tokenShare share <= MockERC20.balanceOf ledger (self st) ->
      MockERC20.balanceOf ledger caller + tokenShare share <= UINT256_MAX ->
      exists st' tr ledger',
        run now (claimTokens sender id st) (OCons cbs (XBool true) rest) = Ok tt st' tr /\
        token_serves token tr ledger = Some ledger' /\
        MockERC20.balanceOf ledger' caller =
          MockERC20.balanceOf ledger caller + tokenShare share) /\
   (forall now o st' tr ledger,
      MockERC20.balanceOf ledger (self st) < tokenShare share ->
      run now (claimTokens sender id st) o = Ok tt st' tr ->
      token_serves token tr ledger = None)).
Proof.
  intros HI Hexists caller share token.
  split; [| split; [| split]].
  - intros Hx. unfold claimTokens. unfold_monad. simpl.
    rewrite Hexists. simpl. rewrite Hx. reflexivity.
  - intros Hx Hz. unfold claimTokens. unfold_monad. simpl.
    rewrite Hexists. simpl. rewrite Hx. simpl. fold caller. fold share. rewrite Hz.
    reflexivity.
  - intros Hc. apply claimTokens_again; auto. eapply Inv_claimed_executed; eauto.
  - intros Hx Hp Hc st1.
    assert (HI1 : Inv st1).
    { eapply (Inv_claim st st1 id caller); eauto; intros; unfold st1; rw_state; reflexivity. }
    assert (Hc1 : claimed (getAgentShare st1 id caller) = true).
    { unfold st1. rw_state. rewrite decide_True by reflexivity. reflexivity. }
    assert (Hx1 : executed (getReview st1 id) = true) by (unfold st1; rw_state; exact Hx).
    assert (Htrace : forall now o st' tr,
              run now (claimTokens sender id st) o = Ok tt st' tr ->
              tr = [ {| seen := st1; called := transfer token caller (tokenShare share);
                        answered := XBool true |} ]).
    { intros now o st' tr Hrun.
      pose proof (run_sound now _ o _ _ (claimTokens_wp sender id st HI)) as H.
      rewrite Hrun in H. destruct H as (_ & _ & _ & Htr). exact Htr. }
    assert (Hself : self st1 = self st) by reflexivity.
    split; [| split; [| split; [| split; [| split; [| split]]]]].
    + destruct (claimTokens_shape sender id st Hexists Hx Hp Hc) as (k & Hk & _). eauto.
    + exact Hc1.
    + intros now cbs b.
      destruct (R_claimed st1 (run_callbacks now cbs (set_balance b st1)) id caller)
        as (HI' & Hx' & Hc'); auto.
      { eapply R_trans; [apply R_set_balance | apply run_callbacks_R]. }
      apply claimTokens_again; auto.
    + intros now o st' tr Hrun.
      pose proof (run_sound now _ o _ _ (claimTokens_wp sender id st HI)) as H.
      rewrite Hrun in H. destruct H as (HI' & HF' & Hc' & Htr).
      assert (Hx' : executed (getReview st' id) = true) by (eapply Frozen_executed; eauto).
      split; [exact Htr |]. split; [exact Hc' |]. split.
      * destruct (fr_shares _ _ HF' id caller Hx) as (_ & Ht & _). exact Ht.
      * intros st'' Hlater.
        destruct (R_claimed st' st'' id caller (later_R _ _ Hlater))
          as (HI'' & Hx'' & Hc''); auto.
        apply claimTokens_again; auto.
    + intros now o st' tr ledger ledger' Hrun Hserved Hne.
      rewrite (Htrace now o st' tr Hrun), token_serves_claim, Hself in Hserved.
      destruct (MockERC20_transfer_credit (self st) caller _ ledger ledger' Hne Hserved)
        as [Hcredit Hdebit].
      split; [exact Hcredit |]. split; [exact Hdebit |].
      intros a Ha Hb.
      apply (MockERC20_transfer_frame (self st) caller _ ledger ledger' a Hb Ha Hserved).
    + intros now cbs rest ledger Hne Hle Hmax.
      destruct (run_claim_ok now sender id st cbs rest Hexists Hx Hp Hc) as (st' & Hrun).
      destruct (MockERC20_transfer_accepts (self st) caller (tokenShare share) ledger
                  Hne Hle Hmax) as (ledger' & Htransfer).
      exists st'. eexists. exists ledger'. split; [exact Hrun |].
      split; [rewrite token_serves_claim; exact Htransfer |].
      apply (MockERC20_transfer_credit (self st) caller _ ledger ledger' Hne Htransfer).
    + intros now o st' tr ledger Hlt Hrun.
      rewrite (Htrace now o st' tr Hrun), token_serves_claim, Hself.
      apply MockERC20_transfer_refuses, Hlt.
Qed.

Lemma claim_once_witness :
  Inv Scenario.executedA /\ exists_ (getReview Scenario.executedA 0) = true /\
  exists st' s1 ledger',
    run 700 (claimTokens 20 0 Scenario.executedA) Scenario.transfer_ok
    = Ok tt st' [ {| seen := s1; called := transfer 3000 20 400; answered := XBool true |} ] /\
    claimTokens 20 0 st' = Throw AlreadyClaimed /\
    token_serves 3000
      [ {| seen := s1; called := transfer 3000 20 400; answered := XBool true |} ]
      {[ 1000 := 1005 ]} = Some ledger' /\
    MockERC20.balanceOf ledger' 20 = 400 /\
    MockERC20.balanceOf ledger' 1000 = 605.
Proof.
  assert (HI : Inv Scenario.executedA) by apply reachable_Inv, reachable_executedA.
  assert (He : exists_ (getReview Scenario.executedA 0) = true) by (vm_compute; reflexivity).
  split; [exact HI |]. split; [exact He |].
  destruct (claim_once 20 0 Scenario.executedA HI He) as (_ & _ & _ & H).
  destruct H as (_ & _ & _ & Hrun & Hledger & _ & _);
    [vm_compute; reflexivity | vm_compute; reflexivity | vm_compute; reflexivity |].
  assert (E : exists st' tr,
             run 700 (claimTokens 20 0 Scenario.executedA) Scenario.transfer_ok
             = Ok tt st' tr) by (vm_compute; eauto).
  destruct E as (st' & tr & E).
  destruct (Hrun 700 _ st' tr E) as (Htr & _ & _ & Hagain).
  assert (S : exists ledger', token_serves 3000 tr {[ 1000 := 1005 ]} = Some ledger').
  { rewrite Htr. vm_compute. eauto. }
  destruct S as (ledger' & S).
  destruct (Hledger 700 _ st' tr {[ 1000 := 1005 ]} ledger' E S) as (Hc & Hd & _);
    [vm_compute; discriminate |].
  exists st'. eexists. exists ledger'. split; [rewrite E, Htr; reflexivity |].
  split; [apply Hagain; constructor |].
  split; [rewrite Htr in S; exact S |].
  split.
  - rewrite Hc. vm_compute. reflexivity.
  - assert (X : MockERC20.balanceOf {[ 1000 := 1005 ]} (self Scenario.executedA) = 1005)
      by (vm_compute; reflexivity).
    assert (Y : tokenShare (getAgentShare Scenario.executedA 0 20) = 400)
      by (vm_compute; reflexivity).
    assert (Z : self Scenario.executedA = 1000) by reflexivity.
    rewrite X, Y, Z in Hd. lia.
Defined.

(** ** A failed transfer undoes the claim (C10) *)

Lemma claimTokens_cases sender id st :
  (exists e, claimTokens sender id st = Throw e) \/
  (exists_ (getReview st id) = true /\ executed (getReview st id) = true /\
   0 < tokenShare (getAgentShare st id (Npos sender)) /\
   claimed (getAgentShare st id (Npos sender)) = false).
Proof.
  destruct (exists_ (getReview st id)) eqn:He;
    [| left; unfold claimTokens; unfold_monad; simpl; rewrite He; simpl; eauto].
  destruct (executed (getReview st id)) eqn:Hx;
    [| left; unfold claimTokens; unfold_monad; simpl; rewrite He; simpl; rewrite Hx; simpl;
       eauto].
  destruct (0 <? tokenShare (getAgentShare st id (Npos sender))) eqn:Hp;
    [| left; unfold claimTokens; unfold_monad; simpl; rewrite He; simpl; rewrite Hx; simpl;
       rewrite Hp; simpl; eauto].
  destruct (claimed (getAgentShare st id (Npos sender))) eqn:Hc;
    [left; unfold claimTokens; unfold_monad; simpl; rewrite He; simpl; rewrite Hx; simpl;
     rewrite Hp; simpl; rewrite Hc; simpl; eauto |].
  right. apply N.ltb_lt in Hp. auto.
Qed.

Lemma run_claim_failed now sender id st o :
  first_answer o <> XBool true ->
  exists e, run now (claimTokens sender id st) o = Fail e /\
            (exists_ (getReview st id) = true -> executed (getReview st id) = true ->
             0 < tokenShare (getAgentShare st id (Npos sender)) ->
             claimed (getAgentShare st id (Npos sender)) = false ->
             first_answer o = XBool false -> e = TransferFailed).
Proof.
  intros Hans.
  destruct (claimTokens_cases sender id st) as [[e He] | (H1 & H2 & H3 & H4)].
  - exists e. rewrite He, run_Throw. split; [reflexivity |].
    intros G1 G2 G3 G4 _.
    destruct (claimTokens_shape sender id st G1 G2 G3 G4) as (k & Hk & _). congruence.
  - destruct (claimTokens_shape sender id st H1 H2 H3 H4) as (k & Hk & Hcont).
    rewrite Hk. destruct o as [| cbs answer rest]; simpl in *.
    + rewrite Hcont. simpl. exists CallFailed. split; [reflexivity |]. discriminate.
    + destruct (balance _ <? 0) eqn:Hb; [apply N.ltb_lt in Hb; lia |].
      destruct answer as [| | w | [|] | rc a]; try congruence;
        rewrite Hcont; simpl; rewrite run_Throw; simpl;
        eexists; (split; [reflexivity |]); congruence.
Qed.

(** C10: when the token's [transfer] does not return [true] (it returns
    [false], reverts, or answers something else), the claim aborts, with
    "Transfer failed" when the answer was [false]; as a transaction or
    as a callback it leaves the state as it was, so the share is still
    unclaimed and the same claim can be made again.  Conversely a claim
    that succeeded made the transfer and was answered [true]. *)
Theorem failed_transfer_reverts now sender id st o :
  Inv st ->
  (first_answer o <> XBool true ->
   (exists e, run now (dispatch now (ClaimTokens sender id) st) o = Fail e /\
              (exists_ (getReview st id) = true -> executed (getReview st id) = true ->
               0 < tokenShare (getAgentShare st id (Npos sender)) ->
               claimed (getAgentShare st id (Npos sender)) = false ->
               first_answer o = XBool false -> e = TransferFailed)) /\
   transact now (ClaimTokens sender id) o st = st /\
   run_callbacks now (RCons (ClaimTokens sender id) o RNil) st = st) /\
  (forall st' tr,
     run now (dispatch now (ClaimTokens sender id) st) o = Ok tt st' tr ->
     first_answer o = XBool true /\
     map called tr = [transfer (tokenAddress (getReview st id)) (Npos sender)
                        (tokenShare (getAgentShare st id (Npos sender)))] /\
     map answered tr = [XBool true] /\
     claimed (getAgentShare st id (Npos sender)) = false /\
     claimed (getAgentShare st' id (Npos sender)) = true).
Proof.
  intros HI. split.
  - intros Hans. destruct (run_claim_failed now sender id st o Hans) as (e & Hrun & He).
    split; [exists e; split; [exact Hrun | exact He] |].
    unfold transact. simpl. rewrite Hrun. split; reflexivity.
  - intros st' tr Hrun. simpl in Hrun.
    assert (Hans : first_answer o = XBool true).
    { destruct (first_answer o) as [| | w | [|] | rc a] eqn:Ha; try reflexivity;
        (destruct (run_claim_failed now sender id st o) as (e & Hf & _);
         [rewrite Ha; discriminate | congruence]). }
    pose proof (run_sound now _ o _ _ (claimTokens_wp sender id st HI)) as H.
    rewrite Hrun in H. destruct H as (_ & _ & Hc' & Htr).
    split; [exact Hans |]. rewrite Htr. simpl.
    split; [reflexivity |]. split; [reflexivity |]. split; [| exact Hc'].
    destruct (claimed (getAgentShare st id (Npos sender))) eqn:Hc; [| reflexivity].
    rewrite (claimTokens_again sender id st HI) in Hrun; auto.
    + rewrite run_Throw in Hrun. discriminate.
    + eapply Inv_claimed_executed; eauto.
Qed.

Lemma failed_transfer_reverts_witness :
  Inv Scenario.executedA /\
  run 700 (dispatch 700 (ClaimTokens 20 0) Scenario.executedA) Scenario.transfer_refused
    = Fail TransferFailed /\
  transact 700 (ClaimTokens 20 0) Scenario.transfer_refused Scenario.executedA
    = Scenario.executedA.
Proof.
  assert (HI : Inv Scenario.executedA) by apply reachable_Inv, reachable_executedA.
  split; [exact HI |].
  destruct (failed_transfer_reverts 700 20 0 Scenario.executedA
              Scenario.transfer_refused HI) as [H _].
  destruct H as ((e & Hrun & He) & Htx & _); [simpl; discriminate |].
  split; [| exact Htx].
  rewrite Hrun. f_equal. apply He; vm_compute; reflexivity.
Defined.

(** ** Revocation only deletes the grant (C9) *)

(** C9: revoking an existing grant returns without any external call and
    changes nothing but the delegation record of the pair (principal,
    agent), which reads as the zero record afterwards: every other
    delegation, the escrow balances, reviews, theses, agent lists,
    shares, identities, counters, balance and event log are as before. *)
Theorem revoke_only_deletes_grant sender agentAddress st :
  delegate (getDelegation st (Npos sender) agentAddress) = agentAddress ->
  exists st',
    revokeDelegation sender agentAddress st = Return tt st' /\
    (forall now o, run now (dispatch now (RevokeDelegation sender agentAddress) st) o
                   = Ok tt st' []) /\
    getDelegation st' (Npos sender) agentAddress = zeroDelegation /\
    (forall d a, (d, a) <> (Npos sender, agentAddress) ->
                 delegations st' !! (d, a) = delegations st !! (d, a)) /\
    agentEscrow st' = agentEscrow st /\
    reviews st' = reviews st /\ theses st' = theses st /\
    reviewAgents st' = reviewAgents st /\ agentShares st' = agentShares st /\
    agentIdentities st' = agentIdentities st /\
    nextReviewId st' = nextReviewId st /\ owner st' = owner st /\
    memeJobAddress st' = memeJobAddress st /\ balance st' = balance st /\
    events st' = events st /\ self st' = self st /\
    REVIEW_WINDOW st' = REVIEW_WINDOW st /\
    EXECUTION_GAS_LIMIT st' = EXECUTION_GAS_LIMIT st /\
    MIN_SUBMISSION_FEE st' = MIN_SUBMISSION_FEE st.
Proof.
  intros Hd. exists (deleteDelegation (Npos sender) agentAddress st).
  assert (Hrun : revokeDelegation sender agentAddress st =
                 Return tt (deleteDelegation (Npos sender) agentAddress st)).
  { unfold revokeDelegation. unfold_monad. simpl.
    rewrite Hd, N.eqb_refl. reflexivity. }
  split; [exact Hrun |].
  split; [intros now o; simpl; rewrite Hrun; apply run_Return |].
  split; [unfold getDelegation, deleteDelegation; simpl; rewrite lookup_delete_eq; reflexivity |].
  split; [| repeat split].
  intros d a Hne. unfold deleteDelegation. simpl. apply lookup_delete_ne. congruence.
Qed.

Lemma revoke_only_deletes_grant_witness :
  delegate (getDelegation Scenario.funded 10 20) = 20 /\
  exists st',
    revokeDelegation 10 20 Scenario.funded = Return tt st' /\
    getDelegation st' 10 20 = zeroDelegation /\
    getAgentEscrow st' 20 = 50 /\
    delegate (getDelegation st' 10 21) = 21.
Proof.
  split; [vm_compute; reflexivity |].
  destruct (revoke_only_deletes_grant 10 20 Scenario.funded) as (st' & Hrun & _ & Hz & Hd & He & _).
  - vm_compute. reflexivity.
  - exists st'. split; [exact Hrun |]. split; [exact Hz |]. split.
    + unfold getAgentEscrow. rewrite He. vm_compute. reflexivity.
    + unfold getDelegation. rewrite Hd by discriminate. vm_compute. reflexivity.
Defined.

(** ** Deposits and revocations without a grant (C3) *)

Lemma depositForAgent_no_grant now sender value agentAddress st :
  agentAddress <> 0 ->
  delegate (getDelegation st (Npos sender) agentAddress) = 0 ->
  depositForAgent now sender value agentAddress st = Throw NoDelegation.
Proof.
  intros Hne Hd. unfold depositForAgent. unfold_monad. simpl. rw_state.
  replace (getDelegation (set_balance (balance st + value) st) (N.pos sender) agentAddress)
    with (getDelegation st (N.pos sender) agentAddress) by reflexivity.
  rewrite Hd. destruct (N.eqb_spec 0 agentAddress); [congruence | reflexivity].
Qed.

Lemma revokeDelegation_no_grant sender agentAddress st :
  agentAddress <> 0 ->
  delegate (getDelegation st (Npos sender) agentAddress) = 0 ->
  revokeDelegation sender agentAddress st = Throw NoDelegation.
Proof.
  intros Hne Hd. unfold revokeDelegation. unfold_monad. simpl.
  rewrite Hd. destruct (N.eqb_spec 0 agentAddress); [congruence | reflexivity].
Qed.

(** C3 (the code at the zero address): on the freshly deployed contract,
    where no grant exists at all, principal 10 deposits 5 for the agent
    address 0 and the deposit is accepted and credited to the escrow of
    address 0; revoking the (absent) grant to address 0 succeeds too. *)
Theorem deposit_for_zero_address_accepted :
  delegations Scenario.deployed = ∅ /\
  exists st',
    run 0 (dispatch 0 (DepositForAgent 10 5 0) Scenario.deployed) ONil = Ok tt st' [] /\
    getAgentEscrow st' 0 = 5 /\
    run 0 (dispatch 0 (RevokeDelegation 10 0) Scenario.deployed) ONil
    = Ok tt (deleteDelegation 10 0 Scenario.deployed) [].
Proof.
  split; [reflexivity |].
  eexists. split; [vm_compute; reflexivity |].
  split; vm_compute; reflexivity.
Qed.

(** ** Pledges add up to the review's total (C7) *)

Lemma submitThesis_effect now sender id text b p d st o st' tr :
  Inv st ->
  run now (submitThesis now sender id text b p d st) o = Ok tt st' tr ->
  tr = [] /\
  (b = true ->
     totalPledged (getReview st' id) = totalPledged (getReview st id) + p /\
     getAgentShare st id (Npos sender) = zeroShare /\
     getAgentShare st' id (Npos sender) =
       {| pledgedAmount := p; tokenShare := 0; claimed := false |} /\
     getAgentEscrow st' (Npos sender) + p = getAgentEscrow st (Npos sender)) /\
  (b = false ->
     getReview st' id = getReview st id /\
     agentShares st' = agentShares st /\
     agentEscrow st' = agentEscrow st) /\
  (forall a, a <> Npos sender -> getAgentShare st' id a = getAgentShare st id a) /\
  getReviewAgents st' id = getReviewAgents st id ++ [Npos sender].
Proof.
  intros HI. unfold submitThesis. unfold_monad. split_ifs;
    rewrite ?run_Throw, ?run_Return; try discriminate; intros [= <- <-].
  - apply N.eqb_eq in Heqb5. apply N.leb_le in Heqb9.
    pose proof (submitThesis_fresh st id (N.pos sender) HI Heqb5) as Hfresh.
    split; [reflexivity |]. rw_state.
    destruct (decide (id = id)) as [_ | Hn]; [| congruence].
    destruct (decide ((id, N.pos sender) = (id, N.pos sender))) as [_ | Hn]; [| congruence].
    split; [| split; [discriminate |]].
    + intros _. simpl. split; [reflexivity |].
      split; [apply (inv_nonmember st HI), Hfresh |]. split; [reflexivity |].
      unfold getAgentEscrow at 1. unfold setAgentEscrow. simpl.
      rewrite lookup_insert_eq. simpl. lia.
    + split; [| reflexivity].
      intros a Hne. rw_state. rewrite decide_False by congruence. reflexivity.
  - split; [reflexivity |]. rw_state.
    destruct (decide (id = id)) as [_ | Hn]; [| congruence].
    split; [discriminate |]. split; [intros _; repeat split |].
    split; [| reflexivity]. intros a Hne. rw_state. reflexivity.
Qed.

(** C7: in every reachable state the pledges recorded in the shares of a
    review's agents, who are all distinct, add up to the review's
    [totalPledged], and no other account has a pledge on the review.  A
    successful bullish [submitThesis] with pledge [p] adds [p] to
    [totalPledged], records the pledge [p] in the caller's share, which
    was zero, and takes exactly [p] from the caller's escrow; a
    successful bearish one changes neither the review record, nor any
    share, nor any escrow balance; both leave the shares of the other
    accounts alone and add the caller to the review's agents. *)
Theorem pledges_add_up st :
  reachable st ->
  (forall id,
     sumN (pledges st id (getReviewAgents st id)) = totalPledged (getReview st id) /\
     NoDup (getReviewAgents st id) /\
     (forall a, a ∉ getReviewAgents st id -> pledgedAmount (getAgentShare st id a) = 0)) /\
  (forall now sender id text b p d o st' tr,
     run now (submitThesis now sender id text b p d st) o = Ok tt st' tr ->
     tr = [] /\
     (b = true ->
        totalPledged (getReview st' id) = totalPledged (getReview st id) + p /\
        getAgentShare st id (Npos sender) = zeroShare /\
        getAgentShare st' id (Npos sender) =
          {| pledgedAmount := p; tokenShare := 0; claimed := false |} /\
        getAgentEscrow st' (Npos sender) + p = getAgentEscrow st (Npos sender)) /\
     (b = false ->
        getReview st' id = getReview st id /\
        agentShares st' = agentShares st /\
        agentEscrow st' = agentEscrow st) /\
     (forall a, a <> Npos sender -> getAgentShare st' id a = getAgentShare st id a) /\
     getReviewAgents st' id = getReviewAgents st id ++ [Npos sender]).
Proof.
  intros Hreach. pose proof (reachable_Inv st Hreach) as HI. split.
  - intros id. split; [apply (inv_sum st HI) |]. split; [apply (inv_nodup st HI) |].
    intros a Ha. rewrite (inv_nonmember st HI id a Ha). reflexivity.
  - intros now sender id text b p d o st' tr Hrun.
    exact (submitThesis_effect now sender id text b p d st o st' tr HI Hrun).
Qed.

Lemma pledges_add_up_witness :
  reachable Scenario.pledgedA /\
  sumN (pledges Scenario.pledgedA 0 (getReviewAgents Scenario.pledgedA 0)) = 100 /\
  totalPledged (getReview Scenario.pledgedA 0) = 100 /\
  exists st',
    run 1 (submitThesis 1 20 0 "buy" true 40 10 Scenario.funded) ONil = Ok tt st' [] /\
    totalPledged (getReview st' 0) = 40 /\ getAgentEscrow st' 20 = 10.
Proof.
  pose proof (pledges_add_up Scenario.pledgedA reachable_pledgedA) as [Hsum _].
  pose proof (pledges_add_up Scenario.funded reachable_funded) as [_ Hstep].
  split; [exact reachable_pledgedA |].
  destruct (Hsum 0) as (Hs & _).
  split; [rewrite Hs; vm_compute; reflexivity |].
  split; [vm_compute; reflexivity |].
  assert (E : exists st', run 1 (submitThesis 1 20 0 "buy" true 40 10 Scenario.funded) ONil
                          = Ok tt st' []) by (vm_compute; eauto).
  destruct E as (st' & E). exists st'. split; [exact E |].
  destruct (Hstep 1 20%positive 0 "buy"%string true 40 10 ONil st' [] E)
    as (_ & Hb & _).
  destruct (Hb eq_refl) as (Ht & _ & _ & He).
  split.
  - rewrite Ht. vm_compute. reflexivity.
  - assert (X : getAgentEscrow Scenario.funded 20 = 50) by (vm_compute; reflexivity).
    rewrite X in He. lia.
Defined.

(** ** Proportional token shares (C2) *)

Section FloorShares.

Variables (P T : N).
Hypothesis HP : 0 < P.

Lemma floors_rests l : P * sumN (floors P T l) + sumN (rests P T l) = T * sumN l.
Proof.
  induction l as [| p l IH]; simpl; [lia |].
  fold (floors P T l) (rests P T l).
  pose proof (N.div_mod (p * T) P ltac:(lia)) as Hdm.
  rewrite !N.mul_add_distr_l, (N.mul_comm T p), <- IH.
  set (x := p * T) in *. set (q := x / P) in *. set (r := x mod P) in *. lia.
Qed.

Lemma rests_bound l : l <> [] -> sumN (rests P T l) < N.of_nat (length l) * P.
Proof.
  induction l as [| p l IH]; intros Hne; [congruence |].
  pose proof (N.mod_lt (p * T) P ltac:(lia)) as Hlt.
  destruct l as [| q l]; [simpl in *; lia |].
  specialize (IH ltac:(discriminate)).
  change (sumN (rests P T (p :: q :: l))) with ((p * T) mod P + sumN (rests P T (q :: l))).
  change (length (p :: q :: l)) with (S (length (q :: l))). nia.
Qed.

Lemma rests_zero l : sumN (rests P T l) = 0 <-> Forall (fun p => (P | p * T)) l.
Proof.
  induction l as [| p l IH]; simpl.
  - split; [constructor | reflexivity].
  - rewrite Forall_cons. rewrite <- IH. rewrite <- (N.Lcm0.mod_divide (p * T) P).
    fold (rests P T l). generalize ((p * T) mod P), (sumN (rests P T l)). intros r s. lia.
Qed.

Lemma floor_shares l :
  sumN l = P ->
  sumN (floors P T l) <= T /\
  T - sumN (floors P T l) < N.of_nat (length l) /\
  (sumN (floors P T l) = T <-> Forall (fun p => (P | p * T)) l).
Proof.
  intros Hsum. pose proof (floors_rests l) as Heq. rewrite Hsum in Heq.
  assert (Hne : l <> []) by (intros ->; simpl in Hsum; lia).
  pose proof (rests_bound l Hne) as Hb.
  rewrite <- rests_zero. split; [nia |]. split; nia.
Qed.

End FloorShares.

Lemma tokenShares_floor st id l P T :
  (forall a, tokenShare (getAgentShare st id a) = pledgedAmount (getAgentShare st id a) * T / P) ->
  tokenShares st id l = map (fun p => p * T / P) (pledges st id l).
Proof.
  intros H. unfold tokenShares, pledges. rewrite map_map. apply map_ext. intros a. apply H.
Qed.

(** C2, amended: for an executed review with [totalPledged > 0] and
    [totalPurchased > 0], in every reachable state, every account's
    [tokenShare] is [floor(pledgedAmount * totalPurchased / totalPledged)],
    which is [0] for an account without a pledge (a bearish agent, or an
    account that is not an agent of the review); the shares of the
    review's agents sum to at most [totalPurchased], the deficit is less
    than the number of agents, and the sum equals [totalPurchased]
    exactly when [totalPledged] divides [pledgedAmount * totalPurchased]
    for every agent. *)
Theorem token_shares_proportional st id :
  reachable st ->
  executed (getReview st id) = true ->
  0 < totalPledged (getReview st id) -> 0 < totalPurchased (getReview st id) ->
  let agents := getReviewAgents st id in
  let P := totalPledged (getReview st id) in
  let T := totalPurchased (getReview st id) in
  (forall a, tokenShare (getAgentShare st id a) =
             pledgedAmount (getAgentShare st id a) * T / P) /\
  (forall a, pledgedAmount (getAgentShare st id a) = 0 ->
             tokenShare (getAgentShare st id a) = 0) /\
  (forall a, a ∉ agents -> tokenShare (getAgentShare st id a) = 0) /\
  sumN (tokenShares st id agents) <= T /\
  T - sumN (tokenShares st id agents) < N.of_nat (length agents) /\
  (sumN (tokenShares st id agents) = T <->
   forall a, a ∈ agents -> (P | pledgedAmount (getAgentShare st id a) * T)).
Proof.
  intros Hreach Hx HP HT agents P T.
  pose proof (reachable_Inv st Hreach) as HI.
  pose proof (inv_share st HI id Hx HT) as Hshare. fold T P in Hshare.
  split; [exact Hshare |].
  assert (Hzero : forall a, pledgedAmount (getAgentShare st id a) = 0 ->
                            tokenShare (getAgentShare st id a) = 0).
  { intros a Hz. rewrite Hshare, Hz, N.mul_0_l. apply N.Div0.div_0_l. }
  split; [exact Hzero |].
  split.
  { intros a Ha. apply Hzero. rewrite (inv_nonmember st HI id a Ha). reflexivity. }
  rewrite (tokenShares_floor st id agents P T Hshare).
  destruct (floor_shares P T HP (pledges st id agents) (inv_sum st HI id)) as (H1 & H2 & H3).
  split; [exact H1 |]. split.
  - unfold pledges in H2. rewrite length_map in H2. exact H2.
  - rewrite H3. unfold pledges. rewrite Forall_map, Forall_forall. reflexivity.
Qed.

Lemma token_shares_proportional_witness :
  reachable Scenario.executedA /\
  tokenShare (getAgentShare Scenario.executedA 0 20) = 400 /\
  tokenShare (getAgentShare Scenario.executedA 0 21) = 600 /\
  sumN (tokenShares Scenario.executedA 0 (getReviewAgents Scenario.executedA 0)) <= 1000.
Proof.
  destruct (token_shares_proportional Scenario.executedA 0) as (Hs & _ & _ & Hle & _).
  - exact reachable_executedA.
  - vm_compute. reflexivity.
  - vm_compute. reflexivity.
  - vm_compute. reflexivity.
  - split; [exact reachable_executedA |].
    split; [rewrite Hs; vm_compute; reflexivity |].
    split; [rewrite Hs; vm_compute; reflexivity |].
    assert (X : totalPurchased (getReview Scenario.executedA 0) = 1000)
      by (vm_compute; reflexivity).
    rewrite <- X. exact Hle.
Defined.

(** C2, as worded, fails on scenario A of the specification: the shares
    400 and 600 sum to the 1000 tokens purchased although the total
    pledge 100 divides neither pledge (40 and 60). *)
Lemma scenarioA_equality_without_divisibility :
  reachable Scenario.executedA /\
  executed (getReview Scenario.executedA 0) = true /\
  0 < totalPledged (getReview Scenario.executedA 0) /\
  0 < totalPurchased (getReview Scenario.executedA 0) /\
  ~ equality_only_when_total_divides_pledges Scenario.executedA 0.
Proof.
  split; [exact reachable_executedA |].
  split; [vm_compute; reflexivity |].
  split; [vm_compute; reflexivity |].
  split; [vm_compute; reflexivity |].
  intros H. unfold equality_only_when_total_divides_pledges in H.
  assert (Hsum : sumN (tokenShares Scenario.executedA 0
                         (getReviewAgents Scenario.executedA 0))
                 = totalPurchased (getReview Scenario.executedA 0))
    by (vm_compute; reflexivity).
  assert (Hin : (20 : N) ∈ getReviewAgents Scenario.executedA 0).
  { replace (getReviewAgents Scenario.executedA 0) with [20; 21]
      by (vm_compute; reflexivity). left. }
  specialize (H Hsum 20 Hin).
  replace (totalPledged (getReview Scenario.executedA 0)) with 100 in H
    by (vm_compute; reflexivity).
  replace (pledgedAmount (getAgentShare Scenario.executedA 0 20)) with 40 in H
    by (vm_compute; reflexivity).
  destruct H as [k Hk]. lia.
Qed.

(** * Further properties of the code *)

(** ** Reading the other storage variables after a write *)

Lemma delegations_setReview id r s : delegations (setReview id r s) = delegations s.
Proof. reflexivity. Qed.
Lemma delegations_setThesis id a t s : delegations (setThesis id a t s) = delegations s.
Proof. reflexivity. Qed.
Lemma delegations_pushReviewAgent id a s : delegations (pushReviewAgent id a s) = delegations s.
Proof. reflexivity. Qed.
Lemma delegations_setAgentShare id a sh s : delegations (setAgentShare id a sh s) = delegations s.
Proof. reflexivity. Qed.
Lemma delegations_setAgentEscrow a v s : delegations (setAgentEscrow a v s) = delegations s.
Proof. reflexivity. Qed.
Lemma delegations_set_nextReviewId v s : delegations (set_nextReviewId v s) = delegations s.
Proof. reflexivity. Qed.
Lemma delegations_set_events v s : delegations (set_events v s) = delegations s.
Proof. reflexivity. Qed.
Lemma delegations_set_balance v s : delegations (set_balance v s) = delegations s.
Proof. reflexivity. Qed.
Lemma delegations_setAgentIdentity a x s : delegations (setAgentIdentity a x s) = delegations s.
Proof. reflexivity. Qed.
Lemma delegations_set_memeJobAddress v s : delegations (set_memeJobAddress v s) = delegations s.
Proof. reflexivity. Qed.
Lemma agentIdentities_setReview id r s : agentIdentities (setReview id r s) = agentIdentities s.
Proof. reflexivity. Qed.
Lemma agentIdentities_setThesis id a t s : agentIdentities (setThesis id a t s) = agentIdentities s.
Proof. reflexivity. Qed.
Lemma agentIdentities_pushReviewAgent id a s : agentIdentities (pushReviewAgent id a s) = agentIdentities s.
Proof. reflexivity. Qed.
Lemma agentIdentities_setAgentShare id a sh s : agentIdentities (setAgentShare id a sh s) = agentIdentities s.
Proof. reflexivity. Qed.
Lemma agentIdentities_setAgentEscrow a v s : agentIdentities (setAgentEscrow a v s) = agentIdentities s.
Proof. reflexivity. Qed.
Lemma agentIdentities_set_nextReviewId v s : agentIdentities (set_nextReviewId v s) = agentIdentities s.
Proof. reflexivity. Qed.
Lemma agentIdentities_set_events v s : agentIdentities (set_events v s) = agentIdentities s.
Proof. reflexivity. Qed.
Lemma agentIdentities_set_balance v s : agentIdentities (set_balance v s) = agentIdentities s.
Proof. reflexivity. Qed.
Lemma agentIdentities_setDelegation d a x s : agentIdentities (setDelegation d a x s) = agentIdentities s.
Proof. reflexivity. Qed.
Lemma agentIdentities_deleteDelegation d a s : agentIdentities (deleteDelegation d a s) = agentIdentities s.
Proof. reflexivity. Qed.
Lemma agentIdentities_set_memeJobAddress v s : agentIdentities (set_memeJobAddress v s) = agentIdentities s.
Proof. reflexivity. Qed.
Lemma agentEscrow_setReview id r s : agentEscrow (setReview id r s) = agentEscrow s.
Proof. reflexivity. Qed.
Lemma agentEscrow_setThesis id a t s : agentEscrow (setThesis id a t s) = agentEscrow s.
Proof. reflexivity. Qed.
Lemma agentEscrow_pushReviewAgent id a s : agentEscrow (pushReviewAgent id a s) = agentEscrow s.
Proof. reflexivity. Qed.
Lemma agentEscrow_setAgentShare id a sh s : agentEscrow (setAgentShare id a sh s) = agentEscrow s.
Proof. reflexivity. Qed.
Lemma agentEscrow_set_nextReviewId v s : agentEscrow (set_nextReviewId v s) = agentEscrow s.
Proof. reflexivity. Qed.
Lemma agentEscrow_set_events v s : agentEscrow (set_events v s) = agentEscrow s.
Proof. reflexivity. Qed.
Lemma agentEscrow_set_balance v s : agentEscrow (set_balance v s) = agentEscrow s.
Proof. reflexivity. Qed.
Lemma agentEscrow_setDelegation d a x s : agentEscrow (setDelegation d a x s) = agentEscrow s.
Proof. reflexivity. Qed.
Lemma agentEscrow_deleteDelegation d a s : agentEscrow (deleteDelegation d a s) = agentEscrow s.
Proof. reflexivity. Qed.
Lemma agentEscrow_setAgentIdentity a x s : agentEscrow (setAgentIdentity a x s) = agentEscrow s.
Proof. reflexivity. Qed.
Lemma agentEscrow_set_memeJobAddress v s : agentEscrow (set_memeJobAddress v s) = agentEscrow s.
Proof. reflexivity. Qed.
Lemma balance_setReview id r s : balance (setReview id r s) = balance s.
Proof. reflexivity. Qed.
Lemma balance_setThesis id a t s : balance (setThesis id a t s) = balance s.
Proof. reflexivity. Qed.
Lemma balance_pushReviewAgent id a s : balance (pushReviewAgent id a s) = balance s.
Proof. reflexivity. Qed.
Lemma balance_setAgentShare id a sh s : balance (setAgentShare id a sh s) = balance s.
Proof. reflexivity. Qed.
Lemma balance_setAgentEscrow a v s : balance (setAgentEscrow a v s) = balance s.
Proof. reflexivity. Qed.
Lemma balance_set_nextReviewId v s : balance (set_nextReviewId v s) = balance s.
Proof. reflexivity. Qed.
Lemma balance_set_events v s : balance (set_events v s) = balance s.
Proof. reflexivity. Qed.
Lemma balance_setDelegation d a x s : balance (setDelegation d a x s) = balance s.
Proof. reflexivity. Qed.
Lemma balance_deleteDelegation d a s : balance (deleteDelegation d a s) = balance s.
Proof. reflexivity. Qed.
Lemma balance_setAgentIdentity a x s : balance (setAgentIdentity a x s) = balance s.
Proof. reflexivity. Qed.
Lemma balance_set_memeJobAddress v s : balance (set_memeJobAddress v s) = balance s.
Proof. reflexivity. Qed.
Lemma reviews_setThesis id a t s : reviews (setThesis id a t s) = reviews s.
Proof. reflexivity. Qed.
Lemma reviews_pushReviewAgent id a s : reviews (pushReviewAgent id a s) = reviews s.
Proof. reflexivity. Qed.
Lemma reviews_setAgentShare id a sh s : reviews (setAgentShare id a sh s) = reviews s.
Proof. reflexivity. Qed.
Lemma reviews_setAgentEscrow a v s : reviews (setAgentEscrow a v s) = reviews s.
Proof. reflexivity. Qed.
Lemma reviews_set_nextReviewId v s : reviews (set_nextReviewId v s) = reviews s.
Proof. reflexivity. Qed.
Lemma reviews_set_events v s : reviews (set_events v s) = reviews s.
Proof. reflexivity. Qed.
Lemma reviews_set_balance v s : reviews (set_balance v s) = reviews s.
Proof. reflexivity. Qed.
Lemma reviews_setDelegation d a x s : reviews (setDelegation d a x s) = reviews s.
Proof. reflexivity. Qed.
Lemma reviews_deleteDelegation d a s : reviews (deleteDelegation d a s) = reviews s.
Proof. reflexivity. Qed.
Lemma reviews_setAgentIdentity a x s : reviews (setAgentIdentity a x s) = reviews s.
Proof. reflexivity. Qed.
Lemma reviews_set_memeJobAddress v s : reviews (set_memeJobAddress v s) = reviews s.
Proof. reflexivity. Qed.
Lemma owner_setReview id r s : owner (setReview id r s) = owner s.
Proof. reflexivity. Qed.
Lemma owner_setThesis id a t s : owner (setThesis id a t s) = owner s.
Proof. reflexivity. Qed.
Lemma owner_pushReviewAgent id a s : owner (pushReviewAgent id a s) = owner s.
Proof. reflexivity. Qed.
Lemma owner_setAgentShare id a sh s : owner (setAgentShare id a sh s) = owner s.
Proof. reflexivity. Qed.
Lemma owner_setAgentEscrow a v s : owner (setAgentEscrow a v s) = owner s.
Proof. reflexivity. Qed.
Lemma owner_set_nextReviewId v s : owner (set_nextReviewId v s) = owner s.
Proof. reflexivity. Qed.
Lemma owner_set_events v s : owner (set_events v s) = owner s.
Proof. reflexivity. Qed.
Lemma owner_set_balance v s : owner (set_balance v s) = owner s.
Proof. reflexivity. Qed.
Lemma owner_setDelegation d a x s : owner (setDelegation d a x s) = owner s.
Proof. reflexivity. Qed.
Lemma owner_deleteDelegation d a s : owner (deleteDelegation d a s) = owner s.
Proof. reflexivity. Qed.
Lemma owner_setAgentIdentity a x s : owner (setAgentIdentity a x s) = owner s.
Proof. reflexivity. Qed.
Lemma owner_set_memeJobAddress v s : owner (set_memeJobAddress v s) = owner s.
Proof. reflexivity. Qed.
Lemma MIN_SUBMISSION_FEE_setReview id r s : MIN_SUBMISSION_FEE (setReview id r s) = MIN_SUBMISSION_FEE s.
Proof. reflexivity. Qed.
Lemma MIN_SUBMISSION_FEE_setThesis id a t s : MIN_SUBMISSION_FEE (setThesis id a t s) = MIN_SUBMISSION_FEE s.
Proof. reflexivity. Qed.
Lemma MIN_SUBMISSION_FEE_pushReviewAgent id a s : MIN_SUBMISSION_FEE (pushReviewAgent id a s) = MIN_SUBMISSION_FEE s.
Proof. reflexivity. Qed.
Lemma MIN_SUBMISSION_FEE_setAgentShare id a sh s : MIN_SUBMISSION_FEE (setAgentShare id a sh s) = MIN_SUBMISSION_FEE s.
Proof. reflexivity. Qed.
Lemma MIN_SUBMISSION_FEE_setAgentEscrow a v s : MIN_SUBMISSION_FEE (setAgentEscrow a v s) = MIN_SUBMISSION_FEE s.
Proof. reflexivity. Qed.
Lemma MIN_SUBMISSION_FEE_set_nextReviewId v s : MIN_SUBMISSION_FEE (set_nextReviewId v s) = MIN_SUBMISSION_FEE s.
Proof. reflexivity. Qed.
Lemma MIN_SUBMISSION_FEE_set_events v s : MIN_SUBMISSION_FEE (set_events v s) = MIN_SUBMISSION_FEE s.
Proof. reflexivity. Qed.
Lemma MIN_SUBMISSION_FEE_set_balance v s : MIN_SUBMISSION_FEE (set_balance v s) = MIN_SUBMISSION_FEE s.
Proof. reflexivity. Qed.
Lemma MIN_SUBMISSION_FEE_setDelegation d a x s : MIN_SUBMISSION_FEE (setDelegation d a x s) = MIN_SUBMISSION_FEE s.
Proof. reflexivity. Qed.
Lemma MIN_SUBMISSION_FEE_deleteDelegation d a s : MIN_SUBMISSION_FEE (deleteDelegation d a s) = MIN_SUBMISSION_FEE s.
Proof. reflexivity. Qed.
Lemma MIN_SUBMISSION_FEE_setAgentIdentity a x s : MIN_SUBMISSION_FEE (setAgentIdentity a x s) = MIN_SUBMISSION_FEE s.
Proof. reflexivity. Qed.
Lemma MIN_SUBMISSION_FEE_set_memeJobAddress v s : MIN_SUBMISSION_FEE (set_memeJobAddress v s) = MIN_SUBMISSION_FEE s.
Proof. reflexivity. Qed.
Lemma REVIEW_WINDOW_setReview id r s : REVIEW_WINDOW (setReview id r s) = REVIEW_WINDOW s.
Proof. reflexivity. Qed.
Lemma REVIEW_WINDOW_setThesis id a t s : REVIEW_WINDOW (setThesis id a t s) = REVIEW_WINDOW s.
Proof. reflexivity. Qed.
Lemma REVIEW_WINDOW_pushReviewAgent id a s : REVIEW_WINDOW (pushReviewAgent id a s) = REVIEW_WINDOW s.
Proof. reflexivity. Qed.
Lemma REVIEW_WINDOW_setAgentShare id a sh s : REVIEW_WINDOW (setAgentShare id a sh s) = REVIEW_WINDOW s.
Proof. reflexivity. Qed.
Lemma REVIEW_WINDOW_setAgentEscrow a v s : REVIEW_WINDOW (setAgentEscrow a v s) = REVIEW_WINDOW s.
Proof. reflexivity. Qed.
Lemma REVIEW_WINDOW_set_nextReviewId v s : REVIEW_WINDOW (set_nextReviewId v s) = REVIEW_WINDOW s.
Proof. reflexivity. Qed.
Lemma REVIEW_WINDOW_set_events v s : REVIEW_WINDOW (set_events v s) = REVIEW_WINDOW s.
Proof. reflexivity. Qed.
Lemma REVIEW_WINDOW_set_balance v s : REVIEW_WINDOW (set_balance v s) = REVIEW_WINDOW s.
Proof. reflexivity. Qed.
Lemma REVIEW_WINDOW_setDelegation d a x s : REVIEW_WINDOW (setDelegation d a x s) = REVIEW_WINDOW s.
Proof. reflexivity. Qed.
Lemma REVIEW_WINDOW_deleteDelegation d a s : REVIEW_WINDOW (deleteDelegation d a s) = REVIEW_WINDOW s.
Proof. reflexivity. Qed.
Lemma REVIEW_WINDOW_setAgentIdentity a x s : REVIEW_WINDOW (setAgentIdentity a x s) = REVIEW_WINDOW s.
Proof. reflexivity. Qed.
Lemma REVIEW_WINDOW_set_memeJobAddress v s : REVIEW_WINDOW (set_memeJobAddress v s) = REVIEW_WINDOW s.
Proof. reflexivity. Qed.
Lemma EXECUTION_GAS_LIMIT_setReview id r s : EXECUTION_GAS_LIMIT (setReview id r s) = EXECUTION_GAS_LIMIT s.
Proof. reflexivity. Qed.
Lemma EXECUTION_GAS_LIMIT_setThesis id a t s : EXECUTION_GAS_LIMIT (setThesis id a t s) = EXECUTION_GAS_LIMIT s.
Proof. reflexivity. Qed.
Lemma EXECUTION_GAS_LIMIT_pushReviewAgent id a s : EXECUTION_GAS_LIMIT (pushReviewAgent id a s) = EXECUTION_GAS_LIMIT s.
Proof. reflexivity. Qed.
Lemma EXECUTION_GAS_LIMIT_setAgentShare id a sh s : EXECUTION_GAS_LIMIT (setAgentShare id a sh s) = EXECUTION_GAS_LIMIT s.
Proof. reflexivity. Qed.
Lemma EXECUTION_GAS_LIMIT_setAgentEscrow a v s : EXECUTION_GAS_LIMIT (setAgentEscrow a v s) = EXECUTION_GAS_LIMIT s.
Proof. reflexivity. Qed.
Lemma EXECUTION_GAS_LIMIT_set_nextReviewId v s : EXECUTION_GAS_LIMIT (set_nextReviewId v s) = EXECUTION_GAS_LIMIT s.
Proof. reflexivity. Qed.
Lemma EXECUTION_GAS_LIMIT_set_events v s : EXECUTION_GAS_LIMIT (set_events v s) = EXECUTION_GAS_LIMIT s.
Proof. reflexivity. Qed.
Lemma EXECUTION_GAS_LIMIT_set_balance v s : EXECUTION_GAS_LIMIT (set_balance v s) = EXECUTION_GAS_LIMIT s.
Proof. reflexivity. Qed.
Lemma EXECUTION_GAS_LIMIT_setDelegation d a x s : EXECUTION_GAS_LIMIT (setDelegation d a x s) = EXECUTION_GAS_LIMIT s.
Proof. reflexivity. Qed.
Lemma EXECUTION_GAS_LIMIT_deleteDelegation d a s : EXECUTION_GAS_LIMIT (deleteDelegation d a s) = EXECUTION_GAS_LIMIT s.
Proof. reflexivity. Qed.
Lemma EXECUTION_GAS_LIMIT_setAgentIdentity a x s : EXECUTION_GAS_LIMIT (setAgentIdentity a x s) = EXECUTION_GAS_LIMIT s.
Proof. reflexivity. Qed.
Lemma EXECUTION_GAS_LIMIT_set_memeJobAddress v s : EXECUTION_GAS_LIMIT (set_memeJobAddress v s) = EXECUTION_GAS_LIMIT s.
Proof. reflexivity. Qed.
Lemma self_setDelegation d a x s : self (setDelegation d a x s) = self s.
Proof. reflexivity. Qed.
Lemma self_deleteDelegation d a s : self (deleteDelegation d a s) = self s.
Proof. reflexivity. Qed.
Lemma self_setAgentIdentity a x s : self (setAgentIdentity a x s) = self s.
Proof. reflexivity. Qed.
Lemma self_set_memeJobAddress v s : self (set_memeJobAddress v s) = self s.
Proof. reflexivity. Qed.
Lemma nextReviewId_setDelegation d a x s : nextReviewId (setDelegation d a x s) = nextReviewId s.
Proof. reflexivity. Qed.
Lemma nextReviewId_deleteDelegation d a s : nextReviewId (deleteDelegation d a s) = nextReviewId s.
Proof. reflexivity. Qed.
Lemma nextReviewId_setAgentIdentity a x s : nextReviewId (setAgentIdentity a x s) = nextReviewId s.
Proof. reflexivity. Qed.
Lemma nextReviewId_set_memeJobAddress v s : nextReviewId (set_memeJobAddress v s) = nextReviewId s.
Proof. reflexivity. Qed.
Lemma events_setDelegation d a x s : events (setDelegation d a x s) = events s.
Proof. reflexivity. Qed.
Lemma events_deleteDelegation d a s : events (deleteDelegation d a s) = events s.
Proof. reflexivity. Qed.
Lemma events_setAgentIdentity a x s : events (setAgentIdentity a x s) = events s.
Proof. reflexivity. Qed.
Lemma events_set_memeJobAddress v s : events (set_memeJobAddress v s) = events s.
Proof. reflexivity. Qed.
Lemma memeJobAddress_setDelegation d a x s : memeJobAddress (setDelegation d a x s) = memeJobAddress s.
Proof. reflexivity. Qed.
Lemma memeJobAddress_deleteDelegation d a s : memeJobAddress (deleteDelegation d a s) = memeJobAddress s.
Proof. reflexivity. Qed.
Lemma memeJobAddress_setAgentIdentity a x s : memeJobAddress (setAgentIdentity a x s) = memeJobAddress s.
Proof. reflexivity. Qed.
Lemma getReview_setDelegation d a x id' s : getReview (setDelegation d a x s) id' = getReview s id'.
Proof. reflexivity. Qed.
Lemma getReview_deleteDelegation d a id' s : getReview (deleteDelegation d a s) id' = getReview s id'.
Proof. reflexivity. Qed.
Lemma getReview_setAgentIdentity a x id' s : getReview (setAgentIdentity a x s) id' = getReview s id'.
Proof. reflexivity. Qed.
Lemma getReview_set_memeJobAddress v id' s : getReview (set_memeJobAddress v s) id' = getReview s id'.
Proof. reflexivity. Qed.
Lemma getThesis_setDelegation d a x id' a' s : getThesis (setDelegation d a x s) id' a' = getThesis s id' a'.
Proof. reflexivity. Qed.
Lemma getThesis_deleteDelegation d a id' a' s : getThesis (deleteDelegation d a s) id' a' = getThesis s id' a'.
Proof. reflexivity. Qed.
Lemma getThesis_setAgentIdentity a x id' a' s : getThesis (setAgentIdentity a x s) id' a' = getThesis s id' a'.
Proof. reflexivity. Qed.
Lemma getThesis_set_memeJobAddress v id' a' s : getThesis (set_memeJobAddress v s) id' a' = getThesis s id' a'.
Proof. reflexivity. Qed.
Lemma getReviewAgents_setDelegation d a x id' s : getReviewAgents (setDelegation d a x s) id' = getReviewAgents s id'.
Proof. reflexivity. Qed.
Lemma getReviewAgents_deleteDelegation d a id' s : getReviewAgents (deleteDelegation d a s) id' = getReviewAgents s id'.
Proof. reflexivity. Qed.
Lemma getReviewAgents_setAgentIdentity a x id' s : getReviewAgents (setAgentIdentity a x s) id' = getReviewAgents s id'.
Proof. reflexivity. Qed.
Lemma getReviewAgents_set_memeJobAddress v id' s : getReviewAgents (set_memeJobAddress v s) id' = getReviewAgents s id'.
Proof. reflexivity. Qed.
Lemma getAgentShare_setDelegation d a x id' a' s : getAgentShare (setDelegation d a x s) id' a' = getAgentShare s id' a'.
Proof. reflexivity. Qed.
Lemma getAgentShare_deleteDelegation d a id' a' s : getAgentShare (deleteDelegation d a s) id' a' = getAgentShare s id' a'.
Proof. reflexivity. Qed.
Lemma getAgentShare_setAgentIdentity a x id' a' s : getAgentShare (setAgentIdentity a x s) id' a' = getAgentShare s id' a'.
Proof. reflexivity. Qed.
Lemma getAgentShare_set_memeJobAddress v id' a' s : getAgentShare (set_memeJobAddress v s) id' a' = getAgentShare s id' a'.
Proof. reflexivity. Qed.
Lemma balance_set_balance v s : balance (set_balance v s) = v.
Proof. reflexivity. Qed.
Lemma agentEscrow_setAgentEscrow a v s : agentEscrow (setAgentEscrow a v s) = <[a := v]> (agentEscrow s).
Proof. reflexivity. Qed.
Lemma reviews_setReview id r s : reviews (setReview id r s) = <[id := r]> (reviews s).
Proof. reflexivity. Qed.
Lemma delegations_setDelegation d a x s : delegations (setDelegation d a x s) = <[(d, a) := x]> (delegations s).
Proof. reflexivity. Qed.
Lemma delegations_deleteDelegation d a s : delegations (deleteDelegation d a s) = delete (d, a) (delegations s).
Proof. reflexivity. Qed.
Lemma agentIdentities_setAgentIdentity a x s : agentIdentities (setAgentIdentity a x s) = <[a := x]> (agentIdentities s).
Proof. reflexivity. Qed.

#[local] Hint Rewrite
  delegations_setReview
  delegations_setThesis
  delegations_pushReviewAgent
  delegations_setAgentShare
  delegations_setAgentEscrow
  delegations_set_nextReviewId
  delegations_set_events
  delegations_set_balance
  delegations_setAgentIdentity
  delegations_set_memeJobAddress
  agentIdentities_setReview
  agentIdentities_setThesis
  agentIdentities_pushReviewAgent
  agentIdentities_setAgentShare
  agentIdentities_setAgentEscrow
  agentIdentities_set_nextReviewId
  agentIdentities_set_events
  agentIdentities_set_balance
  agentIdentities_setDelegation
  agentIdentities_deleteDelegation
  agentIdentities_set_memeJobAddress
  agentEscrow_setReview
  agentEscrow_setThesis
  agentEscrow_pushReviewAgent
  agentEscrow_setAgentShare
  agentEscrow_set_nextReviewId
  agentEscrow_set_events
  agentEscrow_set_balance
  agentEscrow_setDelegation
  agentEscrow_deleteDelegation
  agentEscrow_setAgentIdentity
  agentEscrow_set_memeJobAddress
  balance_setReview
  balance_setThesis
  balance_pushReviewAgent
  balance_setAgentShare
  balance_setAgentEscrow
  balance_set_nextReviewId
  balance_set_events
  balance_setDelegation
  balance_deleteDelegation
  balance_setAgentIdentity
  balance_set_memeJobAddress
  reviews_setThesis
  reviews_pushReviewAgent
  reviews_setAgentShare
  reviews_setAgentEscrow
  reviews_set_nextReviewId
  reviews_set_events
  reviews_set_balance
  reviews_setDelegation
  reviews_deleteDelegation
  reviews_setAgentIdentity
  reviews_set_memeJobAddress
  owner_setReview
  owner_setThesis
  owner_pushReviewAgent
  owner_setAgentShare
  owner_setAgentEscrow
  owner_set_nextReviewId
  owner_set_events
  owner_set_balance
  owner_setDelegation
  owner_deleteDelegation
  owner_setAgentIdentity
  owner_set_memeJobAddress
  MIN_SUBMISSION_FEE_setReview
  MIN_SUBMISSION_FEE_setThesis
  MIN_SUBMISSION_FEE_pushReviewAgent
  MIN_SUBMISSION_FEE_setAgentShare
  MIN_SUBMISSION_FEE_setAgentEscrow
  MIN_SUBMISSION_FEE_set_nextReviewId
  MIN_SUBMISSION_FEE_set_events
  MIN_SUBMISSION_FEE_set_balance
  MIN_SUBMISSION_FEE_setDelegation
  MIN_SUBMISSION_FEE_deleteDelegation
  MIN_SUBMISSION_FEE_setAgentIdentity
  MIN_SUBMISSION_FEE_set_memeJobAddress
  REVIEW_WINDOW_setReview
  REVIEW_WINDOW_setThesis
  REVIEW_WINDOW_pushReviewAgent
  REVIEW_WINDOW_setAgentShare
  REVIEW_WINDOW_setAgentEscrow
  REVIEW_WINDOW_set_nextReviewId
  REVIEW_WINDOW_set_events
  REVIEW_WINDOW_set_balance
  REVIEW_WINDOW_setDelegation
  REVIEW_WINDOW_deleteDelegation
  REVIEW_WINDOW_setAgentIdentity
  REVIEW_WINDOW_set_memeJobAddress
  EXECUTION_GAS_LIMIT_setReview
  EXECUTION_GAS_LIMIT_setThesis
  EXECUTION_GAS_LIMIT_pushReviewAgent
  EXECUTION_GAS_LIMIT_setAgentShare
  EXECUTION_GAS_LIMIT_setAgentEscrow
  EXECUTION_GAS_LIMIT_set_nextReviewId
  EXECUTION_GAS_LIMIT_set_events
  EXECUTION_GAS_LIMIT_set_balance
  EXECUTION_GAS_LIMIT_setDelegation
  EXECUTION_GAS_LIMIT_deleteDelegation
  EXECUTION_GAS_LIMIT_setAgentIdentity
  EXECUTION_GAS_LIMIT_set_memeJobAddress
  self_setDelegation
  self_deleteDelegation
  self_setAgentIdentity
  self_set_memeJobAddress
  nextReviewId_setDelegation
  nextReviewId_deleteDelegation
  nextReviewId_setAgentIdentity
  nextReviewId_set_memeJobAddress
  events_setDelegation
  events_deleteDelegation
  events_setAgentIdentity
  events_set_memeJobAddress
  memeJobAddress_setDelegation
  memeJobAddress_deleteDelegation
  memeJobAddress_setAgentIdentity
  getReview_setDelegation
  getReview_deleteDelegation
  getReview_setAgentIdentity
  getReview_set_memeJobAddress
  getThesis_setDelegation
  getThesis_deleteDelegation
  getThesis_setAgentIdentity
  getThesis_set_memeJobAddress
  getReviewAgents_setDelegation
  getReviewAgents_deleteDelegation
  getReviewAgents_setAgentIdentity
  getReviewAgents_set_memeJobAddress
  getAgentShare_setDelegation
  getAgentShare_deleteDelegation
  getAgentShare_setAgentIdentity
  getAgentShare_set_memeJobAddress
  balance_set_balance
  agentEscrow_setAgentEscrow
  reviews_setReview
  delegations_setDelegation
  delegations_deleteDelegation
  agentIdentities_setAgentIdentity
  : state_rw.

#[local] Arguments setDelegation : simpl never.
#[local] Arguments deleteDelegation : simpl never.
#[local] Arguments setAgentIdentity : simpl never.
#[local] Arguments set_memeJobAddress : simpl never.

(** ** Sums over a mapping *)

Lemma total_empty {A} (f : A -> N) : total f ∅ = 0.
Proof. unfold total. apply map_fold_empty. Qed.

Lemma total_insert_fresh {A} (f : A -> N) (m : gmap N A) k v :
  m !! k = None -> total f (<[k := v]> m) = f v + total f m.
Proof.
  intros Hk. unfold total.
  rewrite map_fold_insert_L; [reflexivity | | exact Hk].
  intros. lia.
Qed.

Lemma total_insert {A} (f : A -> N) (m : gmap N A) k v :
  total f (<[k := v]> m) + from_option f 0 (m !! k) = total f m + f v.
Proof.
  destruct (m !! k) as [y |] eqn:Hk; simpl.
  - rewrite <- (insert_delete_id m k y Hk) at 2.
    rewrite <- (insert_delete_eq m k v).
    rewrite !total_insert_fresh by apply lookup_delete_eq. lia.
  - rewrite total_insert_fresh by exact Hk. lia.
Qed.

(** ** Rules of the logic [wpG] *)

Lemma wpG_mono {A} (p : Prog A) (Q Q' : A -> State -> Prop) :
  (forall a s, Q a s -> Q' a s) -> wpG p Q -> wpG p Q'.
Proof.
  induction p as [a st | e | st c k IH]; simpl; intros HQ Hwp; auto.
  intros st1 st' r Hh HG. eapply IH; [exact HQ | exact (Hwp st1 st' r Hh HG)].
Qed.

Lemma wpG_bindP {A B} (p : Prog A) (f : A -> State -> Prog B) (Q : B -> State -> Prop) :
  wpG p (fun a st => wpG (f a st) Q) -> wpG (bindP p f) Q.
Proof.
  induction p as [a st | e | st c k IH]; simpl; intros Hwp; auto.
  intros st1 st' r Hh HG. apply IH. exact (Hwp st1 st' r Hh HG).
Qed.

Lemma wpG_assume {A} (P : Prop) (p : Prog A) (Q : A -> State -> Prop) :
  (P -> wpG p Q) -> wpG p (fun a s => P -> Q a s).
Proof.
  induction p as [a st | e | st c k IH]; simpl; intros H; auto.
  intros st1 st' r Hh HG. apply IH. intros HP. exact (H HP st1 st' r Hh HG).
Qed.

Lemma wpG_conj {A} (p : Prog A) (Q1 Q2 : A -> State -> Prop) :
  wpG p Q1 -> wpG p Q2 -> wpG p (fun a s => Q1 a s /\ Q2 a s).
Proof.
  induction p as [a st | e | st c k IH]; simpl; intros H1 H2; auto.
  intros st1 st' r Hh HG. apply IH; [exact (H1 st1 st' r Hh HG) | exact (H2 st1 st' r Hh HG)].
Qed.

Lemma handed_R st c st1 : handed st c st1 -> R st st1.
Proof. intros [-> | [_ ->]]; [apply R_refl | apply R_set_balance]. Qed.

(** What [wp] proves under the rely [R] holds under the stronger [G]. *)
Lemma wp_wpG {A} (p : Prog A) (Q : A -> State -> list Interaction -> Prop) E :
  wp p Q E -> wpG p (fun a s => exists tr, Q a s tr).
Proof.
  revert Q. induction p as [a st | e | st c k IH]; simpl; intros Q Hwp; eauto.
  intros st1 st' r Hh [HR _].
  eapply wpG_mono; [| apply (IH st' r _ (Hwp st' r (R_trans _ _ _ (handed_R _ _ _ Hh) HR)))].
  simpl. intros a s [tr Htr]. eauto.
Qed.

(** ** [G] is a preorder *)

Lemma Mono_refl s : Mono 0 s s.
Proof.
  constructor.
  - repeat split.
  - lia.
  - intros. split; [reflexivity | lia].
  - intros. split; reflexivity.
  - intros. reflexivity.
  - intros a i Hi. exists i. split; [exact Hi |]. split; [reflexivity |].
    split; [reflexivity | lia].
  - lia.
Qed.

Lemma Mono_trans b1 b2 s1 s2 s3 : Mono b1 s1 s2 -> Mono b2 s2 s3 -> Mono (b1 + b2) s1 s3.
Proof.
  intros [c1 n1 r1 t1 a1 i1 k1] [c2 n2 r2 t2 a2 i2 k2]. constructor.
  - destruct c1 as (? & ? & ? & ? & ?), c2 as (? & ? & ? & ? & ?).
    repeat split; congruence.
  - lia.
  - intros id Hx. destruct (r1 id Hx) as [E1 L1].
    assert (Hx2 : exists_ (getReview s2 id) = true).
    { unfold terms in E1. injection E1 as _ _ _ _ E. congruence. }
    destruct (r2 id Hx2) as [E2 L2]. split; [congruence | lia].
  - intros id a Hin. destruct (t1 id a Hin) as [E1 P1].
    assert (Hin2 : a ∈ getReviewAgents s2 id).
    { destruct (a1 id) as [k ->]. apply elem_of_app. auto. }
    destruct (t2 id a Hin2) as [E2 P2]. split; congruence.
  - intros id. etransitivity; [apply a1 | apply a2].
  - intros a i Hi. destruct (i1 a i Hi) as (i' & H1 & H2 & H3 & H4).
    destruct (i2 a i' H1) as (i'' & G1 & G2 & G3 & G4).
    exists i''. repeat split; [assumption | congruence | congruence | lia].
  - lia.
Qed.

Lemma Mono_weaken b b' s s' : (b <= b')%Z -> Mono b s s' -> Mono b' s s'.
Proof. intros Hb [c n r t a i k]. constructor; auto. lia. Qed.

Lemma G_refl s : G s s.
Proof. split; [apply R_refl |]. intros _ HW. split; [exact HW | apply Mono_refl]. Qed.

Lemma G_trans s1 s2 s3 : G s1 s2 -> G s2 s3 -> G s1 s3.
Proof.
  intros [R1 W1] [R2 W2]. split; [eapply R_trans; eauto |].
  intros HI HW. destruct (R1 HI) as [HI2 _]. destruct (W1 HI HW) as [HW2 M1].
  destruct (W2 HI2 HW2) as [HW3 M2]. split; [exact HW3 |].
  apply (Mono_trans 0 0 _ _ _ M1 M2).
Qed.

Lemma Keeps_refl s : Inv s -> Wf s -> Keeps 0 s s.
Proof. intros HI HW. split; [| split; [| split]]; auto using Frozen_refl, Mono_refl. Qed.

Lemma Keeps_trans b1 b2 s1 s2 s3 :
  Keeps b1 s1 s2 -> Keeps b2 s2 s3 -> Keeps (b1 + b2) s1 s3.
Proof.
  intros (_ & _ & F1 & M1) (I3 & W3 & F2 & M2).
  split; [| split; [| split]]; eauto using Frozen_trans, Mono_trans.
Qed.

Lemma Keeps_weaken b b' s s' : (b <= b')%Z -> Keeps b s s' -> Keeps b' s s'.
Proof.
  intros Hb (H1 & H2 & H3 & H4).
  split; [| split; [| split]]; eauto using Mono_weaken.
Qed.

(** ** Soundness of [wpG] for [run] *)

(** An outcome that is a result satisfies [Q]. *)
Lemma result_record {A} st c r (o : Outcome A) (Q : A -> State -> Prop) :
  match o with Ok a s _ => Q a s | Fail _ => True end ->
  match record st c r o with Ok a s _ => Q a s | Fail _ => True end.
Proof. destruct o; simpl; auto. Qed.

Lemma run_nil_G {A} (p : Prog A) (Q : A -> State -> Prop) :
  wpG p Q -> match run_nil p with Ok a s _ => Q a s | Fail _ => True end.
Proof.
  induction p as [a st | e | st c k IH]; simpl; intros Hwp; auto.
  apply result_record, IH. apply (Hwp st st XRevert); [left; reflexivity | apply G_refl].
Qed.

Section SoundnessG.

Hypothesis dispatch_G : forall now c st, wpG (dispatch now c st) (fun _ st' => G st st').

Lemma run_G_mut :
  (forall o now A (p : Prog A) (Q : A -> State -> Prop),
     wpG p Q -> match run now p o with Ok a s _ => Q a s | Fail _ => True end) /\
  (forall cbs now st, G st (run_callbacks now cbs st)).
Proof.
  apply Oracle_Reentry_ind.
  - intros now A p Q Hwp. simpl. apply run_nil_G. exact Hwp.
  - intros cbs IHc answer rest IHr now A p Q Hwp.
    destruct p as [a st | e | st c k]; simpl in *; try exact Hwp; auto.
    destruct (is_static c).
    { apply result_record, IHr. apply (Hwp st); [left; reflexivity | apply G_refl]. }
    destruct (balance st <? ext_value c) eqn:Hb.
    { apply result_record, IHr. apply (Hwp st); [left; reflexivity | apply G_refl]. }
    apply N.ltb_ge in Hb.
    destruct answer;
      try (apply result_record, IHr;
           apply (Hwp (set_balance (balance st - ext_value c) st));
           [right; split; [exact Hb | reflexivity] | apply IHc]).
    apply result_record, IHr. apply (Hwp st); [left; reflexivity | apply G_refl].
  - intros now st. simpl. apply G_refl.
  - intros c inner IHi rest IHr now st. simpl.
    eapply G_trans; [| apply IHr].
    specialize (IHi now unit (dispatch now c st) _ (dispatch_G now c st)).
    destruct (run now (dispatch now c st) inner); simpl in IHi.
    + exact IHi.
    + apply G_refl.
Qed.

End SoundnessG.

(** ** The slack after a write *)

Lemma review_owed_lookup s id :
  from_option review_owed 0 (reviews s !! id) = review_owed (getReview s id).
Proof. unfold getReview. destruct (reviews s !! id); reflexivity. Qed.

Lemma escrow_lookup s a :
  from_option (fun v => v) 0 (agentEscrow s !! a) = getAgentEscrow s a.
Proof. unfold getAgentEscrow. destruct (agentEscrow s !! a); reflexivity. Qed.

Lemma slack_set_balance v s :
  slack (set_balance v s) = (slack s - Z.of_N (balance s) + Z.of_N v)%Z.
Proof. unfold slack, owed. rw_state. lia. Qed.

Lemma slack_setAgentEscrow a v s :
  slack (setAgentEscrow a v s) = (slack s + Z.of_N (getAgentEscrow s a) - Z.of_N v)%Z.
Proof.
  unfold slack, owed. rw_state.
  pose proof (total_insert (fun v => v) (agentEscrow s) a v) as H.
  rewrite escrow_lookup in H. lia.
Qed.

Lemma slack_setReview id r s :
  slack (setReview id r s) =
  (slack s + Z.of_N (review_owed (getReview s id)) - Z.of_N (review_owed r))%Z.
Proof.
  unfold slack, owed. rw_state.
  pose proof (total_insert review_owed (reviews s) id r) as H.
  rewrite review_owed_lookup in H. lia.
Qed.

Lemma slack_setThesis id a t s : slack (setThesis id a t s) = slack s.
Proof. reflexivity. Qed.
Lemma slack_pushReviewAgent id a s : slack (pushReviewAgent id a s) = slack s.
Proof. reflexivity. Qed.
Lemma slack_setAgentShare id a sh s : slack (setAgentShare id a sh s) = slack s.
Proof. reflexivity. Qed.
Lemma slack_set_nextReviewId v s : slack (set_nextReviewId v s) = slack s.
Proof. reflexivity. Qed.
Lemma slack_set_events v s : slack (set_events v s) = slack s.
Proof. reflexivity. Qed.
Lemma slack_setDelegation d a x s : slack (setDelegation d a x s) = slack s.
Proof. reflexivity. Qed.
Lemma slack_deleteDelegation d a s : slack (deleteDelegation d a s) = slack s.
Proof. reflexivity. Qed.
Lemma slack_setAgentIdentity a x s : slack (setAgentIdentity a x s) = slack s.
Proof. reflexivity. Qed.
Lemma slack_set_memeJobAddress v s : slack (set_memeJobAddress v s) = slack s.
Proof. reflexivity. Qed.

#[local] Hint Rewrite slack_set_balance slack_setAgentEscrow slack_setReview
  slack_setThesis slack_pushReviewAgent slack_setAgentShare slack_set_nextReviewId
  slack_set_events slack_setDelegation slack_deleteDelegation slack_setAgentIdentity
  slack_set_memeJobAddress : state_rw.

#[local] Arguments slack : simpl never.

Lemma getAgentEscrow_setAgentEscrow a v s a' :
  getAgentEscrow (setAgentEscrow a v s) a' = if decide (a = a') then v else getAgentEscrow s a'.
Proof.
  unfold getAgentEscrow. rw_state. rewrite lookup_insert. case_decide; reflexivity.
Qed.

(** ** Steps that keep the terms of every review *)

Lemma terms_inv r r' :
  terms r' = terms r ->
  tokenAddress r' = tokenAddress r /\ creator r' = creator r /\
  submissionFee r' = submissionFee r /\ deadline r' = deadline r /\ exists_ r' = exists_ r.
Proof. unfold terms. intros [= -> -> -> -> ->]. repeat split. Qed.

Section TermsStep.

Variables (st st' : State) (b : Z).
Hypothesis HW : Wf st.
Hypothesis Hconfig :
  owner st' = owner st /\ self st' = self st /\ REVIEW_WINDOW st' = REVIEW_WINDOW st /\
  EXECUTION_GAS_LIMIT st' = EXECUTION_GAS_LIMIT st /\
  MIN_SUBMISSION_FEE st' = MIN_SUBMISSION_FEE st.
Hypothesis Hnext : nextReviewId st' = nextReviewId st.
Hypothesis Hreview : forall id,
  terms (getReview st' id) = terms (getReview st id) /\
  totalPledged (getReview st' id) = totalPledged (getReview st id).
Hypothesis Hthesis : forall id a, getThesis st' id a = getThesis st id a.
Hypothesis Hagents : forall id, getReviewAgents st' id = getReviewAgents st id.
Hypothesis Hpledged : forall id a,
  pledgedAmount (getAgentShare st' id a) = pledgedAmount (getAgentShare st id a).
Hypothesis Hunp : forall id a,
  totalPurchased (getReview st' id) = 0 -> tokenShare (getAgentShare st' id a) = 0.
Hypothesis Hwfd : forall d a x, delegations st' !! (d, a) = Some x ->
  delegator x = d /\ delegate x = a /\ d <> 0 /\ a <> 0 /\ 0 < maxAmount x.
Hypothesis Hwfi : forall a i, agentIdentities st' !! a = Some i ->
  agentAddress i = a /\ a <> 0 /\ profitableTrades i <= totalTrades i /\
  reputationScore i = (2 * Z.of_N (profitableTrades i) - Z.of_N (totalTrades i))%Z.
Hypothesis Hmi : forall a i, agentIdentities st !! a = Some i ->
  exists i', agentIdentities st' !! a = Some i' /\
             metadataURI i' = metadataURI i /\
             registrationTime i' = registrationTime i /\
             totalTrades i <= totalTrades i'.
Hypothesis Hslack : (slack st - b <= slack st')%Z.

Lemma Wf_terms : Wf st'.
Proof.
  destruct HW as [W1 W2 W3 W4 W5 W6 W7 W8 W9].
  destruct Hconfig as (_ & _ & _ & _ & Hmin).
  constructor; auto.
  - intros id. rewrite Hnext. destruct (Hreview id) as [Ht _].
    apply terms_inv in Ht as (_ & _ & _ & _ & ->). auto.
  - intros id. destruct (Hreview id) as [Ht _].
    apply terms_inv in Ht as (-> & -> & -> & _ & ->). rewrite Hmin. auto.
  - intros id a. rewrite Hagents, Hthesis. destruct (Hreview id) as [Ht _].
    apply terms_inv in Ht as (_ & _ & _ & -> & _). auto.
  - intros id a. rewrite Hagents, Hthesis. auto.
  - intros id a. rewrite Hthesis, Hpledged. auto.
  - intros id. destruct (Hreview id) as [Ht _].
    apply terms_inv in Ht as (_ & _ & -> & _ & ->). auto.
Qed.

Lemma Mono_terms : Mono b st st'.
Proof.
  constructor; auto.
  - rewrite Hnext. apply N.le_refl.
  - intros id _. destruct (Hreview id) as [Ht Hp]. split; [exact Ht |].
    rewrite Hp. apply N.le_refl.
  - intros id. rewrite Hagents. reflexivity.
Qed.

End TermsStep.

Lemma Step_terms st st' b :
  Wf st ->
  (owner st' = owner st /\ self st' = self st /\ REVIEW_WINDOW st' = REVIEW_WINDOW st /\
   EXECUTION_GAS_LIMIT st' = EXECUTION_GAS_LIMIT st /\
   MIN_SUBMISSION_FEE st' = MIN_SUBMISSION_FEE st) ->
  nextReviewId st' = nextReviewId st ->
  (forall id, terms (getReview st' id) = terms (getReview st id) /\
              totalPledged (getReview st' id) = totalPledged (getReview st id)) ->
  (forall id a, getThesis st' id a = getThesis st id a) ->
  (forall id, getReviewAgents st' id = getReviewAgents st id) ->
  (forall id a, pledgedAmount (getAgentShare st' id a) =
                pledgedAmount (getAgentShare st id a)) ->
  (forall id a, totalPurchased (getReview st' id) = 0 ->
                tokenShare (getAgentShare st' id a) = 0) ->
  (forall d a x, delegations st' !! (d, a) = Some x ->
     delegator x = d /\ delegate x = a /\ d <> 0 /\ a <> 0 /\ 0 < maxAmount x) ->
  (forall a i, agentIdentities st' !! a = Some i ->
     agentAddress i = a /\ a <> 0 /\ profitableTrades i <= totalTrades i /\
     reputationScore i = (2 * Z.of_N (profitableTrades i) - Z.of_N (totalTrades i))%Z) ->
  (forall a i, agentIdentities st !! a = Some i ->
     exists i', agentIdentities st' !! a = Some i' /\
                metadataURI i' = metadataURI i /\
                registrationTime i' = registrationTime i /\
                totalTrades i <= totalTrades i') ->
  (slack st - b <= slack st')%Z ->
  Wf st' /\ Mono b st st'.
Proof.
  intros. split; [eapply Wf_terms | eapply Mono_terms]; eauto.
Qed.

Lemma identities_kept (m : gmap N AgentIdentity) a i :
  m !! a = Some i ->
  exists i', m !! a = Some i' /\ metadataURI i' = metadataURI i /\
             registrationTime i' = registrationTime i /\ totalTrades i <= totalTrades i'.
Proof. intros H. exists i. repeat split; auto; apply N.le_refl. Qed.

(** Closes the side conditions of [Step_terms] that a write leaves as
    they were. *)
Ltac step_side HW :=
  intros; rw_state;
  first [ reflexivity
        | split; reflexivity
        | repeat split; reflexivity
        | eapply (wf_unpurchased _ HW); eassumption
        | eapply (wf_delegation _ HW); eassumption
        | eapply (wf_identity _ HW); eassumption
        | eapply identities_kept; eassumption
        | lia
        | idtac ].

Ltac step_terms HW := apply Step_terms; [exact HW | step_side HW ..].

(** ** The entry points without external calls keep [Wf] and [Mono] *)

Lemma receive_G value st :
  Wf st -> wpG (receive value st) (fun _ s' => Wf s' /\ Mono 0 st s').
Proof. intros HW. unfold receive. unfold_monad. simpl. step_terms HW. Qed.

Lemma setMemeJobAddress_G sender a st :
  Wf st -> wpG (setMemeJobAddress sender a st) (fun _ s' => Wf s' /\ Mono 0 st s').
Proof.
  intros HW. unfold setMemeJobAddress. unfold_monad. split_ifs; auto. step_terms HW.
Qed.

Lemma registerDelegation_G sender a m e sig st :
  Wf st -> wpG (registerDelegation sender a m e sig st) (fun _ s' => Wf s' /\ Mono 0 st s').
Proof.
  intros HW. unfold registerDelegation. unfold_monad. split_ifs; auto.
  apply negb_true_iff, N.eqb_neq in Heqb. apply N.ltb_lt in Heqb0.
  step_terms HW.
  rewrite lookup_insert in H. case_decide; simplify_eq; simpl.
  - repeat split; auto; discriminate.
  - eapply (wf_delegation _ HW); eassumption.
Qed.

Lemma depositForAgent_G now sender value a st :
  Wf st -> wpG (depositForAgent now sender value a st) (fun _ s' => Wf s' /\ Mono 0 st s').
Proof.
  intros HW. unfold depositForAgent. unfold_monad. split_ifs; auto.
  step_terms HW.
Qed.

Lemma revokeDelegation_G sender a st :
  Wf st -> wpG (revokeDelegation sender a st) (fun _ s' => Wf s' /\ Mono 0 st s').
Proof.
  intros HW. unfold revokeDelegation. unfold_monad. split_ifs; auto.
  step_terms HW.
  apply lookup_delete_Some in H as [_ H].
  eapply (wf_delegation _ HW); eassumption.
Qed.

Lemma registerAgent_G now sender uri st :
  Wf st -> wpG (registerAgent now sender uri st) (fun _ s' => Wf s' /\ Mono 0 st s').
Proof.
  intros HW. unfold registerAgent. unfold_monad. split_ifs; auto.
  apply N.eqb_eq in Heqb.
  step_terms HW.
  - rewrite lookup_insert in H. case_decide; simplify_eq; simpl.
    + repeat split; auto; try discriminate; apply N.le_refl.
    + eapply (wf_identity _ HW); eassumption.
  - destruct (decide (a = N.pos sender)) as [-> | Hne].
    + unfold getAgentIdentity in Heqb. rewrite H in Heqb. simpl in Heqb.
      destruct (wf_identity _ HW _ _ H) as (Ha & _). congruence.
    + exists i. rewrite lookup_insert_ne by congruence.
      repeat split; auto; apply N.le_refl.
Qed.

Lemma updateReputation_G sender id a b st :
  Wf st -> wpG (updateReputation sender id a b st) (fun _ s' => Wf s' /\ Mono 0 st s').
Proof.
  intros HW. unfold updateReputation. unfold_monad. split_ifs; auto.
  all: apply negb_true_iff, N.eqb_neq in Heqb4.
  all: unfold getAgentIdentity in *.
  all: destruct (agentIdentities st !! a) as [i0 |] eqn:Hi0; simpl in *; [| congruence].
  all: destruct (wf_identity _ HW _ _ Hi0) as (Ha & Hnz & Hle & Hscore).
  all: step_terms HW.
  - rewrite lookup_insert in H. case_decide; simplify_eq; simpl.
    + unfold REPUTATION_WIN_DELTA. repeat split; auto; lia.
    + eapply (wf_identity _ HW); eassumption.
  - destruct (decide (a0 = a)) as [-> | Hne].
    + rewrite lookup_insert_eq. eexists. split; [reflexivity |]. simpl.
      simplify_eq. repeat split; lia.
    + exists i. rewrite lookup_insert_ne by congruence.
      repeat split; auto; apply N.le_refl.
  - rewrite lookup_insert in H. case_decide; simplify_eq; simpl.
    + unfold REPUTATION_LOSS_DELTA. repeat split; auto; lia.
    + eapply (wf_identity _ HW); eassumption.
  - destruct (decide (a0 = a)) as [-> | Hne].
    + rewrite lookup_insert_eq. eexists. split; [reflexivity |]. simpl.
      simplify_eq. repeat split; lia.
    + exists i. rewrite lookup_insert_ne by congruence.
      repeat split; auto; apply N.le_refl.
Qed.

(** ** The step of [submitThesis] *)

Section ThesisStep.

Variables (st st' : State) (id S p : N) (t : AgentThesis).
Hypothesis HI : Inv st.
Hypothesis HW : Wf st.
Hypothesis Hexists : exists_ (getReview st id) = true.
Hypothesis Hnew : agent (getThesis st id S) = 0.
Hypothesis Ht : agent t = S.
Hypothesis Htp : thesisPledgedAmount t = p.
Hypothesis Hbull : bullish t = true <-> 0 < p.
Hypothesis Htime : submittedAt t < deadline (getReview st id).
Hypothesis Hconfig :
  owner st' = owner st /\ self st' = self st /\ REVIEW_WINDOW st' = REVIEW_WINDOW st /\
  EXECUTION_GAS_LIMIT st' = EXECUTION_GAS_LIMIT st /\
  MIN_SUBMISSION_FEE st' = MIN_SUBMISSION_FEE st.
Hypothesis Hnext : nextReviewId st' = nextReviewId st.
Hypothesis Hreview : forall id', getReview st' id' =
  if decide (id = id')
  then with_totalPledged (totalPledged (getReview st id) + p) (getReview st id)
  else getReview st id'.
Hypothesis Hthesis : forall id' a', getThesis st' id' a' =
  if decide ((id, S) = (id', a')) then t else getThesis st id' a'.
Hypothesis Hagents : forall id', getReviewAgents st' id' =
  if decide (id = id') then getReviewAgents st id ++ [S] else getReviewAgents st id'.
Hypothesis Hshare : forall id' a', getAgentShare st' id' a' =
  if decide ((id, S) = (id', a'))
  then {| pledgedAmount := p; tokenShare := 0; claimed := false |}
  else getAgentShare st id' a'.
Hypothesis Hdeleg : delegations st' = delegations st.
Hypothesis Hident : agentIdentities st' = agentIdentities st.
Hypothesis Hslack : (slack st <= slack st')%Z.

Lemma Wf_submitThesis : Wf st'.
Proof.
  pose proof (submitThesis_fresh st id S HI Hnew) as Hfresh.
  destruct HW as [W1 W2 W3 W4 W5 W6 W7 W8 W9].
  destruct Hconfig as (_ & _ & _ & _ & Hmin).
  constructor.
  - intros id'. rewrite Hnext, Hreview. case_decide; subst; simpl; auto.
  - intros id'. rewrite Hmin, Hreview. case_decide; subst; simpl; auto.
  - intros id' a. rewrite Hagents, Hthesis, Hreview.
    destruct (decide (id = id')) as [<- |]; case_decide; simplify_eq; simpl; auto.
    intros Hin. apply elem_of_app in Hin as [Hin | Hin]; auto.
    apply list_elem_of_singleton in Hin. congruence.
  - intros id' a. rewrite Hagents, Hthesis.
    destruct (decide (id = id')) as [<- |]; case_decide; simplify_eq; simpl; auto.
    + intros Hin. exfalso. apply Hin, elem_of_app. right. constructor.
    + intros Hin. apply W4. intros Hin'. apply Hin, elem_of_app. auto.
  - intros id' a. rewrite Hthesis, Hshare. case_decide; simplify_eq; simpl; auto.
  - intros id' a. rewrite Hreview, Hshare.
    destruct (decide (id = id')) as [<- |]; case_decide; simplify_eq; simpl; auto.
  - rewrite Hdeleg. exact W7.
  - rewrite Hident. exact W8.
  - intros id'. rewrite Hreview. case_decide; subst; simpl; auto.
Qed.

Lemma Mono_submitThesis : Mono 0 st st'.
Proof.
  pose proof (submitThesis_fresh st id S HI Hnew) as Hfresh.
  constructor.
  - exact Hconfig.
  - rewrite Hnext. apply N.le_refl.
  - intros id' _. rewrite Hreview. destruct (decide (id = id')) as [<- |]; simpl.
    + split; [reflexivity | lia].
    + split; [reflexivity | apply N.le_refl].
  - intros id' a Hin. rewrite Hthesis, Hshare.
    destruct (decide ((id, S) = (id', a))) as [[= <- <-] |];
      [contradiction | split; reflexivity].
  - intros id'. rewrite Hagents. destruct (decide (id = id')) as [<- |]; [| reflexivity].
    exists [S]. reflexivity.
  - intros a i Hi. rewrite Hident. apply identities_kept, Hi.
  - lia.
Qed.

End ThesisStep.

Lemma submitThesis_G now sender id text b p d st :
  Inv st -> Wf st ->
  wpG (submitThesis now sender id text b p d st) (fun _ s' => Wf s' /\ Mono 0 st s').
Proof.
  intros HI HW. unfold submitThesis. unfold_monad. split_ifs; auto.
  - apply negb_true_iff in Heqb1. apply N.eqb_eq in Heqb5.
    apply N.ltb_lt in Heqb2, Heqb7. apply N.leb_le in Heqb9. rw_state.
    assert (Hs : (slack st <=
              slack (set_events (events st ++ [ThesisSubmitted id (N.pos sender) true p])
                (pushReviewAgent id (N.pos sender)
                   (setThesis id (N.pos sender)
                      {| agent := N.pos sender; thesis := text; bullish := true;
                         thesisPledgedAmount := p; submittedAt := now |}
                      (setAgentShare id (N.pos sender)
                         {| pledgedAmount := p; tokenShare := 0; claimed := false |}
                         (setReview id
                            (with_totalPledged (totalPledged (getReview st id) + p)
                               (getReview st id))
                            (setAgentEscrow (N.pos sender)
                               (getAgentEscrow st (N.pos sender) - p) st)))))))%Z).
    { rw_state. unfold review_owed. simpl. rewrite Heqb1. lia. }
    split.
    + eapply (Wf_submitThesis st _ id (N.pos sender) p); eauto;
        try (intros; rw_state; reflexivity); try (repeat split; fail);
        simpl; tauto.
    + eapply (Mono_submitThesis st _ id (N.pos sender) p); eauto;
        try (intros; rw_state; reflexivity); try (repeat split; fail);
        simpl; tauto.
  - apply negb_true_iff in Heqb1. apply N.eqb_eq in Heqb5. apply N.ltb_lt in Heqb2.
    assert (Hfresh := submitThesis_fresh st id (N.pos sender) HI Heqb5).
    assert (Hr : forall id', getReview st id' =
              if decide (id = id')
              then with_totalPledged (totalPledged (getReview st id) + 0) (getReview st id)
              else getReview st id').
    { intros. case_decide; subst; [rewrite with_totalPledged_same |]; reflexivity. }
    assert (Hsh : forall id' a', getAgentShare st id' a' =
              if decide ((id, N.pos sender) = (id', a'))
              then {| pledgedAmount := 0; tokenShare := 0; claimed := false |}
              else getAgentShare st id' a').
    { intros. case_decide; simplify_eq; [apply (inv_nonmember st HI); auto | reflexivity]. }
    split.
    + eapply (Wf_submitThesis st _ id (N.pos sender) 0); eauto;
        try (intros; rw_state; reflexivity); try (intros; rw_state; auto; fail);
        try (repeat split; fail); simpl; try assumption.
      split; [discriminate | lia].
    + eapply (Mono_submitThesis st _ id (N.pos sender) 0); eauto;
        try (intros; rw_state; reflexivity); try (intros; rw_state; auto; fail);
        try (repeat split; fail); simpl; try assumption;
        try (split; [discriminate | lia]); rw_state; lia.
Qed.

(** ** External calls *)

Lemma Step_trans b1 b2 s1 s2 s3 :
  Wf s2 /\ Mono b1 s1 s2 -> Wf s3 /\ Mono b2 s2 s3 -> Wf s3 /\ Mono (b1 + b2) s1 s3.
Proof. intros [_ M1] [W3 M2]. split; [exact W3 | eapply Mono_trans; eauto]. Qed.

(** What the contract knows of the state [st'] it goes on from after the
    external call [c] made in [st]: at most the value of the call has
    left. *)
Lemma exposed st c st1 st' :
  Inv st -> Wf st -> handed st c st1 -> G st1 st' ->
  Keeps (Z.of_N (ext_value c)) st st'.
Proof.
  intros HI HW Hh [HR HG].
  destruct Hh as [-> | [Hle ->]].
  - destruct (HR HI) as [HI' HF]. destruct (HG HI HW) as [HW' HM].
    split; [| split; [| split]]; auto. eapply Mono_weaken; [| exact HM]. lia.
  - set (st1 := set_balance (balance st - ext_value c) st) in *.
    assert (HI1 : Inv st1) by (eapply Inv_core; [| exact HI]; repeat split).
    assert (HS1 : Wf st1 /\ Mono (Z.of_N (ext_value c)) st st1).
    { unfold st1. step_terms HW. }
    destruct HS1 as [HW1 HM1].
    destruct (HR HI1) as [HI' HF]. destruct (HG HI1 HW1) as [HW' HM].
    split; [| split; [| split]]; auto.
    + eapply Frozen_trans; [apply Frozen_set_balance | exact HF].
    + replace (Z.of_N (ext_value c)) with (Z.of_N (ext_value c) + 0)%Z by lia.
      eapply Mono_trans; eauto.
Qed.

(** ** [claimTokens] *)

Lemma claimTokens_G sender id st :
  Inv st -> Wf st ->
  wpG (claimTokens sender id st) (fun _ s' => Wf s' /\ Mono 0 st s').
Proof.
  intros HI HW. unfold claimTokens, call_transfer. unfold_monad. split_ifs; auto.
  intros st1 st' r Hh HG.
  apply N.ltb_lt in Heqb1.
  match type of Hh with handed ?s _ _ => set (s1 := s) in * end.
  assert (HI1 : Inv s1).
  { eapply (Inv_claim st s1 id (N.pos sender)); eauto;
      intros; unfold s1; rw_state; reflexivity. }
  assert (HS1 : Wf s1 /\ Mono 0 st s1).
  { unfold s1. step_terms HW.
    - case_decide; simplify_eq; reflexivity.
    - revert H. case_decide; simplify_eq; simpl; apply (wf_unpurchased _ HW). }
  destruct HS1 as [HW1 HM1].
  destruct (exposed s1 _ st1 st' HI1 HW1 Hh HG) as (HI' & HW' & HF' & HM').
  simpl in HM'. clearbody s1.
  destruct r as [| | w | [|] | rc a]; simpl; auto.
  apply (Step_trans 0 0 st st'); [split; [exact HW' |] |].
  - apply (Mono_trans 0 0 _ _ _ HM1 HM').
  - step_terms HW'.
Qed.

(** ** [submitToken] *)

Section FreshTerms.

Variables (st st' : State) (r : TokenReview) (b : Z).
Hypothesis HI : Inv st.
Hypothesis HW : Wf st.
Hypothesis Hr : exists_ r = true /\ totalPurchased r = 0 /\
  tokenAddress r <> 0 /\ creator r <> 0 /\ MIN_SUBMISSION_FEE st <= submissionFee r.
Hypothesis Hconfig :
  owner st' = owner st /\ self st' = self st /\ REVIEW_WINDOW st' = REVIEW_WINDOW st /\
  EXECUTION_GAS_LIMIT st' = EXECUTION_GAS_LIMIT st /\
  MIN_SUBMISSION_FEE st' = MIN_SUBMISSION_FEE st.
Hypothesis Hnext : nextReviewId st' = nextReviewId st + 1.
Hypothesis Hreview : forall id', getReview st' id' =
  if decide (nextReviewId st = id') then r else getReview st id'.
Hypothesis Hthesis : forall id' a', getThesis st' id' a' = getThesis st id' a'.
Hypothesis Hagents : forall id', getReviewAgents st' id' = getReviewAgents st id'.
Hypothesis Hshare : forall id' a', getAgentShare st' id' a' = getAgentShare st id' a'.
Hypothesis Hdeleg : delegations st' = delegations st.
Hypothesis Hident : agentIdentities st' = agentIdentities st.
Hypothesis Hslack : (slack st - b <= slack st')%Z.

Lemma Wf_fresh : Wf st'.
Proof.
  destruct (fresh_unborn st HI) as [_ Ha].
  destruct Hr as (r1 & r2 & r3 & r4 & r5).
  destruct Hconfig as (_ & _ & _ & _ & Hmin).
  destruct HW as [W1 W2 W3 W4 W5 W6 W7 W8 W9].
  constructor.
  - intros id'. rewrite Hnext, Hreview. intros Hlt.
    destruct (decide (nextReviewId st = id')) as [| Hne]; [exact r1 |].
    apply W1. clear - Hlt Hne. lia.
  - intros id'. rewrite Hmin, Hreview.
    destruct (decide (nextReviewId st = id')); [intros _; auto | apply W2].
  - intros id' a. rewrite Hagents, Hthesis, Hreview.
    destruct (decide (nextReviewId st = id')) as [<- |]; [| apply W3].
    rewrite Ha. intros Hin. apply not_elem_of_nil in Hin. contradiction.
  - intros id' a. rewrite Hagents, Hthesis. apply W4.
  - intros id' a. rewrite Hthesis, Hshare. apply W5.
  - intros id' a. rewrite Hreview, Hshare.
    destruct (decide (nextReviewId st = id')) as [<- |]; [| apply W6].
    intros _. rewrite (inv_nonmember st HI (nextReviewId st) a); [reflexivity |].
    rewrite Ha. apply not_elem_of_nil.
  - rewrite Hdeleg. exact W7.
  - rewrite Hident. exact W8.
  - intros id'. rewrite Hreview.
    destruct (decide (nextReviewId st = id')); [congruence | apply W9].
Qed.

Lemma Mono_fresh : Mono b st st'.
Proof.
  constructor.
  - exact Hconfig.
  - rewrite Hnext. apply N.le_add_r.
  - intros id' Hx. rewrite Hreview.
    destruct (decide (nextReviewId st = id')) as [<- |].
    + rewrite (inv_fresh st HI) in Hx; [discriminate | apply N.le_refl].
    + split; [reflexivity | apply N.le_refl].
  - intros id' a _. rewrite Hthesis, Hshare. split; reflexivity.
  - intros id'. rewrite Hagents. reflexivity.
  - intros a i Hi. rewrite Hident. apply identities_kept, Hi.
  - exact Hslack.
Qed.

End FreshTerms.

Lemma review_owed_unborn s id :
  Inv s -> Wf s -> exists_ (getReview s id) = false -> review_owed (getReview s id) = 0.
Proof.
  intros HI HW Hx. unfold review_owed.
  destruct (inv_unborn s HI id Hx) as [-> Ha].
  rewrite (wf_unborn s HW id Hx), <- (inv_sum s HI id), Ha. reflexivity.
Qed.

Lemma review_owed_scheduleAddress a r :
  review_owed (with_scheduleAddress a r) = review_owed r.
Proof. reflexivity. Qed.

Lemma Step_scheduleAddress rid a e s :
  Wf s ->
  Wf (set_events e (setReview rid (with_scheduleAddress a (getReview s rid)) s)) /\
  Mono 0 s (set_events e (setReview rid (with_scheduleAddress a (getReview s rid)) s)).
Proof.
  intros HW. step_terms HW.
  - case_decide; subst; split; reflexivity.
  - revert H. case_decide; subst; simpl; apply (wf_unpurchased _ HW).
  - rewrite review_owed_scheduleAddress. lia.
Qed.

Lemma submitToken_G now sender value token st :
  Inv st -> Wf st ->
  wpG (submitToken now sender value token st)
      (fun rid s' =>
         (Wf s' /\ Mono 0 st s') /\
         nextReviewId st <= rid /\ rid < nextReviewId s' /\
         terms (getReview s' rid) =
           (token, N.pos sender, value, now + REVIEW_WINDOW st, true) /\
         MIN_SUBMISSION_FEE st <= value /\ token <> 0).
Proof.
  intros HI HW. unfold submitToken, call_addressToMemeTokenMapping, call_scheduleCall.
  unfold_monad. split_ifs; auto.
  apply N.leb_le in Heqb. apply negb_true_iff, N.eqb_neq in Heqb0.
  intros s0' s1 r1 Hh1 HG1.
  set (s0 := set_balance (balance st + value) st) in *.
  assert (HI0 : Inv s0) by (eapply Inv_core; [| exact HI]; repeat split).
  assert (HS0 : Wf s0 /\ Mono (- Z.of_N value) st s0) by (unfold s0; step_terms HW).
  destruct HS0 as [HW0 HM0].
  destruct (exposed s0 _ s0' s1 HI0 HW0 Hh1 HG1) as (HI1 & HW1 & _ & HM1).
  simpl in HM1.
  pose proof (Mono_trans _ _ _ _ _ HM0 HM1) as HM01.
  clear HM0 HM1 HG1 Hh1 HI0 HW0. clearbody s0.
  destruct r1; simpl; auto. split_ifs; auto.
  intros s2' s3 r3 Hh3 HG3.
  match type of Hh3 with handed ?s _ _ => set (s2 := s) in * end.
  set (rid := nextReviewId s1) in *.
  assert (Hfresh : exists_ (getReview s1 rid) = false).
  { apply (inv_fresh s1 HI1). apply N.le_refl. }
  assert (HI2 : Inv s2).
  { eapply (Inv_fresh s1 s2); eauto; try (intros; unfold s2; rw_state; reflexivity).
    simpl. auto. }
  destruct (mono_config _ _ _ HM01) as (_ & _ & Hwin & _ & Hmin).
  assert (HS2 : Wf s2 /\ Mono (Z.of_N value) s1 s2).
  { split; [eapply (Wf_fresh s1 s2) | eapply (Mono_fresh s1 s2)]; eauto;
      try (intros; unfold s2; rw_state; reflexivity);
      try (unfold s2; rw_state; repeat split; fail).
    all: try (simpl; rewrite Hmin; repeat split; auto; discriminate).
    all: unfold s2; rw_state; fold rid;
      rewrite (review_owed_unborn s1 rid HI1 HW1 Hfresh);
      unfold review_owed; simpl; lia. }
  destruct HS2 as [HW2 HM2].
  assert (Hr2 : terms (getReview s2 rid) =
                (token, N.pos sender, value, now + REVIEW_WINDOW st, true)).
  { unfold s2. rw_state. rewrite decide_True by reflexivity. rewrite Hwin. reflexivity. }
  assert (Hn2 : nextReviewId s2 = rid + 1) by (unfold s2; rw_state; reflexivity).
  destruct (exposed s2 _ s2' s3 HI2 HW2 Hh3 HG3) as (HI3 & HW3 & _ & HM3).
  simpl in HM3.
  pose proof (Mono_trans _ _ _ _ _ HM01 (Mono_trans _ _ _ _ _ HM2 HM3)) as HM03.
  assert (Hr3 : terms (getReview s3 rid) =
                (token, N.pos sender, value, now + REVIEW_WINDOW st, true)).
  { rewrite <- Hr2. apply (mono_review _ _ _ HM3).
    unfold terms in Hr2. congruence. }
  pose proof (mono_next _ _ _ HM3) as Hn3. rewrite Hn2 in Hn3.
  pose proof (mono_next _ _ _ HM01) as Hn1. fold rid in Hn1.
  clearbody s2. clear HM2 HM3 HM01.
  assert (Hfinal : forall a e,
            let s4 := set_events e
                        (setReview rid (with_scheduleAddress a (getReview s3 rid)) s3) in
            (Wf s4 /\ Mono 0 st s4) /\
            nextReviewId st <= rid /\ rid < nextReviewId s4 /\
            terms (getReview s4 rid) =
              (token, N.pos sender, value, now + REVIEW_WINDOW st, true) /\
            MIN_SUBMISSION_FEE st <= value /\ token <> 0).
  { intros a e s4. destruct (Step_scheduleAddress rid a e s3 HW3) as [HW4 HM4].
    split; [split; [exact HW4 |] |].
    - eapply Mono_weaken; [| exact (Mono_trans _ _ _ _ _ HM03 HM4)]. lia.
    - split; [exact Hn1 |]. split; [unfold s4; rw_state; lia |].
      split; [| split; assumption].
      unfold s4. rw_state. rewrite decide_True by reflexivity. exact Hr3. }
  destruct r3; simpl; split_ifs; auto; apply Hfinal.
Qed.

(** ** The fee distribution keeps [Wf] and loses its payouts at most *)

Lemma Keeps_emit s e :
  Inv s -> Wf s -> (forall id, is_ReviewExecuted id e = false) ->
  Keeps 0 s (set_events (events s ++ [e]) s).
Proof.
  intros HI HW He.
  assert (HS : Wf (set_events (events s ++ [e]) s) /\
               Mono 0 s (set_events (events s ++ [e]) s)) by step_terms HW.
  destruct HS as [HW' HM'].
  split; [apply Inv_set_events, HI |]. split; [exact HW' |].
  split; [apply Frozen_emit; [apply Frozen_refl | exact He] | exact HM'].
Qed.

Lemma payAgent_G id fee agents i s :
  (i < length agents)%nat ->
  Inv s -> Wf s -> getReviewAgents s id = agents ->
  wpG (payAgent id fee (length agents) i s)
      (fun _ s' => Keeps (Z.of_N (payout fee (N.of_nat (length agents)) i)) s s').
Proof.
  intros Hlt HI HW Ha.
  destruct (lookup_lt_is_Some_2 agents i Hlt) as [a Hi].
  unfold payAgent, agentAt, call_send. unfold_monad. simpl.
  rewrite Ha, Hi. simpl.
  destruct (0 <? payout fee (N.of_nat (length agents)) i) eqn:Hp; simpl.
  - intros st1 st' r Hh HG.
    pose proof (exposed s _ st1 st' HI HW Hh HG) as HK. simpl in HK.
    pose proof HK as (HI' & HW' & _).
    assert (HK' : Keeps (Z.of_N (payout fee (N.of_nat (length agents)) i)) s
                    (set_events (events st' ++
                       [FeeDistributed id a (payout fee (N.of_nat (length agents)) i)]) st')).
    { replace (Z.of_N (payout fee (N.of_nat (length agents)) i))
        with (Z.of_N (payout fee (N.of_nat (length agents)) i) + 0)%Z by lia.
      eapply Keeps_trans; [exact HK | apply Keeps_emit; auto]. }
    destruct r; simpl; auto.
  - eapply Keeps_weaken; [| apply Keeps_refl; auto]. lia.
Qed.

Lemma distribute_loop_G id fee agents l :
  forall s,
  (forall i, i ∈ l -> (i < length agents)%nat) ->
  executed (getReview s id) = true -> getReviewAgents s id = agents ->
  Inv s -> Wf s ->
  wpG (forM_ l (payAgent id fee (length agents)) s)
      (fun _ s' =>
         Keeps (Z.of_N (sumN (map (payout fee (N.of_nat (length agents))) l))) s s').
Proof.
  induction l as [| i l IH]; intros s Hl Hx Ha HI HW.
  - simpl. apply Keeps_refl; auto.
  - change (forM_ (i :: l) (payAgent id fee (length agents)) s)
      with (bindP (payAgent id fee (length agents) i s)
                  (fun _ => forM_ l (payAgent id fee (length agents)))).
    apply wpG_bindP.
    eapply wpG_mono; [| apply (payAgent_G id fee agents i s); auto].
    2: { apply Hl. left. }
    intros [] s' HK. pose proof HK as (HI' & HW' & HF' & _).
    eapply wpG_mono; [| apply (IH s'); auto].
    + intros [] s'' HK'. simpl.
      replace (Z.of_N (payout fee (N.of_nat (length agents)) i +
                       sumN (map (payout fee (N.of_nat (length agents))) l)))
        with (Z.of_N (payout fee (N.of_nat (length agents)) i) +
              Z.of_N (sumN (map (payout fee (N.of_nat (length agents))) l)))%Z by lia.
      eapply Keeps_trans; eauto.
    + intros j Hj. apply Hl. right. exact Hj.
    + eapply Frozen_executed; eauto.
    + rewrite (fr_agents _ _ HF' id Hx). exact Ha.
Qed.

Lemma distribute_G id s :
  Inv s -> Wf s -> executed (getReview s id) = true ->
  wpG (_distributeSubmissionFee id s)
      (fun _ s' => Keeps (Z.of_N (submissionFee (getReview s id))) s s').
Proof.
  intros HI HW Hx. unfold _distributeSubmissionFee. unfold_monad. simpl.
  destruct (length (getReviewAgents s id) =? 0)%nat eqn:Hn.
  - simpl. eapply Keeps_weaken; [| apply Keeps_refl; auto]. lia.
  - simpl. apply Nat.eqb_neq in Hn.
    eapply wpG_mono; [| apply (distribute_loop_G id _ (getReviewAgents s id)); auto].
    + intros [] s' HK. simpl in HK. rewrite sum_payout in HK by lia. exact HK.
    + intros i Hi. apply elem_of_seq in Hi. lia.
Qed.

(** ** The allocation loop touches the shares and the log only *)

Lemma same_rest_refl s : same_rest s s.
Proof. repeat split. Qed.

Lemma allocateShare_rest id P T k s :
  wpG (allocateShare id P T k s) (fun _ s' => same_rest s s').
Proof.
  unfold allocateShare, agentAt. unfold_monad. simpl.
  destruct (getReviewAgents s id !! k); simpl; auto.
  split_ifs; auto; repeat split.
Qed.

Lemma allocate_loop_rest id P T l :
  forall s, wpG (forM_ l (allocateShare id P T) s) (fun _ s' => same_rest s s').
Proof.
  induction l as [| k l IH]; intros s.
  - simpl. apply same_rest_refl.
  - change (forM_ (k :: l) (allocateShare id P T) s)
      with (bindP (allocateShare id P T k s) (fun _ => forM_ l (allocateShare id P T))).
    apply wpG_bindP. eapply wpG_mono; [| apply allocateShare_rest].
    intros [] s1 H1. eapply wpG_mono; [| apply IH].
    intros [] s2 H2. unfold same_rest in *.
    destruct H1 as (? & ? & ? & ? & ? & ? & ? & ? & ? & ?).
    destruct H2 as (? & ? & ? & ? & ? & ? & ? & ? & ? & ?).
    repeat split; congruence.
Qed.

Lemma allocateShares_G id P T s :
  wpG (allocateShares id P T s)
      (fun _ s' => allocated id P T (getReviewAgents s id) s s' /\ same_rest s s').
Proof.
  apply wpG_conj.
  - eapply wpG_mono; [| apply (wp_wpG _ _ _ (allocateShares_wp id P T s))].
    simpl. intros [] s' (tr & _ & H). exact H.
  - unfold allocateShares. unfold_monad. simpl. apply allocate_loop_rest.
Qed.

Lemma slack_rest s s' : same_rest s s' -> slack s' = slack s.
Proof.
  intros (Hb & He & Hr & _). unfold slack, owed. rewrite Hb, He, Hr. reflexivity.
Qed.

Section AllocTerms.

Variables (s3 s5 : State) (id P T : N).
Hypothesis HI : Inv s3.
Hypothesis HW : Wf s3.
Hypothesis Hx : executed (getReview s3 id) = true.
Hypothesis Hzero : forall a, tokenShare (getAgentShare s3 id a) = 0.
Hypothesis HP : P = totalPledged (getReview s3 id).
Hypothesis Hal :
  allocated id P T (getReviewAgents s3 id)
    (setReview id (with_totalPurchased T (getReview s3 id)) s3) s5.
Hypothesis Hrest : same_rest (setReview id (with_totalPurchased T (getReview s3 id)) s3) s5.

Lemma Step_alloc : Wf s5 /\ Mono 0 s3 s5.
Proof.
  pose proof Hrest as (Hb & He & Hr & Hd & Hi & Ho & Hs & Hw & Hg & Hm).
  rw_state.
  apply Step_terms; auto.
  - pose proof Hal as (Hn & _). rewrite Hn. rw_state. reflexivity.
  - intros id'. rewrite (alloc_review s3 s5 id P T Hal).
    destruct (decide (id = id')) as [<- |]; split; reflexivity.
  - intros id' a. apply (alloc_thesis s3 s5 id P T Hal).
  - intros id'. apply (alloc_agents s3 s5 id P T Hal).
  - intros id' a. apply (alloc_pledged s3 s5 id P T Hal).
  - intros id' a. rewrite (alloc_review s3 s5 id P T Hal).
    destruct (decide (id = id')) as [<- | Hne]; simpl.
    + intros HT. pose proof Hal as (_ & _ & _ & _ & Hsame & _).
      rewrite Hsame by auto. rw_state. apply Hzero.
    + rewrite (alloc_tokenShare_other s3 s5 id P T Hal) by auto.
      apply (wf_unpurchased _ HW).
  - rewrite Hd. apply (wf_delegation _ HW).
  - rewrite Hi. apply (wf_identity _ HW).
  - intros a i Hai. rewrite Hi. apply identities_kept, Hai.
  - rewrite (slack_rest _ _ Hrest). rw_state.
    unfold review_owed. simpl. rewrite Hx. lia.
Qed.

End AllocTerms.

(** ** [executeReview] *)

Lemma executeReview_G now id st :
  Inv st -> Wf st ->
  wpG (executeReview now id st) (fun _ s' => Wf s' /\ Mono 0 st s').
Proof.
  intros HI HW. unfold executeReview, call_balanceOf, call_buyJob. unfold_monad. simpl.
  destruct (exists_ (getReview st id)) eqn:Hexists; simpl; auto.
  destruct (executed (getReview st id)) eqn:Hopen; simpl; auto.
  destruct (deadline (getReview st id) <=? now) eqn:Hdl; simpl; auto.
  set (st1 := setReview id (with_executed true (getReview st id)) st).
  set (fee := submissionFee (getReview st id)).
  set (P := totalPledged (getReview st id)).
  assert (HI1 : Inv st1) by (apply Inv_execute; auto).
  assert (Hr1 : getReview st1 id = with_executed true (getReview st id)).
  { unfold st1. rw_state. rewrite decide_True by reflexivity. reflexivity. }
  assert (Hx1 : executed (getReview st1 id) = true) by (rewrite Hr1; reflexivity).
  assert (Htp : totalPledged (getReview st1 id) = P) by (rewrite Hr1; reflexivity).
  assert (Hfee1 : submissionFee (getReview st1 id) = fee) by (rewrite Hr1; reflexivity).
  assert (Hz1 : forall a, tokenShare (getAgentShare st1 id a) = 0).
  { intros a. unfold st1. rw_state. apply (inv_open st HI id Hopen). }
  assert (HS1 : Wf st1 /\ Mono (- (Z.of_N fee + Z.of_N P)) st st1).
  { unfold st1. step_terms HW.
    - case_decide; subst; split; reflexivity.
    - revert H. case_decide; subst; simpl; apply (wf_unpurchased _ HW).
    - unfold review_owed. simpl. rewrite Hopen. fold fee P. lia. }
  destruct HS1 as [HW1 HM1].
  assert (HK1 : Keeps 0 st1 st1) by (apply Keeps_refl; auto).
  rewrite Htp.
  destruct (P =? 0) eqn:Hzero.
  - apply N.eqb_eq in Hzero.
    eapply wpG_mono; [| apply (distribute_G id st1 HI1 HW1 Hx1)].
    intros [] s' (HI' & HW' & HF' & HM'). split; [exact HW' |].
    eapply Mono_weaken; [| exact (Mono_trans _ _ _ _ _ HM1 HM')].
    rewrite Hfee1. lia.
  - apply N.eqb_neq in Hzero.
    intros s1' s2 r2 Hh2 HG2.
    pose proof (exposed st1 _ s1' s2 HI1 HW1 Hh2 HG2) as HK2. simpl in HK2.
    clear Hh2 HG2.
    destruct r2; simpl; auto.
    destruct HK2 as (HI2 & HW2 & HF2 & HM2).
    assert (Hgo : forall s4 balanceAfter,
              Keeps (Z.of_N P) st1 s4 ->
              wpG (bindP
                    ((if w <=? balanceAfter
                      then fun st5 : State => Return (balanceAfter - w) st5
                      else fun _ : State => Throw (Panic 17)) s4)
                    (fun (tokensReceived : N) (st5 : State) =>
                       bindP
                         (allocateShares id P tokensReceived
                            (setReview id
                               (with_totalPurchased tokensReceived (getReview st5 id)) st5))
                         (fun (_ : ()) (st6 : State) =>
                            bindP (_distributeSubmissionFee id st6)
                              (fun (_ : ()) (st7 : State) =>
                                 Return ()
                                   (set_events
                                      (events st7 ++ [ReviewExecuted id P tokensReceived])
                                      st7)))))
                 (fun _ s' => Wf s' /\ Mono 0 st s')).
    { intros s4 balanceAfter (HI4 & HW4 & HF4 & HM4).
      destruct (w <=? balanceAfter); simpl; auto.
      set (T := balanceAfter - w).
      apply wpG_bindP. eapply wpG_mono; [| apply allocateShares_G].
      intros [] s6 [Hal Hrest]. rw_state.
      assert (Hx4 : executed (getReview s4 id) = true) by eauto using Frozen_executed.
      assert (Hz4 : forall a, tokenShare (getAgentShare s4 id a) = 0).
      { intros a. destruct (fr_shares _ _ HF4 id a Hx1) as (_ & -> & _). apply Hz1. }
      assert (Hr4 : getReview s4 id = getReview st1 id) by apply (fr_review _ _ HF4 id Hx1).
      assert (HP : P = totalPledged (getReview s4 id)) by (rewrite Hr4; auto).
      assert (HI6 : Inv s6) by (eapply (Inv_alloc s4 s6 id); eauto).
      destruct (Step_alloc s4 s6 id P T HW4 Hx4 Hz4 HP Hal Hrest) as [HW6 HM6].
      assert (Hr6 := alloc_review s4 s6 id _ T Hal id).
      rewrite decide_True in Hr6 by reflexivity.
      assert (Hx6 : executed (getReview s6 id) = true) by (rewrite Hr6; exact Hx4).
      assert (Hfee6 : submissionFee (getReview s6 id) = fee).
      { rewrite Hr6. simpl. rewrite Hr4. exact Hfee1. }
      apply wpG_bindP. eapply wpG_mono; [| apply (distribute_G id s6 HI6 HW6 Hx6)].
      intros [] s7 (HI7 & HW7 & HF7 & HM7). simpl.
      assert (HS8 : Wf (set_events (events s7 ++ [ReviewExecuted id P T]) s7) /\
                    Mono 0 s7 (set_events (events s7 ++ [ReviewExecuted id P T]) s7))
        by step_terms HW7.
      destruct HS8 as [HW8 HM8]. split; [exact HW8 |].
      rewrite Hfee6 in HM7.
      eapply Mono_weaken;
        [| exact (Mono_trans _ _ _ _ _ HM1
                    (Mono_trans _ _ _ _ _ HM4
                       (Mono_trans _ _ _ _ _ HM6 (Mono_trans _ _ _ _ _ HM7 HM8))))].
      lia. }
    intros s2' s3 r3 Hh3 HG3.
    pose proof (exposed s2 _ s2' s3 HI2 HW2 Hh3 HG3) as HK3. simpl in HK3.
    clear Hh3 HG3.
    assert (HK13 : Keeps (Z.of_N P) st1 s3).
    { replace (Z.of_N P) with (0 + Z.of_N P)%Z by lia.
      eapply Keeps_trans; [| exact HK3]. split; [| split; [| split]]; auto. }
    destruct HK3 as (HI3 & HW3 & _).
    destruct r3; simpl; auto;
      intros s3' s4 r4 Hh4 HG4;
      pose proof (exposed s3 _ s3' s4 HI3 HW3 Hh4 HG4) as HK4; simpl in HK4;
      destruct r4; simpl; auto;
      (apply Hgo; replace (Z.of_N P) with (Z.of_N P + 0)%Z by lia;
       eapply Keeps_trans; eauto).
Qed.

(** ** Every call of the contract keeps [G] *)

Lemma dispatch_G now c st : wpG (dispatch now c st) (fun _ st' => G st st').
Proof.
  apply wpG_conj.
  - eapply wpG_mono; [| apply (wp_wpG _ _ _ (dispatch_R now c st))].
    simpl. intros _ s' [_ H]. exact H.
  - apply (wpG_assume (Inv st)). intros HI.
    apply (wpG_assume (Wf st)). intros HW.
    destruct c; simpl.
    + apply receive_G, HW.
    + apply setMemeJobAddress_G, HW.
    + apply registerDelegation_G, HW.
    + apply depositForAgent_G, HW.
    + apply revokeDelegation_G, HW.
    + apply registerAgent_G, HW.
    + unfold bind. apply wpG_bindP.
      eapply wpG_mono; [| apply (submitToken_G _ _ _ _ _ HI HW)].
      simpl. intros rid s' [H _]. exact H.
    + apply submitThesis_G; auto.
    + apply executeReview_G; auto.
    + apply updateReputation_G, HW.
    + apply claimTokens_G; auto.
Qed.

Lemma run_G {A} now (p : Prog A) o (Q : A -> State -> Prop) :
  wpG p Q -> match run now p o with Ok a s _ => Q a s | Fail _ => True end.
Proof. intros H. apply (proj1 (run_G_mut dispatch_G)). exact H. Qed.

Lemma transact_G now c o st : G st (transact now c o st).
Proof.
  unfold transact. pose proof (run_G now (dispatch now c st) o _ (dispatch_G now c st)) as H.
  destruct (run now (dispatch now c st) o); [exact H | apply G_refl].
Qed.

Lemma later_G st st' : later st st' -> G st st'.
Proof.
  induction 1 as [| st' now c o _ IH]; [apply G_refl |].
  eapply G_trans; [exact IH | apply transact_G].
Qed.

Lemma Wf_constructor this sender value memeJob minFee window gasLimit :
  Wf (constructor this sender value memeJob minFee window gasLimit).
Proof.
  constructor; unfold getReview, getReviewAgents, getAgentShare, getThesis; simpl;
    intros; rewrite ?lookup_empty in *; simpl in *; auto; try discriminate; try lia.
  exfalso. eapply not_elem_of_nil; eauto.
Qed.

Lemma slack_constructor this sender value memeJob minFee window gasLimit :
  slack (constructor this sender value memeJob minFee window gasLimit) = Z.of_N value.
Proof. unfold slack, owed. simpl. rewrite !total_empty. lia. Qed.

Lemma reachable_Wf st : reachable st -> Wf st /\ (0 <= slack st)%Z.
Proof.
  induction 1 as [| st now c o Hr [HW Hs]].
  - split; [apply Wf_constructor | rewrite slack_constructor; lia].
  - destruct (transact_G now c o st) as [_ H].
    destruct (H (reachable_Inv st Hr) HW) as [HW' HM].
    split; [exact HW' |]. pose proof (mono_slack _ _ _ HM). lia.
Qed.

(** * Properties of every reachable state *)

Lemma total_ge {A} (f : A -> N) (m : gmap N A) k v : m !! k = Some v -> f v <= total f m.
Proof.
  intros Hk. pose proof (total_insert f (delete k m) k v) as H.
  rewrite insert_delete_id in H by exact Hk.
  rewrite lookup_delete_eq in H. simpl in H. lia.
Qed.

Lemma escrow_le_owed st a : getAgentEscrow st a + total review_owed (reviews st) <= owed st.
Proof.
  unfold owed, getAgentEscrow.
  destruct (agentEscrow st !! a) as [v |] eqn:Ha; simpl; [| lia].
  pose proof (total_ge (fun v => v) _ _ _ Ha). lia.
Qed.




(** Review ids are dense: in every reachable state the reviews that exist
    are exactly those with an id below [nextReviewId]; an existing review
    has a non-zero token, a non-zero creator and a fee of at least
    [MIN_SUBMISSION_FEE]; an id never issued reads as a review without
    fee, pledges, purchase, agents, and not executed. *)
Theorem review_ids_are_dense st :
  reachable st ->
  forall id,
    (exists_ (getReview st id) = true <-> id < nextReviewId st) /\
    (exists_ (getReview st id) = true ->
       tokenAddress (getReview st id) <> 0 /\ creator (getReview st id) <> 0 /\
       MIN_SUBMISSION_FEE st <= submissionFee (getReview st id)) /\
    (exists_ (getReview st id) = false ->
       submissionFee (getReview st id) = 0 /\ totalPledged (getReview st id) = 0 /\
       totalPurchased (getReview st id) = 0 /\ executed (getReview st id) = false /\
       getReviewAgents st id = []).
Proof.
  intros Hr id. pose proof (reachable_Inv st Hr) as HI.
  destruct (reachable_Wf st Hr) as [HW _].
  split; [| split].
  - split; [| apply (wf_dense st HW)].
    intros Hx. destruct (N.lt_ge_cases id (nextReviewId st)) as [| Hge]; [assumption |].
    rewrite (inv_fresh st HI id Hge) in Hx. discriminate.
  - apply (wf_review st HW).
  - intros Hx. destruct (inv_unborn st HI id Hx) as [He Ha].
    split; [apply (wf_unborn st HW id Hx) |].
    split; [rewrite <- (inv_sum st HI id), Ha; reflexivity |].
    split; [apply (inv_open st HI id He) |]. split; assumption.
Qed.

Lemma review_ids_are_dense_witness :
  reachable Scenario.funded /\
  nextReviewId Scenario.funded = 1 /\
  exists_ (getReview Scenario.funded 0) = true /\
  exists_ (getReview Scenario.funded 1) = false.
Proof.
  split; [exact reachable_funded |]. split; [reflexivity |].
  destruct (review_ids_are_dense Scenario.funded reachable_funded 0) as ([_ H0] & _).
  destruct (review_ids_are_dense Scenario.funded reachable_funded 1) as ([H1 _] & _).
  split; [apply H0; vm_compute; reflexivity |].
  destruct (exists_ (getReview Scenario.funded 1)) eqn:E; [| reflexivity].
  specialize (H1 eq_refl). vm_compute in H1. discriminate.
Defined.

(** The terms of a review are final: from a reachable state on, whatever
    transactions follow, an existing review keeps its token, creator, fee
    and deadline and goes on existing; its pledged total never decreases,
    an executed review stays executed, and [nextReviewId] never
    decreases. *)
Theorem review_terms_are_final st st' id :
  reachable st -> later st st' ->
  exists_ (getReview st id) = true ->
  exists_ (getReview st' id) = true /\
  tokenAddress (getReview st' id) = tokenAddress (getReview st id) /\
  creator (getReview st' id) = creator (getReview st id) /\
  submissionFee (getReview st' id) = submissionFee (getReview st id) /\
  deadline (getReview st' id) = deadline (getReview st id) /\
  totalPledged (getReview st id) <= totalPledged (getReview st' id) /\
  (executed (getReview st id) = true -> executed (getReview st' id) = true) /\
  nextReviewId st <= nextReviewId st'.
Proof.
  intros Hr Hl Hx. pose proof (reachable_Inv st Hr) as HI.
  destruct (reachable_Wf st Hr) as [HW _].
  destruct (later_G st st' Hl) as [HR HG].
  destruct (HR HI) as [_ HF]. destruct (HG HI HW) as [_ HM].
  destruct (mono_review _ _ _ HM id Hx) as [Ht Hp].
  apply terms_inv in Ht as (E1 & E2 & E3 & E4 & E5).
  split; [congruence |]. repeat split; auto.
  - intros He. eapply Frozen_executed; eauto.
  - apply (mono_next _ _ _ HM).
Qed.

Lemma later_funded_executedA : later Scenario.funded Scenario.executedA.
Proof.
  unfold Scenario.executedA, Scenario.pledgedA.
  apply later_transact, later_transact, later_transact, later_now.
Qed.

Lemma review_terms_are_final_witness :
  reachable Scenario.funded /\ later Scenario.funded Scenario.executedA /\
  exists_ (getReview Scenario.funded 0) = true /\
  deadline (getReview Scenario.executedA 0) = 600 /\
  submissionFee (getReview Scenario.executedA 0) = 100 /\
  creator (getReview Scenario.executedA 0) = 30.
Proof.
  split; [exact reachable_funded |]. split; [exact later_funded_executedA |].
  split; [reflexivity |].
  destruct (review_terms_are_final Scenario.funded Scenario.executedA 0
              reachable_funded later_funded_executedA eq_refl)
    as (_ & _ & Hc & Hf & Hd & _).
  rewrite Hd, Hf, Hc. repeat split.
Defined.

Lemma member_exists st id a :
  Inv st -> a ∈ getReviewAgents st id -> exists_ (getReview st id) = true.
Proof.
  intros HI Hin. destruct (exists_ (getReview st id)) eqn:Hx; [reflexivity |].
  destruct (inv_unborn st HI id Hx) as [_ Ha]. rewrite Ha in Hin.
  apply not_elem_of_nil in Hin. contradiction.
Qed.

(** One thesis per agent and review, for good: once an account is among
    the agents of a review, its thesis on that review and its pledge
    never change and it stays among the agents, whatever transactions
    follow; and every later attempt of that account to submit a thesis
    on the review aborts. *)
Theorem thesis_is_final st st' id sender :
  reachable st -> later st st' ->
  Npos sender ∈ getReviewAgents st id ->
  getThesis st' id (Npos sender) = getThesis st id (Npos sender) /\
  pledgedAmount (getAgentShare st' id (Npos sender)) =
    pledgedAmount (getAgentShare st id (Npos sender)) /\
  Npos sender ∈ getReviewAgents st' id /\
  forall now text b p d, exists e,
    submitThesis now sender id text b p d st' = Throw e /\
    (e = AlreadyExecuted \/ e = WindowClosed \/ e = NoValidDelegation \/
     e = DelegationExpired \/ e = DuplicateThesis).
Proof.
  intros Hr Hl Hin. pose proof (reachable_Inv st Hr) as HI.
  destruct (reachable_Wf st Hr) as [HW _].
  destruct (later_G st st' Hl) as [HR HG].
  destruct (HR HI) as [HI' _]. destruct (HG HI HW) as [HW' HM].
  destruct (mono_thesis _ _ _ HM id _ Hin) as [Ht Hp].
  assert (Hin' : Npos sender ∈ getReviewAgents st' id).
  { destruct (mono_agents _ _ _ HM id) as [k ->]. apply elem_of_app. auto. }
  split; [exact Ht |]. split; [exact Hp |]. split; [exact Hin' |].
  intros now text b p d.
  pose proof (member_exists st' id _ HI' Hin') as Hx.
  destruct (wf_author st' HW' id _ Hin') as [Ha _].
  unfold submitThesis. unfold_monad.
  split_ifs; eauto 10; try congruence;
    match goal with
    | H : (agent (getThesis st' id (N.pos sender)) =? 0) = true |- _ =>
        rewrite Ha in H; discriminate
    end.
Qed.

Lemma thesis_is_final_witness :
  reachable Scenario.pledgedA /\ later Scenario.pledgedA Scenario.executedA /\
  20 ∈ getReviewAgents Scenario.pledgedA 0 /\
  thesisPledgedAmount (getThesis Scenario.executedA 0 20) = 40 /\
  exists e, submitThesis 2 20 0 "again" false 0 10 Scenario.executedA = Throw e.
Proof.
  assert (Hl : later Scenario.pledgedA Scenario.executedA).
  { unfold Scenario.executedA. apply later_transact, later_now. }
  assert (Hin : 20 ∈ getReviewAgents Scenario.pledgedA 0).
  { vm_compute. left. }
  split; [exact reachable_pledgedA |]. split; [exact Hl |]. split; [exact Hin |].
  destruct (thesis_is_final Scenario.pledgedA Scenario.executedA 0 20%positive
              reachable_pledgedA Hl Hin) as (Ht & _ & _ & Hs).
  split; [rewrite Ht; reflexivity |].
  destruct (Hs 2 "again"%string false 0 10) as (e & He & _). exists e. exact He.
Defined.

(** Theses, agent lists and shares agree: in every reachable state the
    thesis of an agent of a review names that agent, who is not the zero
    address, and was submitted before the review's deadline; an account
    that is not among the agents has the zero thesis and the zero share;
    the amount recorded in a thesis is the pledge recorded in the share,
    and a thesis is bullish exactly when that pledge is not zero. *)
Theorem theses_agree_with_shares st :
  reachable st ->
  forall id a,
    (a ∈ getReviewAgents st id ->
       agent (getThesis st id a) = a /\ a <> 0 /\
       submittedAt (getThesis st id a) < deadline (getReview st id)) /\
    (a ∉ getReviewAgents st id ->
       getThesis st id a = zeroThesis /\ getAgentShare st id a = zeroShare) /\
    thesisPledgedAmount (getThesis st id a) = pledgedAmount (getAgentShare st id a) /\
    (bullish (getThesis st id a) = true <-> 0 < pledgedAmount (getAgentShare st id a)).
Proof.
  intros Hr id a. pose proof (reachable_Inv st Hr) as HI.
  destruct (reachable_Wf st Hr) as [HW _].
  split; [| split].
  - intros Hin. destruct (wf_author st HW id a Hin) as [Ha Ht].
    split; [exact Ha |]. split; [| exact Ht].
    pose proof (inv_member st HI id a Hin). congruence.
  - intros Hout. split; [apply (wf_silent st HW), Hout | apply (inv_nonmember st HI), Hout].
  - apply (wf_pledge st HW).
Qed.

Lemma theses_agree_with_shares_witness :
  reachable Scenario.bearishC /\
  agent (getThesis Scenario.bearishC 0 22) = 22 /\
  getThesis Scenario.bearishC 0 21 = zeroThesis /\
  bullish (getThesis Scenario.bearishC 0 20) = false.
Proof.
  split; [exact reachable_bearishC |].
  destruct (theses_agree_with_shares Scenario.bearishC reachable_bearishC 0 22) as (H1 & _).
  destruct (theses_agree_with_shares Scenario.bearishC reachable_bearishC 0 21) as (_ & H2 & _).
  destruct (theses_agree_with_shares Scenario.bearishC reachable_bearishC 0 20) as (_ & _ & _ & H3).
  split; [apply H1; vm_compute; right; left |].
  split; [apply H2; vm_compute; intros H; inversion H as [| ? ? ? H']; inversion H' as [| ? ? ? H'']; inversion H'' |].
  apply not_true_is_false. intros E. apply H3 in E. vm_compute in E. discriminate.
Defined.

(** ** The read helper [getTheses] *)

Lemma fill_spec s id (f : N -> AgentThesis) agents :
  getReviewAgents s id = agents -> (forall a, f a = getThesis s id a) ->
  forall m k result,
    (k + m = length agents)%nat ->
    result = map f (take k agents) ++ replicate m zeroThesis ->
    View.fill s id (seq k m) result = Some (map f agents).
Proof.
  intros Ha Hf. induction m as [| m IH]; intros k result Hlen ->.
  - simpl. rewrite firstn_all2 by lia. rewrite app_nil_r. reflexivity.
  - simpl. rewrite Ha.
    destruct (lookup_lt_is_Some_2 agents k) as [a Hk]; [lia |].
    rewrite Hk.
    assert (Hl : length (map f (take k agents)) = k).
    { rewrite length_map, length_take. lia. }
    destruct (Nat.ltb_spec k (length (map f (take k agents) ++
                                      zeroThesis :: replicate m zeroThesis))) as [_ | Hge].
    2: { rewrite length_app, Hl in Hge. simpl in Hge. lia. }
    apply IH; [lia |].
    rewrite (take_S_r _ _ _ Hk), map_app. simpl.
    rewrite <- Hf, <- app_assoc. simpl.
    rewrite insert_app_r_alt by lia. rewrite Hl, Nat.sub_diag. reflexivity.
Qed.

(** [getTheses] aborts for a review that does not exist; for an existing
    review of a reachable state it returns, without changing the state,
    the stored theses of the review's agents in the order of submission:
    one per agent, the i-th one written by the i-th agent, no author
    twice. *)
Theorem getTheses_lists_submissions st id :
  reachable st ->
  (exists_ (getReview st id) = false -> View.getTheses id st = Throw ReviewNotFound) /\
  (exists_ (getReview st id) = true ->
     exists l,
       View.getTheses id st = Return l st /\
       l = map (getThesis st id) (getReviewAgents st id) /\
       map agent l = getReviewAgents st id /\
       NoDup (map agent l)).
Proof.
  intros Hr. pose proof (reachable_Inv st Hr) as HI.
  destruct (reachable_Wf st Hr) as [HW _].
  unfold View.getTheses. unfold_monad. simpl. split; intros ->; simpl; [reflexivity |].
  rewrite (fill_spec st id (getThesis st id) (getReviewAgents st id) eq_refl
             (fun _ => eq_refl) _ 0%nat
             (replicate (length (getReviewAgents st id)) zeroThesis) eq_refl eq_refl).
  assert (Hm : map agent (map (getThesis st id) (getReviewAgents st id)) =
               getReviewAgents st id).
  { rewrite map_map. rewrite <- (map_id (getReviewAgents st id)) at 2.
    apply map_ext_in. intros a Ha. apply list_elem_of_In in Ha.
    apply (wf_author st HW id a Ha). }
  eexists. split; [reflexivity |]. split; [reflexivity |].
  split; [exact Hm |]. rewrite Hm. apply (inv_nodup st HI).
Qed.

Lemma getTheses_lists_submissions_witness :
  reachable Scenario.pledgedA /\
  exists l, View.getTheses 0 Scenario.pledgedA = Return l Scenario.pledgedA /\
            map agent l = [20; 21].
Proof.
  split; [exact reachable_pledgedA |].
  destruct (getTheses_lists_submissions Scenario.pledgedA 0 reachable_pledgedA) as [_ H].
  destruct (H eq_refl) as (l & Hv & _ & Hm & _).
  exists l. split; [exact Hv |]. rewrite Hm. reflexivity.
Defined.

(** ** Grants and identities *)

(** Stored grants are well formed: in every reachable state the record
    read for a pair (principal, agent) is either the zero record (no
    grant) or names exactly that principal and that agent, neither of
    them the zero address, with a cap that is not zero. *)
Theorem stored_grants_are_well_formed st d a :
  reachable st ->
  getDelegation st d a = zeroDelegation \/
  (delegator (getDelegation st d a) = d /\ delegate (getDelegation st d a) = a /\
   d <> 0 /\ a <> 0 /\ 0 < maxAmount (getDelegation st d a)).
Proof.
  intros Hr. destruct (reachable_Wf st Hr) as [HW _].
  unfold getDelegation. destruct (delegations st !! (d, a)) as [x |] eqn:Hx; simpl.
  - right. apply (wf_delegation st HW d a x Hx).
  - left. reflexivity.
Qed.

Lemma stored_grants_are_well_formed_witness :
  reachable Scenario.funded /\
  maxAmount (getDelegation Scenario.funded 10 20) = 100 /\
  delegator (getDelegation Scenario.funded 10 20) = 10.
Proof.
  split; [exact reachable_funded |].
  split; [reflexivity |].
  destruct (stored_grants_are_well_formed Scenario.funded 10 20 reachable_funded)
    as [Hz | (Hd & _)]; [| exact Hd].
  apply (f_equal maxAmount) in Hz. vm_compute in Hz. discriminate.
Defined.

Lemma identity_counts st a :
  reachable st ->
  (getAgentIdentity st a = zeroIdentity \/
   (agentAddress (getAgentIdentity st a) = a /\ a <> 0)) /\
  profitableTrades (getAgentIdentity st a) <= totalTrades (getAgentIdentity st a) /\
  reputationScore (getAgentIdentity st a) =
    (Z.of_N (profitableTrades (getAgentIdentity st a)) -
     Z.of_N (totalTrades (getAgentIdentity st a) - profitableTrades (getAgentIdentity st a)))%Z.
Proof.
  intros Hr. destruct (reachable_Wf st Hr) as [HW _].
  unfold getAgentIdentity. destruct (agentIdentities st !! a) as [i |] eqn:Hi; simpl.
  - destruct (wf_identity st HW a i Hi) as (H1 & H2 & H3 & H4).
    split; [right; auto |]. split; [exact H3 |]. rewrite H4. lia.
  - split; [left; reflexivity |]. split; [apply N.le_refl | reflexivity].
Qed.

(** The reputation score counts trades: in every reachable state the
    identity record of an account is the zero record or carries that
    account's address; its profitable trades are among its trades, and
    its score is the number of profitable trades minus the number of the
    others. *)
Theorem reputation_counts_trades st a :
  reachable st ->
  (getAgentIdentity st a = zeroIdentity \/
   (agentAddress (getAgentIdentity st a) = a /\ a <> 0)) /\
  profitableTrades (getAgentIdentity st a) <= totalTrades (getAgentIdentity st a) /\
  reputationScore (getAgentIdentity st a) =
    (Z.of_N (profitableTrades (getAgentIdentity st a)) -
     Z.of_N (totalTrades (getAgentIdentity st a) - profitableTrades (getAgentIdentity st a)))%Z.
Proof. exact (identity_counts st a). Qed.

Lemma reachable_rated : reachable Aftermath.rated.
Proof. reach. Qed.

Lemma reputation_counts_trades_witness :
  reachable Aftermath.rated /\
  totalTrades (getAgentIdentity Aftermath.rated 20) = 3 /\
  profitableTrades (getAgentIdentity Aftermath.rated 20) = 2 /\
  reputationScore (getAgentIdentity Aftermath.rated 20) = 1%Z.
Proof.
  split; [exact reachable_rated |].
  split; [reflexivity |]. split; [reflexivity |].
  destruct (reputation_counts_trades Aftermath.rated 20 reachable_rated) as (_ & _ & H).
  rewrite H. reflexivity.
Defined.

(** Registration is permanent: once an account is registered, whatever
    transactions follow, its identity keeps the address, the metadata
    and the registration time, its number of trades never decreases, and
    every later [registerAgent] of that account aborts with "Already
    registered". *)
Theorem registration_is_permanent st st' sender :
  reachable st -> later st st' ->
  agentAddress (getAgentIdentity st (Npos sender)) <> 0 ->
  agentAddress (getAgentIdentity st' (Npos sender)) = Npos sender /\
  metadataURI (getAgentIdentity st' (Npos sender)) =
    metadataURI (getAgentIdentity st (Npos sender)) /\
  registrationTime (getAgentIdentity st' (Npos sender)) =
    registrationTime (getAgentIdentity st (Npos sender)) /\
  totalTrades (getAgentIdentity st (Npos sender)) <=
    totalTrades (getAgentIdentity st' (Npos sender)) /\
  forall now uri, registerAgent now sender uri st' = Throw AlreadyRegistered.
Proof.
  intros Hr Hl Hreg. pose proof (reachable_Inv st Hr) as HI.
  destruct (reachable_Wf st Hr) as [HW _].
  destruct (later_G st st' Hl) as [_ HG]. destruct (HG HI HW) as [HW' HM].
  unfold getAgentIdentity in *.
  destruct (agentIdentities st !! N.pos sender) as [i |] eqn:Hi; simpl in *; [| congruence].
  destruct (mono_identity _ _ _ HM _ i Hi) as (i' & Hi' & H1 & H2 & H3).
  destruct (wf_identity st' HW' _ i' Hi') as (Ha & _).
  assert (Hg : getAgentIdentity st' (N.pos sender) = i').
  { unfold getAgentIdentity. rewrite Hi'. reflexivity. }
  rewrite Hi'. simpl. repeat split; auto.
  intros now uri. unfold registerAgent. unfold_monad. simpl.
  rewrite Hg, Ha. reflexivity.
Qed.

Lemma registration_is_permanent_witness :
  reachable Aftermath.registered /\ later Aftermath.registered Aftermath.rated /\
  agentAddress (getAgentIdentity Aftermath.registered 20) <> 0 /\
  registrationTime (getAgentIdentity Aftermath.rated 20) = 601 /\
  registerAgent 1000 20 "other" Aftermath.rated = Throw AlreadyRegistered.
Proof.
  assert (Hr : reachable Aftermath.registered) by reach.
  assert (Hl : later Aftermath.registered Aftermath.rated).
  { unfold Aftermath.rated. apply later_transact, later_transact, later_transact, later_now. }
  assert (Hn : agentAddress (getAgentIdentity Aftermath.registered 20) <> 0).
  { vm_compute. discriminate. }
  split; [exact Hr |]. split; [exact Hl |]. split; [exact Hn |].
  destruct (registration_is_permanent Aftermath.registered Aftermath.rated 20%positive
              Hr Hl Hn) as (_ & _ & Ht & _ & Hreg).
  split; [rewrite Ht; reflexivity | apply Hreg].
Defined.

(** The owner and the parameters are fixed at deployment: whatever
    transactions follow a reachable state, the owner, the contract's
    address, the review window, the execution gas limit and the minimum
    fee are as before; so an account that is not the owner never becomes
    it, and its calls of the owner-only functions abort with "Not
    owner". *)
Theorem owner_and_parameters_are_fixed st st' :
  reachable st -> later st st' ->
  owner st' = owner st /\ self st' = self st /\
  REVIEW_WINDOW st' = REVIEW_WINDOW st /\
  EXECUTION_GAS_LIMIT st' = EXECUTION_GAS_LIMIT st /\
  MIN_SUBMISSION_FEE st' = MIN_SUBMISSION_FEE st /\
  forall sender, Npos sender <> owner st ->
    (forall a, setMemeJobAddress sender a st' = Throw NotOwner) /\
    (forall id a b, updateReputation sender id a b st' = Throw NotOwner).
Proof.
  intros Hr Hl. pose proof (reachable_Inv st Hr) as HI.
  destruct (reachable_Wf st Hr) as [HW _].
  destruct (later_G st st' Hl) as [_ HG]. destruct (HG HI HW) as [_ HM].
  destruct (mono_config _ _ _ HM) as (H1 & H2 & H3 & H4 & H5).
  repeat split; auto; intros.
  - unfold setMemeJobAddress. unfold_monad. simpl. rewrite H1.
    destruct (N.eqb_spec (N.pos sender) (owner st)); [contradiction | reflexivity].
  - unfold updateReputation. unfold_monad. simpl. rewrite H1.
    destruct (N.eqb_spec (N.pos sender) (owner st)); [contradiction | reflexivity].
Qed.

Lemma owner_and_parameters_are_fixed_witness :
  reachable Scenario.deployed /\ later Scenario.deployed Scenario.funded /\
  owner Scenario.funded = 1 /\
  setMemeJobAddress 10 7 Scenario.funded = Throw NotOwner.
Proof.
  assert (Hr : reachable Scenario.deployed) by apply reachable_deploy.
  assert (Hl : later Scenario.deployed Scenario.funded).
  { unfold Scenario.funded. repeat apply later_transact. apply later_now. }
  split; [exact Hr |]. split; [exact Hl |].
  destruct (owner_and_parameters_are_fixed Scenario.deployed Scenario.funded Hr Hl)
    as (Ho & _ & _ & _ & _ & Hn).
  split; [rewrite Ho; reflexivity |].
  apply (Hn 10%positive); discriminate.
Defined.

(** ** Token shares without a pledge *)

(** In every reachable state the token share of every account on every
    review is [floor(pledge * totalPurchased / totalPledged)] (zero where
    nothing was pledged), whether or not the review was executed; so an
    account without a pledge on a review, such as a bearish agent, has no
    tokens to claim there, and its [claimTokens] aborts. *)
Theorem no_pledge_no_claim st id :
  reachable st ->
  (forall a, tokenShare (getAgentShare st id a) =
             pledgedAmount (getAgentShare st id a) * totalPurchased (getReview st id)
             / totalPledged (getReview st id)) /\
  forall sender,
    pledgedAmount (getAgentShare st id (Npos sender)) = 0 ->
    exists e, claimTokens sender id st = Throw e /\
              (e = ReviewNotFound \/ e = NotExecuted \/ e = NoShare).
Proof.
  intros Hr. pose proof (reachable_Inv st Hr) as HI.
  destruct (reachable_Wf st Hr) as [HW _].
  assert (Hf : forall a, tokenShare (getAgentShare st id a) =
             pledgedAmount (getAgentShare st id a) * totalPurchased (getReview st id)
             / totalPledged (getReview st id)).
  { intros a. destruct (N.eq_dec (totalPurchased (getReview st id)) 0) as [Hz | Hnz].
    - rewrite (wf_unpurchased st HW id a Hz), Hz, N.mul_0_r. symmetry. apply N.Div0.div_0_l.
    - destruct (executed (getReview st id)) eqn:Hx.
      + apply (inv_share st HI id Hx). lia.
      + destruct (inv_open st HI id Hx) as [Hp _]. contradiction. }
  split; [exact Hf |].
  intros sender Hp.
  assert (Hz : tokenShare (getAgentShare st id (N.pos sender)) = 0).
  { rewrite Hf, Hp, N.mul_0_l. apply N.Div0.div_0_l. }
  unfold claimTokens. unfold_monad. simpl.
  destruct (exists_ (getReview st id)); simpl; [| eauto].
  destruct (executed (getReview st id)); simpl; [| eauto 6].
  rewrite Hz. simpl. eauto 6.
Qed.

Lemma no_pledge_no_claim_witness :
  reachable Scenario.executedA /\
  pledgedAmount (getAgentShare Scenario.executedA 0 22) = 0 /\
  tokenShare (getAgentShare Scenario.executedA 0 21) = 600 /\
  exists e, claimTokens 22 0 Scenario.executedA = Throw e.
Proof.
  split; [exact reachable_executedA |]. split; [reflexivity |].
  destruct (no_pledge_no_claim Scenario.executedA 0 reachable_executedA) as [Hf Hc].
  split; [rewrite Hf; vm_compute; reflexivity |].
  destruct (Hc 22%positive eq_refl) as (e & He & _). exists e. exact He.
Defined.

(** ** Token submission *)

(** A successful [submitToken] returns an id that no review had when the
    call began and stores under it a review with exactly the submitted
    terms: the token, the caller as creator, the value sent as fee (at
    least the minimum fee), and the deadline [now + REVIEW_WINDOW]; this
    holds whatever the schedule service does during the call, including
    calls back into the contract. *)
Theorem submitToken_stores_review now sender value token st o rid st' tr :
  reachable st ->
  run now (submitToken now sender value token st) o = Ok rid st' tr ->
  exists_ (getReview st rid) = false /\
  rid < nextReviewId st' /\
  exists_ (getReview st' rid) = true /\
  tokenAddress (getReview st' rid) = token /\
  creator (getReview st' rid) = Npos sender /\
  submissionFee (getReview st' rid) = value /\
  deadline (getReview st' rid) = now + REVIEW_WINDOW st /\
  MIN_SUBMISSION_FEE st <= value /\ token <> 0.
Proof.
  intros Hr Hrun. pose proof (reachable_Inv st Hr) as HI.
  destruct (reachable_Wf st Hr) as [HW _].
  pose proof (run_G now _ o _ (submitToken_G now sender value token st HI HW)) as H.
  rewrite Hrun in H. destruct H as (_ & Hle & Hlt & Ht & Hmin & Htok).
  unfold terms in Ht. injection Ht as E1 E2 E3 E4 E5.
  split; [apply (inv_fresh st HI), Hle |]. repeat split; assumption.
Qed.

Lemma submitToken_stores_review_witness :
  reachable Scenario.deployed /\
  exists st' tr,
    run 0 (submitToken 0 30 100 3000 Scenario.deployed) Scenario.submit_ok = Ok 0 st' tr /\
    deadline (getReview st' 0) = 600 /\ creator (getReview st' 0) = 30.
Proof.
  assert (Hr : reachable Scenario.deployed) by apply reachable_deploy.
  split; [exact Hr |].
  assert (E : exists st' tr,
            run 0 (submitToken 0 30 100 3000 Scenario.deployed) Scenario.submit_ok
            = Ok 0 st' tr) by (vm_compute; eauto).
  destruct E as (st' & tr & E). exists st', tr. split; [exact E |].
  destruct (submitToken_stores_review 0 30%positive 100 3000 Scenario.deployed
              Scenario.submit_ok 0 st' tr Hr E) as (_ & _ & _ & _ & Hc & _ & Hd & _).
  split; [rewrite Hd; reflexivity | exact Hc].
Defined.

(** ** The life of a grant *)

Lemma getDelegation_setDelegation d a x s d' a' :
  getDelegation (setDelegation d a x s) d' a' =
  if decide ((d, a) = (d', a')) then x else getDelegation s d' a'.
Proof.
  unfold getDelegation. rw_state. rewrite lookup_insert. case_decide; reflexivity.
Qed.

Lemma getDelegation_deleteDelegation d a s d' a' :
  getDelegation (deleteDelegation d a s) d' a' =
  if decide ((d, a) = (d', a')) then zeroDelegation else getDelegation s d' a'.
Proof.
  unfold getDelegation. rw_state.
  case_decide; simplify_eq; [rewrite lookup_delete_eq | rewrite lookup_delete_ne by congruence];
    reflexivity.
Qed.

Lemma getDelegation_set_events v s d a :
  getDelegation (set_events v s) d a = getDelegation s d a.
Proof. reflexivity. Qed.

Lemma submitThesis_no_grant now agent id text b p d st :
  delegate (getDelegation st d (Npos agent)) = 0 ->
  exists err,
    submitThesis now agent id text b p d st = Throw err /\
    (err = ReviewNotFound \/ err = AlreadyExecuted \/ err = WindowClosed \/
     err = NoValidDelegation).
Proof.
  intros Hd. unfold submitThesis. unfold_monad. simpl.
  destruct (exists_ (getReview st id)); simpl; [| eauto].
  destruct (executed (getReview st id)); simpl; [eauto 6 |].
  destruct (now <? deadline (getReview st id)); simpl; [| eauto 6].
  rewrite Hd. simpl. eauto 7.
Qed.

(** Registering a grant and revoking it: [registerDelegation] with an
    agent other than the zero address and a cap that is not zero stores
    exactly the given record under (caller, agent), replacing what was
    there and leaving every other grant alone; [revokeDelegation] then
    returns, the pair reads as the zero record again, and if there was no
    grant before, the grants are as they were before the registration;
    after the revocation a deposit of the caller for that agent aborts
    with "No delegation found" and a thesis of the agent naming the
    caller as delegator is refused. *)
Theorem grant_round_trip sender a m e sig st :
  a <> 0 -> 0 < m ->
  exists st1,
    registerDelegation sender a m e sig st = Return tt st1 /\
    getDelegation st1 (Npos sender) a =
      {| delegator := Npos sender; delegate := a; maxAmount := m; expiry := e;
         signature := sig |} /\
    (forall d a', (d, a') <> (Npos sender, a) ->
                  getDelegation st1 d a' = getDelegation st d a') /\
    exists st2,
      revokeDelegation sender a st1 = Return tt st2 /\
      getDelegation st2 (Npos sender) a = zeroDelegation /\
      (delegations st !! (Npos sender, a) = None -> delegations st2 = delegations st) /\
      (forall now v, depositForAgent now sender v a st2 = Throw NoDelegation) /\
      (forall now agent id text b p, a = Npos agent ->
         exists err,
           submitThesis now agent id text b p (Npos sender) st2 = Throw err /\
           (err = ReviewNotFound \/ err = AlreadyExecuted \/ err = WindowClosed \/
            err = NoValidDelegation)).
Proof.
  intros Ha Hm.
  set (g := {| delegator := N.pos sender; delegate := a; maxAmount := m; expiry := e;
               signature := sig |}).
  set (st1 := set_events (events st ++ [DelegationRegistered (N.pos sender) a m e])
                (setDelegation (N.pos sender) a g st)).
  exists st1.
  assert (Hg1 : getDelegation st1 (N.pos sender) a = g).
  { unfold st1. rewrite getDelegation_set_events, getDelegation_setDelegation.
    rewrite decide_True by reflexivity. reflexivity. }
  split.
  { unfold registerDelegation. unfold_monad. simpl.
    destruct (N.eqb_spec a 0); [contradiction |]. simpl.
    destruct (N.ltb_spec 0 m); [| lia]. reflexivity. }
  split; [exact Hg1 |].
  split.
  { intros d a' Hne. unfold st1.
    rewrite getDelegation_set_events, getDelegation_setDelegation.
    rewrite decide_False by congruence. reflexivity. }
  exists (deleteDelegation (N.pos sender) a st1).
  assert (Hg2 : getDelegation (deleteDelegation (N.pos sender) a st1) (N.pos sender) a
                = zeroDelegation).
  { rewrite getDelegation_deleteDelegation. rewrite decide_True by reflexivity. reflexivity. }
  split.
  { unfold revokeDelegation. unfold_monad. simpl. rewrite Hg1. simpl.
    rewrite N.eqb_refl. reflexivity. }
  split; [exact Hg2 |].
  split.
  { intros Hnone. unfold st1. rw_state. rewrite delete_insert_id; auto. }
  split.
  { intros now v. apply depositForAgent_no_grant; [exact Ha |]. rewrite Hg2. reflexivity. }
  intros now agent id text b p ->.
  apply submitThesis_no_grant. rewrite Hg2. reflexivity.
Qed.

Lemma grant_round_trip_witness :
  22 <> 0 /\ 0 < 100 /\
  exists st1 st2,
    registerDelegation 10 22 100 0 [] Scenario.deployed = Return tt st1 /\
    maxAmount (getDelegation st1 10 22) = 100 /\
    revokeDelegation 10 22 st1 = Return tt st2 /\
    getDelegation st2 10 22 = zeroDelegation /\
    depositForAgent 0 10 5 22 st2 = Throw NoDelegation.
Proof.
  split; [discriminate |]. split; [reflexivity |].
  destruct (grant_round_trip 10 22 100 0 [] Scenario.deployed)
    as (st1 & H1 & H2 & _ & st2 & H3 & H4 & _ & H5 & _); [discriminate | reflexivity |].
  exists st1, st2. split; [exact H1 |]. split; [rewrite H2; reflexivity |].
  split; [exact H3 |]. split; [exact H4 | apply H5].
Defined.

(** A grant with an expiry time is usable strictly before that time
    only: from the expiry time on, the principal's deposits for the agent
    abort with "Delegation expired" and so do the agent's theses under
    that grant (unless the review itself refuses them first); a grant
    with expiry 0 never expires, and passes the expiry check of a deposit
    at every time. *)
Theorem expired_grant_is_unusable sender agent st :
  delegate (getDelegation st (Npos sender) (Npos agent)) = Npos agent ->
  (forall now v,
     expiry (getDelegation st (Npos sender) (Npos agent)) <> 0 ->
     expiry (getDelegation st (Npos sender) (Npos agent)) <= now ->
     depositForAgent now sender v (Npos agent) st = Throw Expired /\
     forall id text b p, exists err,
       submitThesis now agent id text b p (Npos sender) st = Throw err /\
       (err = ReviewNotFound \/ err = AlreadyExecuted \/ err = WindowClosed \/
        err = DelegationExpired)) /\
  (forall now v,
     expiry (getDelegation st (Npos sender) (Npos agent)) = 0 \/
     now < expiry (getDelegation st (Npos sender) (Npos agent)) ->
     0 < v -> getAgentEscrow st (Npos agent) + v <= UINT256_MAX ->
     exists st',
       depositForAgent now sender v (Npos agent) st = Return tt st' /\
       getAgentEscrow st' (Npos agent) = getAgentEscrow st (Npos agent) + v /\
       balance st' = balance st + v).
Proof.
  intros Hd. split.
  - intros now v Hnz Hle.
    assert (Hx : (expiry (getDelegation st (N.pos sender) (N.pos agent)) =? 0)
                 || (now <? expiry (getDelegation st (N.pos sender) (N.pos agent))) = false).
    { apply orb_false_iff. split; [apply N.eqb_neq, Hnz | apply N.ltb_ge, Hle]. }
    split.
    + unfold depositForAgent. unfold_monad. simpl.
      change (getDelegation (set_balance (balance st + v) st) (N.pos sender) (N.pos agent))
        with (getDelegation st (N.pos sender) (N.pos agent)).
      rewrite Hd, N.eqb_refl. simpl. rewrite Hx. reflexivity.
    + intros id text b p. unfold submitThesis. unfold_monad. simpl.
      destruct (exists_ (getReview st id)); simpl; [| eauto].
      destruct (executed (getReview st id)); simpl; [eauto 6 |].
      destruct (now <? deadline (getReview st id)); simpl; [| eauto 6].
      rewrite Hd, N.eqb_refl. simpl. rewrite Hx. simpl. eauto 7.
  - intros now v Hok Hv Hmax.
    assert (Hx : (expiry (getDelegation st (N.pos sender) (N.pos agent)) =? 0)
                 || (now <? expiry (getDelegation st (N.pos sender) (N.pos agent))) = true).
    { apply orb_true_iff. destruct Hok; [left; apply N.eqb_eq | right; apply N.ltb_lt]; auto. }
    eexists. split.
    + unfold depositForAgent. unfold_monad. simpl.
      change (getDelegation (set_balance (balance st + v) st) (N.pos sender) (N.pos agent))
        with (getDelegation st (N.pos sender) (N.pos agent)).
      rewrite Hd, N.eqb_refl. simpl. rewrite Hx. simpl.
      destruct (N.ltb_spec 0 v); [| lia]. simpl.
      change (getAgentEscrow (set_balance (balance st + v) st) (N.pos agent))
        with (getAgentEscrow st (N.pos agent)).
      destruct (N.leb_spec (getAgentEscrow st (N.pos agent) + v) UINT256_MAX); [| lia].
      reflexivity.
    + split; [| reflexivity].
      rewrite getAgentEscrow_setAgentEscrow. rewrite decide_True by reflexivity. reflexivity.
Qed.

Lemma expired_grant_is_unusable_witness :
  delegate (getDelegation Scenario.funded 10 20) = 20 /\
  exists st',
    depositForAgent 1000000 10 5 20 Scenario.funded = Return tt st' /\
    getAgentEscrow st' 20 = 55.
Proof.
  split; [reflexivity |].
  destruct (expired_grant_is_unusable 10 20 Scenario.funded eq_refl) as [_ H].
  destruct (H 1000000 5) as (st' & H1 & H2 & _).
  - left. reflexivity.
  - reflexivity.
  - vm_compute. discriminate.
  - exists st'. split; [exact H1 |]. rewrite H2. reflexivity.
Defined.

(** ** The review window *)

Lemma window_checks now id st :
  exists_ (getReview st id) = true ->
  (executed (getReview st id) = false -> now < deadline (getReview st id) ->
     executeReview now id st = Throw WindowNotClosed) /\
  (executed (getReview st id) = false -> deadline (getReview st id) <= now ->
     forall sender text b p d,
       submitThesis now sender id text b p d st = Throw WindowClosed) /\
  (executed (getReview st id) = true ->
     forall sender text b p d,
       submitThesis now sender id text b p d st = Throw AlreadyExecuted).
Proof.
  intros Hx. split; [| split].
  - intros He Hlt. unfold executeReview. unfold_monad. simpl.
    rewrite Hx. simpl. rewrite He. simpl.
    destruct (N.leb_spec (deadline (getReview st id)) now); [lia | reflexivity].
  - intros He Hle sender text b p d. unfold submitThesis. unfold_monad. simpl.
    rewrite Hx. simpl. rewrite He. simpl.
    destruct (N.ltb_spec now (deadline (getReview st id))); [lia | reflexivity].
  - intros He sender text b p d. unfold submitThesis. unfold_monad. simpl.
    rewrite Hx. simpl. rewrite He. reflexivity.
Qed.

(** The deadline splits time for an existing review that is not
    executed: before the deadline [executeReview] aborts with "Window not
    closed yet", from the deadline on every [submitThesis] aborts with
    "Review window closed"; so no thesis, and no pledge, can arrive at a
    time at which the review can be executed.  Once the review is
    executed every [submitThesis] aborts with "Already executed". *)
Theorem deadline_splits_time now id st :
  exists_ (getReview st id) = true ->
  (executed (getReview st id) = false -> now < deadline (getReview st id) ->
     executeReview now id st = Throw WindowNotClosed) /\
  (executed (getReview st id) = false -> deadline (getReview st id) <= now ->
     forall sender text b p d,
       submitThesis now sender id text b p d st = Throw WindowClosed) /\
  (executed (getReview st id) = true ->
     forall sender text b p d,
       submitThesis now sender id text b p d st = Throw AlreadyExecuted).
Proof. apply window_checks. Qed.

Lemma deadline_splits_time_witness :
  exists_ (getReview Scenario.pledgedA 0) = true /\
  executeReview 599 0 Scenario.pledgedA = Throw WindowNotClosed /\
  submitThesis 600 22 0 "late" false 0 10 Scenario.pledgedA = Throw WindowClosed /\
  submitThesis 1 22 0 "late" false 0 10 Scenario.executedA = Throw AlreadyExecuted.
Proof.
  split; [reflexivity |].
  destruct (deadline_splits_time 599 0 Scenario.pledgedA eq_refl) as (H1 & _).
  destruct (deadline_splits_time 600 0 Scenario.pledgedA eq_refl) as (_ & H2 & _).
  destruct (deadline_splits_time 1 0 Scenario.executedA eq_refl) as (_ & _ & H3).
  split; [apply H1; reflexivity |].
  split; [apply H2; [reflexivity | vm_compute; discriminate] |].
  apply H3. reflexivity.
Defined.

(** ** Reputation updates *)

Lemma getAgentIdentity_setAgentIdentity a x s a' :
  getAgentIdentity (setAgentIdentity a x s) a' =
  if decide (a = a') then x else getAgentIdentity s a'.
Proof.
  unfold getAgentIdentity. rw_state. rewrite lookup_insert. case_decide; reflexivity.
Qed.

Lemma getAgentIdentity_set_events v s a :
  getAgentIdentity (set_events v s) a = getAgentIdentity s a.
Proof. reflexivity. Qed.

Lemma updateReputation_inv sender id a b st st1 :
  updateReputation sender id a b st = Return tt st1 ->
  N.pos sender = owner st /\ exists_ (getReview st id) = true /\
  executed (getReview st id) = true /\ 0 < pledgedAmount (getAgentShare st id a) /\
  agentAddress (getAgentIdentity st a) <> 0 /\
  getAgentIdentity st1 a =
    with_reputation
      (reputationScore (getAgentIdentity st a) + (if b then 1 else -1))%Z
      (totalTrades (getAgentIdentity st a) + 1)
      (profitableTrades (getAgentIdentity st a) + (if b then 1 else 0))
      (getAgentIdentity st a) /\
  owner st1 = owner st /\
  (forall id', getReview st1 id' = getReview st id') /\
  (forall id' a', getAgentShare st1 id' a' = getAgentShare st id' a').
Proof.
  unfold updateReputation. unfold_monad. split_ifs; try discriminate; intros [= <-].
  all: apply N.eqb_eq in Heqb0; apply N.ltb_lt in Heqb3;
    apply negb_true_iff, N.eqb_neq in Heqb4.
  all: repeat split; auto.
  all: rewrite getAgentIdentity_set_events, getAgentIdentity_setAgentIdentity,
         decide_True by reflexivity.
  - reflexivity.
  - rewrite N.add_0_r. reflexivity.
Qed.

Lemma updateReputation_ok sender id a b st :
  N.pos sender = owner st -> exists_ (getReview st id) = true ->
  executed (getReview st id) = true -> 0 < pledgedAmount (getAgentShare st id a) ->
  agentAddress (getAgentIdentity st a) <> 0 ->
  totalTrades (getAgentIdentity st a) + 1 <= UINT256_MAX ->
  profitableTrades (getAgentIdentity st a) + 1 <= UINT256_MAX ->
  (INT256_MIN <= reputationScore (getAgentIdentity st a) - 1)%Z ->
  (reputationScore (getAgentIdentity st a) + 1 <= INT256_MAX)%Z ->
  exists st1, updateReputation sender id a b st = Return tt st1.
Proof.
  intros Ho Hx He Hp Ha Ht Hw Hlo Hhi.
  unfold updateReputation. unfold_monad. simpl.
  rewrite <- Ho, N.eqb_refl. simpl. rewrite Hx. simpl. rewrite He. simpl.
  destruct (N.ltb_spec 0 (pledgedAmount (getAgentShare st id a))); [| lia]. simpl.
  destruct (N.eqb_spec (agentAddress (getAgentIdentity st a)) 0); [contradiction |]. simpl.
  destruct (N.leb_spec (totalTrades (getAgentIdentity st a) + 1) UINT256_MAX); [| lia].
  simpl. unfold REPUTATION_WIN_DELTA, REPUTATION_LOSS_DELTA.
  destruct b; simpl.
  - destruct (Z.leb_spec INT256_MIN (reputationScore (getAgentIdentity st a) + 1));
      [| lia].
    destruct (Z.leb_spec (reputationScore (getAgentIdentity st a) + 1) INT256_MAX);
      [| lia].
    simpl.
    destruct (N.leb_spec (profitableTrades (getAgentIdentity st a) + 1) UINT256_MAX);
      [| lia].
    simpl. eexists; reflexivity.
  - change (- (1))%Z with (-1)%Z.
    destruct (Z.leb_spec INT256_MIN (reputationScore (getAgentIdentity st a) + -1));
      [| lia].
    destruct (Z.leb_spec (reputationScore (getAgentIdentity st a) + -1) INT256_MAX);
      [| lia].
    simpl. eexists; reflexivity.
Qed.

(** Reputation updates accumulate: a successful [updateReputation] was
    made by the owner for a registered agent with a pledge on an executed
    review, and adds one trade and one point up or down; nothing records
    that the pair (review, agent) was rated, so the same call succeeds
    again (short of overflow) and counts a second trade and a second
    point. *)
Theorem reputation_updates_accumulate sender id a b st st1 :
  reachable st ->
  updateReputation sender id a b st = Return tt st1 ->
  (Z.of_N (totalTrades (getAgentIdentity st a)) + 2 <= INT256_MAX)%Z ->
  (N.pos sender = owner st /\ executed (getReview st id) = true /\
   0 < pledgedAmount (getAgentShare st id a) /\
   agentAddress (getAgentIdentity st a) = a) /\
  totalTrades (getAgentIdentity st1 a) = totalTrades (getAgentIdentity st a) + 1 /\
  reputationScore (getAgentIdentity st1 a) =
    (reputationScore (getAgentIdentity st a) + (if b then 1 else -1))%Z /\
  exists st2,
    updateReputation sender id a b st1 = Return tt st2 /\
    totalTrades (getAgentIdentity st2 a) = totalTrades (getAgentIdentity st a) + 2 /\
    reputationScore (getAgentIdentity st2 a) =
      (reputationScore (getAgentIdentity st a) + (if b then 2 else -2))%Z.
Proof.
  intros Hr H1 Hmax.
  destruct (identity_counts st a Hr) as (Hid & Hle & Hscore).
  destruct (updateReputation_inv _ _ _ _ _ _ H1)
    as (Ho & Hx & He & Hp & Ha & Hi1 & Ho1 & Hr1 & Hs1).
  assert (Haddr : agentAddress (getAgentIdentity st a) = a).
  { destruct Hid as [Hz | [Hz _]]; [rewrite Hz in Ha; contradiction | exact Hz]. }
  split; [repeat split; auto |].
  split; [rewrite Hi1; reflexivity |]. split; [rewrite Hi1; reflexivity |].
  assert (Hb : (INT256_MAX < Z.of_N UINT256_MAX)%Z) by (vm_compute; reflexivity).
  assert (Hm : (INT256_MIN = - INT256_MAX - 1)%Z) by (vm_compute; reflexivity).
  destruct (updateReputation_ok sender id a b st1) as [st2 H2].
  - congruence.
  - rewrite Hr1. exact Hx.
  - rewrite Hr1. exact He.
  - rewrite Hs1. exact Hp.
  - rewrite Hi1. exact Ha.
  - rewrite Hi1. simpl. lia.
  - rewrite Hi1. simpl. destruct b; lia.
  - rewrite Hi1. simpl. destruct b; lia.
  - rewrite Hi1. simpl. destruct b; lia.
  - exists st2. split; [exact H2 |].
    destruct (updateReputation_inv _ _ _ _ _ _ H2) as (_ & _ & _ & _ & _ & Hi2 & _).
    rewrite Hi2, Hi1. simpl. split; [lia | destruct b; lia].
Qed.

Lemma reputation_updates_accumulate_witness :
  reachable Aftermath.registered /\
  exists st1 st2,
    updateReputation 1 0 20 true Aftermath.registered = Return tt st1 /\
    updateReputation 1 0 20 true st1 = Return tt st2 /\
    totalTrades (getAgentIdentity st2 20) = 2 /\
    reputationScore (getAgentIdentity st2 20) = 2%Z.
Proof.
  assert (Hr : reachable Aftermath.registered) by reach.
  split; [exact Hr |].
  assert (E : exists st1, updateReputation 1 0 20 true Aftermath.registered = Return tt st1)
    by (vm_compute; eauto).
  destruct E as (st1 & E).
  destruct (reputation_updates_accumulate 1 0 20 true Aftermath.registered st1 Hr E)
    as (_ & _ & _ & st2 & H2 & Ht & Hs).
  - vm_compute. discriminate.
  - exists st1, st2. split; [exact E |]. split; [exact H2 |].
    split; [rewrite Ht; reflexivity | rewrite Hs; reflexivity].
Defined.

(** ** The cap of a grant *)

Lemma getDelegation_core s s' d a :
  delegations s' = delegations s -> getDelegation s' d a = getDelegation s d a.
Proof. unfold getDelegation. intros ->. reflexivity. Qed.

(** The cap of a grant limits each pledge, not their sum: after a bullish
    thesis with pledge [p1] on one review, the same agent's bullish
    thesis with pledge [p2] on another open review is accepted as soon as
    [p2] alone is within the cap and the escrow covers both pledges; the
    escrow has then paid [p1 + p2], whatever the cap. *)
Theorem cap_limits_each_pledge now1 now2 sender id1 id2 t1 t2 p1 p2 d st st1 :
  submitThesis now1 sender id1 t1 true p1 d st = Return tt st1 ->
  id2 <> id1 ->
  exists_ (getReview st id2) = true -> executed (getReview st id2) = false ->
  now2 < deadline (getReview st id2) ->
  (expiry (getDelegation st d (Npos sender)) = 0 \/
   now2 < expiry (getDelegation st d (Npos sender))) ->
  agent (getThesis st id2 (Npos sender)) = 0 ->
  0 < p2 -> p2 <= maxAmount (getDelegation st d (Npos sender)) ->
  p1 + p2 <= getAgentEscrow st (Npos sender) ->
  totalPledged (getReview st id2) + p2 <= UINT256_MAX ->
  exists st2,
    submitThesis now2 sender id2 t2 true p2 d st1 = Return tt st2 /\
    getAgentEscrow st2 (Npos sender) + (p1 + p2) = getAgentEscrow st (Npos sender) /\
    pledgedAmount (getAgentShare st2 id1 (Npos sender)) = p1 /\
    pledgedAmount (getAgentShare st2 id2 (Npos sender)) = p2.
Proof.
  intros H1 Hne Hx He Hdl Hexp Hnew Hp2 Hcap Hesc Hmax.
  revert H1. unfold submitThesis at 1. unfold_monad. split_ifs; try discriminate.
  intros [= <-].
  repeat match goal with
         | H : (_ <=? _) = true |- _ => apply N.leb_le in H
         | H : (_ =? _) = true |- _ => apply N.eqb_eq in H
         | H : (_ <? _) = true |- _ => apply N.ltb_lt in H
         end.
  assert (Hdel : delegate (getDelegation st d (N.pos sender)) = N.pos sender) by assumption.
  assert (Hesc1 : p1 <= getAgentEscrow st (N.pos sender)) by assumption.
  match goal with |- context [submitThesis _ _ _ _ _ _ _ ?s] => set (st1 := s) end.
  assert (Hr1 : getReview st1 id2 = getReview st id2).
  { unfold st1. rw_state. rewrite decide_False by congruence. reflexivity. }
  assert (Hd1 : getDelegation st1 d (N.pos sender) = getDelegation st d (N.pos sender)).
  { apply getDelegation_core. unfold st1. rw_state. reflexivity. }
  assert (Ht1 : getThesis st1 id2 (N.pos sender) = getThesis st id2 (N.pos sender)).
  { unfold st1. rw_state. rewrite decide_False by congruence. reflexivity. }
  assert (He1 : getAgentEscrow st1 (N.pos sender) = getAgentEscrow st (N.pos sender) - p1).
  { unfold st1, getAgentEscrow at 1. rw_state. rewrite lookup_insert_eq. reflexivity. }
  assert (Hs1 : pledgedAmount (getAgentShare st1 id1 (N.pos sender)) = p1).
  { unfold st1. rw_state. rewrite decide_True by reflexivity. reflexivity. }
  clearbody st1.
  eexists. split.
  - unfold submitThesis. unfold_monad. simpl.
    rewrite Hr1, Hx. simpl. rewrite Hr1, He. simpl.
    destruct (N.ltb_spec now2 (deadline (getReview st id2))); [| lia]. simpl.
    rewrite Hd1, Hdel, N.eqb_refl. simpl.
    assert (Hu : (expiry (getDelegation st d (N.pos sender)) =? 0)
                 || (now2 <? expiry (getDelegation st d (N.pos sender))) = true).
    { apply orb_true_iff. destruct Hexp; [left; apply N.eqb_eq | right; apply N.ltb_lt]; auto. }
    rewrite Hu. simpl. rewrite Ht1, Hnew. simpl.
    destruct (N.ltb_spec 0 p2); [| lia]. simpl.
    destruct (N.leb_spec p2 (maxAmount (getDelegation st d (N.pos sender)))); [| lia]. simpl.
    rewrite He1.
    destruct (N.leb_spec p2 (getAgentEscrow st (N.pos sender) - p1)); [| lia]. simpl.
    rw_state. rewrite Hr1.
    destruct (N.leb_spec (totalPledged (getReview st id2) + p2) UINT256_MAX); [| lia].
    simpl. reflexivity.
  - split; [| split].
    + unfold getAgentEscrow at 1. rw_state. rewrite lookup_insert_eq. simpl. lia.
    + rw_state. rewrite decide_False by congruence. exact Hs1.
    + rw_state. rewrite decide_True by reflexivity. reflexivity.
Qed.

Lemma cap_limits_each_pledge_witness :
  maxAmount (getDelegation TwoReviews.opened 10 20) = 40 /\
  exists st1 st2,
    submitThesis 1 20 0 "buy" true 40 10 TwoReviews.opened = Return tt st1 /\
    submitThesis 2 20 1 "buy" true 40 10 st1 = Return tt st2 /\
    getAgentEscrow st2 20 = 20.
Proof.
  split; [reflexivity |].
  assert (E : exists st1, submitThesis 1 20 0 "buy" true 40 10 TwoReviews.opened
                          = Return tt st1) by (vm_compute; eauto).
  destruct E as (st1 & E).
  assert (X : getAgentEscrow TwoReviews.opened 20 = 100) by (vm_compute; reflexivity).
  destruct (cap_limits_each_pledge 1 2 20%positive 0 1 "buy"%string "buy"%string 40 40 10
              TwoReviews.opened st1 E) as (st2 & H2 & He & _).
  - discriminate.
  - vm_compute. reflexivity.
  - vm_compute. reflexivity.
  - vm_compute. reflexivity.
  - left. vm_compute. reflexivity.
  - vm_compute. reflexivity.
  - reflexivity.
  - vm_compute. discriminate.
  - rewrite X. vm_compute. discriminate.
  - vm_compute. discriminate.
  - exists st1, st2. split; [exact E |]. split; [exact H2 |].
    rewrite X in He. lia.
Defined.

(** ** The dashboard's status of a review *)

Lemma executeReview_no_purchase now id st :
  exists_ (getReview st id) = true -> executed (getReview st id) = false ->
  deadline (getReview st id) <= now -> totalPledged (getReview st id) = 0 ->
  executeReview now id st =
  _distributeSubmissionFee id (setReview id (with_executed true (getReview st id)) st).
Proof.
  intros Hx He Hd Hp. unfold executeReview. unfold_monad. simpl.
  rewrite Hx. simpl. rewrite He. simpl.
  destruct (N.leb_spec (deadline (getReview st id)) now); [| lia]. simpl.
  rw_state. rewrite decide_True by reflexivity. simpl. rewrite Hp. simpl.
  destruct (_distributeSubmissionFee id _); reflexivity.
Qed.

Lemma Number_small n : n < 2 ^ 53 -> Frontend.Number n = n.
Proof.
  intros H. unfold Frontend.Number.
  destruct (N.ltb_spec n (2 ^ 53)); [reflexivity | lia].
Qed.

Lemma Number_large n : 2 ^ 53 <= n -> 2 ^ 53 <= Frontend.Number n.
Proof.
  intros H. unfold Frontend.Number.
  destruct (N.ltb_spec n (2 ^ 53)) as [Hlt | _]; [lia |].
  assert (Hpos : 0 < n) by lia.
  destruct (N.log2_spec n Hpos) as [Hlo _].
  assert (Hlog : 53 <= N.log2 n).
  { rewrite <- (N.log2_pow2 53) by lia. apply N.log2_le_mono, H. }
  set (e := N.log2 n - 52) in *.
  assert (He : N.log2 n = e + 52) by (unfold e; lia).
  assert (Hq : 2 ^ 52 <= n / 2 ^ e).
  { assert (Hp : 2 ^ N.log2 n = 2 ^ 52 * 2 ^ e) by (rewrite He, N.pow_add_r; lia).
    rewrite Hp in Hlo.
    apply N.div_le_lower_bound; [apply N.pow_nonzero; lia | lia]. }
  assert (Hq' : n / 2 ^ e <=
                (if n mod 2 ^ e <? 2 ^ (e - 1) then n / 2 ^ e
                 else if 2 ^ (e - 1) <? n mod 2 ^ e then n / 2 ^ e + 1
                 else if N.even (n / 2 ^ e) then n / 2 ^ e else n / 2 ^ e + 1)).
  { destruct (_ <? _); [lia |]. destruct (_ <? _); [lia |]. destruct (N.even _); lia. }
  assert (Hp53 : 2 ^ 53 <= 2 ^ 52 * 2 ^ e).
  { replace (2 ^ 53) with (2 ^ 52 * 2 ^ 1) by reflexivity.
    apply N.mul_le_mono_l. apply N.pow_le_mono_r; lia. }
  etransitivity; [exact Hp53 |].
  apply N.mul_le_mono_r. lia.
Qed.

Lemma Number_pos n : 0 < n -> 0 < Frontend.Number n.
Proof.
  intros H. destruct (N.lt_ge_cases n (2 ^ 53)) as [Hs | Hl].
  - rewrite Number_small by exact Hs. exact H.
  - pose proof (Number_large n Hl). lia.
Qed.

Lemma minus_pos a b : (0 < Frontend.minus a b)%Z <-> (b < a)%Z.
Proof.
  unfold Frontend.minus.
  destruct (Z.lt_trichotomy (a - b) 0) as [Hneg | [Hz | Hp]].
  - rewrite (Z.sgn_neg _ Hneg). lia.
  - rewrite Hz. simpl. lia.
  - rewrite (Z.sgn_pos _ Hp).
    assert (0 < Frontend.Number (Z.abs_N (a - b))) by (apply Number_pos; lia). lia.
Qed.

(** The dashboard's countdown is positive exactly before the deadline,
    for every deadline, as long as its clock is below [2 ^ 53]. *)
Lemma secondsUntil_pos now deadline :
  (Z.of_N now <= Frontend.MAX_SAFE_INTEGER)%Z ->
  (0 < Frontend.secondsUntil (Z.of_N now) deadline)%Z <-> now < deadline.
Proof.
  intros Hnow. unfold Frontend.MAX_SAFE_INTEGER in Hnow.
  assert (Hn : now < 2 ^ 53) by lia.
  unfold Frontend.secondsUntil.
  assert (Hm : forall x, (0 < Z.max 0 x <-> 0 < x)%Z) by (intros; lia).
  rewrite Hm, minus_pos.
  destruct (N.lt_ge_cases deadline (2 ^ 53)) as [Hs | Hl].
  - rewrite Number_small by exact Hs. lia.
  - pose proof (Number_large deadline Hl). lia.
Qed.

(** The status the dashboard shows for an existing review, computed from
    the review's record at the time [now] of the contract's clock (below
    [2 ^ 53], so that the dashboard's clock can show it), tells what the
    contract answers at that time: "open" exactly when the window check
    of [submitThesis] passes, and then [executeReview] aborts with
    "Window not closed yet"; "executed" exactly when the review is
    executed, and then both [executeReview] and [submitThesis] abort
    with "Already executed"; otherwise the review can be executed and
    [submitThesis] aborts with "Review window closed", and under
    "no_pledges" the execution makes no purchase: it is the fee
    distribution alone.  This holds for every deadline, also one that
    [Number] rounds. *)
Theorem status_predicts_contract now id st :
  exists_ (getReview st id) = true ->
  (Z.of_N now <= Frontend.MAX_SAFE_INTEGER)%Z ->
  let status := Frontend.getReviewStatus (Z.of_N now) (executed (getReview st id))
                  (deadline (getReview st id)) (totalPledged (getReview st id)) in
  (status = Frontend.open <-> reviewOpen now id st = Return tt st) /\
  (status = Frontend.open -> executeReview now id st = Throw WindowNotClosed) /\
  (status = Frontend.executed <-> executed (getReview st id) = true) /\
  (status = Frontend.executed ->
     executeReview now id st = Throw AlreadyExecuted /\
     forall sender text b p d,
       submitThesis now sender id text b p d st = Throw AlreadyExecuted) /\
  (status = Frontend.no_pledges \/ status = Frontend.pending_execution ->
     forall sender text b p d,
       submitThesis now sender id text b p d st = Throw WindowClosed) /\
  (status = Frontend.no_pledges ->
     executeReview now id st =
     _distributeSubmissionFee id (setReview id (with_executed true (getReview st id)) st)).
Proof.
  intros Hx Hnow status. unfold status, Frontend.getReviewStatus.
  pose proof (secondsUntil_pos now (deadline (getReview st id)) Hnow) as Hsec.
  destruct (window_checks now id st Hx) as (H1 & H2 & H3).
  destruct (executed (getReview st id)) eqn:He.
  - split; [split; [discriminate |] |].
    { unfold reviewOpen. unfold_monad. simpl. rewrite He. discriminate. }
    split; [discriminate |]. split; [tauto |].
    split.
    { intros _. split; [| apply H3; reflexivity].
      unfold executeReview. unfold_monad. simpl. rewrite Hx. simpl. rewrite He. reflexivity. }
    split; [intros [|]; discriminate | discriminate].
  - destruct (Z.ltb_spec 0 (Frontend.secondsUntil (Z.of_N now) (deadline (getReview st id))))
      as [Hlt | Hge].
    + assert (Hn : now < deadline (getReview st id)) by (apply Hsec; exact Hlt).
      split; [split; [intros _ | reflexivity] |].
      { unfold reviewOpen. unfold_monad. simpl. rewrite He. simpl.
        destruct (N.ltb_spec now (deadline (getReview st id))); [reflexivity | lia]. }
      split; [intros _; apply H1; auto |].
      split; [split; discriminate |]. split; [discriminate |].
      split; [intros [|]; discriminate | discriminate].
    + assert (Hn : deadline (getReview st id) <= now).
      { apply N.le_ngt. intros Hlt. apply Hsec in Hlt. lia. }
      assert (Hclosed : reviewOpen now id st <> Return tt st).
      { unfold reviewOpen. unfold_monad. simpl. rewrite He. simpl.
        destruct (N.ltb_spec now (deadline (getReview st id))); [lia | discriminate]. }
      destruct (N.eqb_spec (totalPledged (getReview st id)) 0) as [Hz | Hnz].
      * split; [split; [discriminate | intros; contradiction] |].
        split; [discriminate |]. split; [split; discriminate |]. split; [discriminate |].
        split; [intros _; apply H2; auto |].
        intros _. apply executeReview_no_purchase; auto.
      * split; [split; [discriminate | intros; contradiction] |].
        split; [discriminate |]. split; [split; discriminate |]. split; [discriminate |].
        split; [intros _; apply H2; auto | discriminate].
Qed.

Lemma status_predicts_contract_witness :
  exists_ (getReview Scenario.pledgedA 0) = true /\
  (Z.of_N 600 <= Frontend.MAX_SAFE_INTEGER)%Z /\
  Frontend.getReviewStatus 1 false 600 100 = Frontend.open /\
  executeReview 1 0 Scenario.pledgedA = Throw WindowNotClosed /\
  Frontend.getReviewStatus 600 false 600 100 = Frontend.pending_execution /\
  submitThesis 600 22 0 "late" false 0 10 Scenario.pledgedA = Throw WindowClosed.
Proof.
  assert (H600 : (Z.of_N 600 <= Frontend.MAX_SAFE_INTEGER)%Z) by (vm_compute; discriminate).
  assert (H1 : (Z.of_N 1 <= Frontend.MAX_SAFE_INTEGER)%Z) by (vm_compute; discriminate).
  pose proof (status_predicts_contract 1 0 Scenario.pledgedA eq_refl H1) as Ha.
  pose proof (status_predicts_contract 600 0 Scenario.pledgedA eq_refl H600) as Hb.
  cbv zeta in Ha, Hb.
  destruct Ha as (_ & Ha & _). destruct Hb as (_ & _ & _ & _ & Hb & _).
  split; [reflexivity |]. split; [exact H600 |]. split; [vm_compute; reflexivity |].
  split; [apply Ha; vm_compute; reflexivity |]. split; [vm_compute; reflexivity |].
  apply Hb. right. vm_compute. reflexivity.
Defined.

(** * The test doubles *)

Lemma total_ge2 {A} (f : A -> N) (m : gmap N A) k1 k2 v1 v2 :
  k1 <> k2 -> m !! k1 = Some v1 -> m !! k2 = Some v2 -> f v1 + f v2 <= total f m.
Proof.
  intros Hne H1 H2.
  pose proof (total_insert f (delete k1 m) k1 v1) as H.
  rewrite insert_delete_id in H by exact H1.
  rewrite lookup_delete_eq in H. simpl in H.
  assert (H2' : delete k1 m !! k2 = Some v2) by (rewrite lookup_delete_ne; auto).
  pose proof (total_ge f _ _ _ H2'). lia.
Qed.

Lemma ledger_balance_le (l : gmap N N) a : MockERC20.balanceOf l a <= total (fun v => v) l.
Proof.
  unfold MockERC20.balanceOf. destruct (l !! a) as [v |] eqn:Ha; simpl; [| lia].
  apply (total_ge (fun v => v) l a v Ha).
Qed.

Lemma ledger_balance_le2 (l : gmap N N) a b :
  a <> b -> MockERC20.balanceOf l a + MockERC20.balanceOf l b <= total (fun v => v) l.
Proof.
  intros Hne. unfold MockERC20.balanceOf.
  destruct (l !! a) as [v |] eqn:Ha; destruct (l !! b) as [w |] eqn:Hb; simpl.
  - apply (total_ge2 (fun v => v) l a b v w Hne Ha Hb).
  - pose proof (total_ge (fun v => v) l a v Ha). lia.
  - pose proof (total_ge (fun v => v) l b w Hb). lia.
  - lia.
Qed.

Lemma ledger_insert (l : gmap N N) a v :
  total (fun v => v) (<[a := v]> l) + MockERC20.balanceOf l a = total (fun v => v) l + v.
Proof.
  pose proof (total_insert (fun v => v) l a v) as H.
  unfold MockERC20.balanceOf. destruct (l !! a); simpl in *; lia.
Qed.

Lemma ledger_lookup_insert (l : gmap N N) a v b :
  MockERC20.balanceOf (<[a := v]> l) b = if decide (a = b) then v else MockERC20.balanceOf l b.
Proof.
  unfold MockERC20.balanceOf. rewrite lookup_insert. case_decide; reflexivity.
Qed.

(** Moving [amount] from [from] to [to] in a ledger keeps the sum. *)
Lemma ledger_move (l : gmap N N) from to amount :
  amount <= MockERC20.balanceOf l from ->
  let l1 := <[from := MockERC20.balanceOf l from - amount]> l in
  total (fun v => v) (<[to := MockERC20.balanceOf l1 to + amount]> l1) = total (fun v => v) l /\
  MockERC20.balanceOf l1 to + amount <= total (fun v => v) l.
Proof.
  intros Hle l1.
  pose proof (ledger_insert l from (MockERC20.balanceOf l from - amount)) as H1.
  fold l1 in H1.
  pose proof (ledger_insert l1 to (MockERC20.balanceOf l1 to + amount)) as H2.
  split; [lia |].
  unfold l1 at 1. rewrite ledger_lookup_insert. case_decide.
  - pose proof (ledger_balance_le l from). lia.
  - pose proof (ledger_balance_le2 l from to ltac:(assumption)). lia.
Qed.

Lemma issued_supply t :
  Mock.issued t ->
  total (fun v => v) (Mock.balanceOf t) = Mock.totalSupply t /\
  Mock.totalSupply t <= UINT256_MAX.
Proof.
  induction 1 as [| c t t' _ [IH1 IH2] Hc].
  - simpl. rewrite total_empty. split; [reflexivity | vm_compute; discriminate].
  - destruct c as [sender to amount | sender to amount | sender spender amount
                   | sender from to amount]; simpl in Hc.
    + unfold Mock.mint in Hc.
      destruct (sender =? Mock.minter t); [| discriminate].
      destruct (N.leb_spec (Mock.totalSupply t + amount) UINT256_MAX); [| discriminate].
      destruct (_ <=? UINT256_MAX); [| discriminate].
      injection Hc as <-. simpl. split; [| assumption].
      pose proof (ledger_insert (Mock.balanceOf t) to
                    (MockERC20.balanceOf (Mock.balanceOf t) to + amount)). lia.
    + unfold Mock.transfer, MockERC20.transfer in Hc.
      destruct (N.leb_spec amount (MockERC20.balanceOf (Mock.balanceOf t) sender)) as [Hle |];
        [| discriminate].
      destruct (_ <=? UINT256_MAX); [| discriminate].
      injection Hc as <-. simpl. split; [| assumption].
      rewrite <- IH1. apply (ledger_move _ _ _ _ Hle).
    + injection Hc as <-. simpl. auto.
    + unfold Mock.transferFrom in Hc.
      destruct (amount <=? Mock.getAllowance t from sender); [| discriminate].
      destruct (N.leb_spec amount (MockERC20.balanceOf (Mock.balanceOf t) from)) as [Hle |];
        [| discriminate].
      destruct (_ <=? UINT256_MAX); [| discriminate].
      injection Hc as <-. simpl. split; [| assumption].
      rewrite <- IH1. apply (ledger_move _ _ _ _ Hle).
Qed.

(** The supply of the mock token is the sum of its balances: this holds
    for every token that a deployment followed by successful calls leads
    to; the supply fits [uint256], so no balance exceeds it, and the
    additions of [transfer] and [transferFrom] never overflow: a transfer
    succeeds exactly when the sender's balance covers the amount, and a
    [transferFrom] exactly when allowance and balance do. *)
Theorem token_supply_is_sum_of_balances t :
  Mock.issued t ->
  total (fun v => v) (Mock.balanceOf t) = Mock.totalSupply t /\
  Mock.totalSupply t <= UINT256_MAX /\
  (forall a, MockERC20.balanceOf (Mock.balanceOf t) a <= Mock.totalSupply t) /\
  (forall sender to amount,
     (exists t', Mock.transfer sender to amount t = Some t') <->
     amount <= MockERC20.balanceOf (Mock.balanceOf t) sender) /\
  (forall sender from to amount,
     (exists t', Mock.transferFrom sender from to amount t = Some t') <->
     amount <= Mock.getAllowance t from sender /\
     amount <= MockERC20.balanceOf (Mock.balanceOf t) from).
Proof.
  intros Hi. destruct (issued_supply t Hi) as [Hsum Hmax].
  split; [exact Hsum |]. split; [exact Hmax |].
  split; [intros a; rewrite <- Hsum; apply ledger_balance_le |].
  split.
  - intros sender to amount. unfold Mock.transfer, MockERC20.transfer.
    destruct (N.leb_spec amount (MockERC20.balanceOf (Mock.balanceOf t) sender)) as [Hle | Hgt].
    + destruct (ledger_move (Mock.balanceOf t) sender to amount Hle) as [_ Hb].
      simpl in Hb.
      destruct (N.leb_spec
                  (MockERC20.balanceOf
                     (<[sender := MockERC20.balanceOf (Mock.balanceOf t) sender - amount]>
                        (Mock.balanceOf t)) to + amount) UINT256_MAX) as [_ | Hov];
        [split; eauto | lia].
    + split; [intros [t' Ht]; discriminate | lia].
  - intros sender from to amount. unfold Mock.transferFrom.
    destruct (N.leb_spec amount (Mock.getAllowance t from sender)) as [Ha | Ha].
    2: { split; [intros [t' Ht]; discriminate | lia]. }
    destruct (N.leb_spec amount (MockERC20.balanceOf (Mock.balanceOf t) from)) as [Hle | Hgt].
    2: { split; [intros [t' Ht]; discriminate | lia]. }
    destruct (ledger_move (Mock.balanceOf t) from to amount Hle) as [_ Hb].
    simpl in Hb.
    destruct (N.leb_spec
                (MockERC20.balanceOf
                   (<[from := MockERC20.balanceOf (Mock.balanceOf t) from - amount]>
                      (Mock.balanceOf t)) to + amount) UINT256_MAX) as [_ | Hov];
      [split; eauto | lia].
Qed.

Lemma issued_traded : Mock.issued MockScenario.traded.
Proof.
  apply (Mock.issued_call (Mock.Transfer 7 8 30) MockScenario.bought2);
    [| vm_compute; reflexivity].
  apply (Mock.issued_call (Mock.Mint 2000 7 100) MockScenario.bought);
    [| vm_compute; reflexivity].
  apply (Mock.issued_call (Mock.Mint 2000 1000 500) MockScenario.token0);
    [| vm_compute; reflexivity].
  apply Mock.issued_deploy.
Qed.

Lemma token_supply_is_sum_of_balances_witness :
  Mock.issued MockScenario.traded /\
  Mock.totalSupply MockScenario.traded = 600 /\
  total (fun v => v) (Mock.balanceOf MockScenario.traded) = 600 /\
  MockERC20.balanceOf (Mock.balanceOf MockScenario.traded) 7 = 70 /\
  exists t', Mock.transfer 7 9 70 MockScenario.traded = Some t'.
Proof.
  split; [exact issued_traded |]. split; [vm_compute; reflexivity |].
  destruct (token_supply_is_sum_of_balances MockScenario.traded issued_traded)
    as (Hsum & _ & _ & Htr & _).
  split; [rewrite Hsum; vm_compute; reflexivity |].
  split; [vm_compute; reflexivity |].
  apply Htr. vm_compute. discriminate.
Defined.

(** ** The purchase at the mock venue *)

Lemma tokensToIssue_max value :
  Mock.tokensToIssue value = N.max 1 (value * 1000 / 10 ^ 18).
Proof.
  unfold Mock.tokensToIssue, Mock.ether.
  generalize (value * 1000 / 10 ^ 18). intros x.
  destruct (N.eqb_spec x 0) as [-> | Hne]; [reflexivity |].
  symmetry. apply N.max_r. lia.
Qed.

(** A purchase at the mock venue: [buyJob] succeeds only for a registered
    token whose contract names the venue as minter, and only if the value
    sent equals the amount; it then mints to the buyer
    [max(1, floor(value * 1000 / 10^18))] tokens, never none, leaves the
    other balances of the token alone, and adds the value to the funds
    raised. *)
Theorem buyJob_issues_tokens sender value memeAddress amount referrer w w' :
  Mock.buyJob sender value memeAddress amount referrer w = Some w' ->
  value = amount /\
  Mock.tokenAddress (Mock.getMemeToken w memeAddress) <> 0 /\
  exists t t',
    Mock.tokens w !! memeAddress = Some t /\ Mock.tokens w' !! memeAddress = Some t' /\
    Mock.minter t = Mock.this w /\
    1 <= Mock.tokensToIssue value /\
    Mock.tokensToIssue value = N.max 1 (value * 1000 / 10 ^ 18) /\
    MockERC20.balanceOf (Mock.balanceOf t') sender =
      MockERC20.balanceOf (Mock.balanceOf t) sender + Mock.tokensToIssue value /\
    (forall a, a <> sender ->
       MockERC20.balanceOf (Mock.balanceOf t') a = MockERC20.balanceOf (Mock.balanceOf t) a) /\
    Mock.totalSupply t' = Mock.totalSupply t + Mock.tokensToIssue value /\
    Mock.fundsRaised (Mock.getMemeToken w' memeAddress) =
      Mock.fundsRaised (Mock.getMemeToken w memeAddress) + value /\
    Mock.funds w' = Mock.funds w + value.
Proof.
  unfold Mock.buyJob.
  destruct (N.eqb_spec (Mock.tokenAddress (Mock.getMemeToken w memeAddress)) 0) as [| Hreg];
    [discriminate |].
  destruct (N.eqb_spec value amount) as [Hv |]; [| discriminate]. simpl.
  destruct (value * 1000 <=? UINT256_MAX); [| discriminate]. simpl.
  destruct (_ <=? UINT256_MAX); [| discriminate]. simpl.
  destruct (_ <=? UINT256_MAX); [| discriminate]. simpl.
  destruct (Mock.tokens w !! memeAddress) as [t |] eqn:Ht; [| discriminate].
  unfold Mock.mint.
  destruct (N.eqb_spec (Mock.this w) (Mock.minter t)) as [Hm |]; [| discriminate].
  destruct (_ <=? UINT256_MAX); [| discriminate].
  destruct (_ <=? UINT256_MAX); [| discriminate].
  intros [= <-]. simpl.
  split; [exact Hv |]. split; [exact Hreg |].
  eexists t, _. split; [reflexivity |].
  split; [rewrite lookup_insert_eq; reflexivity |]. simpl.
  split; [congruence |].
  rewrite tokensToIssue_max.
  split; [apply N.le_max_l |]. split; [reflexivity |].
  split; [rewrite ledger_lookup_insert, decide_True by reflexivity; reflexivity |].
  split; [intros a Ha; rewrite ledger_lookup_insert, decide_False by congruence; reflexivity |].
  split; [reflexivity |].
  split; [| reflexivity].
  unfold Mock.getMemeToken at 1. simpl. rewrite lookup_insert_eq. reflexivity.
Qed.

Lemma buyJob_issues_tokens_witness :
  exists w' t',
    Mock.buyJob 1000 100 3000 100 0 MockScenario.world0 = Some w' /\
    Mock.tokens w' !! 3000 = Some t' /\
    MockERC20.balanceOf (Mock.balanceOf t') 1000 = 1.
Proof.
  assert (E : exists w', Mock.buyJob 1000 100 3000 100 0 MockScenario.world0 = Some w')
    by (vm_compute; eauto).
  destruct E as (w' & E).
  destruct (buyJob_issues_tokens 1000 100 3000 100 0 MockScenario.world0 w' E)
    as (_ & _ & t & t' & Ht & Ht' & _ & _ & _ & Hb & _).
  exists w', t'. split; [exact E |]. split; [exact Ht' |].
  rewrite Hb.
  assert (Ht0 : Mock.tokens MockScenario.world0 !! 3000 = Some MockScenario.token0)
    by (vm_compute; reflexivity).
  assert (t = MockScenario.token0) by congruence. subst t.
  vm_compute. reflexivity.
Defined.

(** ** The purchase of [executeReview] *)

Lemma executeReview_purchase_wp now id st :
  Inv st -> 0 < totalPledged (getReview st id) ->
  wp (executeReview now id st) (fun _ s' tr => purchased id st s' tr) (fun _ => True).
Proof.
  intros HI HP. unfold executeReview, call_balanceOf, call_buyJob. unfold_monad. simpl.
  destruct (exists_ (getReview st id)) eqn:Hexists; simpl; auto.
  destruct (executed (getReview st id)) eqn:Hopen; simpl; auto.
  destruct (deadline (getReview st id) <=? now) eqn:Hdl; simpl; auto.
  set (st1 := setReview id (with_executed true (getReview st id)) st).
  assert (HI1 : Inv st1) by (apply Inv_execute; auto).
  assert (Hr1 : getReview st1 id = with_executed true (getReview st id)).
  { unfold st1. rw_state. rewrite decide_True by reflexivity. reflexivity. }
  assert (Hx1 : executed (getReview st1 id) = true) by (rewrite Hr1; reflexivity).
  assert (Htp : totalPledged (getReview st1 id) = totalPledged (getReview st id))
    by (rewrite Hr1; reflexivity).
  assert (Htok : tokenAddress (getReview st1 id) = tokenAddress (getReview st id))
    by (rewrite Hr1; reflexivity).
  assert (Hz1 : forall a, tokenShare (getAgentShare st1 id a) = 0).
  { intros a. unfold st1. rw_state. apply (inv_open st HI id Hopen). }
  destruct (totalPledged (getReview st1 id) =? 0) eqn:Hzero;
    [apply N.eqb_eq in Hzero; lia |].
  intros s2 r2 HR2. destruct (HR2 HI1) as [HI2 HF2]. clear HR2.
  destruct r2 as [| | w | |]; simpl; auto.
  assert (Htok2 : tokenAddress (getReview s2 id) = tokenAddress (getReview st id)).
  { rewrite (fr_review _ _ HF2 id Hx1). exact Htok. }
  intros s3 r3 HR3. destruct (HR3 HI2) as [HI3 HF3]. clear HR3.
  assert (HF13 : Frozen st1 s3) by (eapply Frozen_trans; eauto).
  assert (Hgo : forall s4 balanceAfter,
            Frozen s3 s4 -> Inv s4 ->
            wp (bindP
                  ((if w <=? balanceAfter
                    then fun st5 : State => Return (balanceAfter - w) st5
                    else fun _ : State => Throw (Panic 17)) s4)
                  (fun (tokensReceived : N) (st5 : State) =>
                     bindP
                       (allocateShares id (totalPledged (getReview st1 id)) tokensReceived
                          (setReview id
                             (with_totalPurchased tokensReceived (getReview st5 id)) st5))
                       (fun (_ : ()) (st6 : State) =>
                          bindP (_distributeSubmissionFee id st6)
                            (fun (_ : ()) (st7 : State) =>
                               Return ()
                                 (set_events
                                    (events st7 ++
                                     [ReviewExecuted id (totalPledged (getReview st1 id))
                                        tokensReceived]) st7)))))
               (fun _ s' tr =>
                  w <= balanceAfter /\
                  totalPurchased (getReview s' id) = balanceAfter - w /\
                  totalPledged (getReview s' id) = totalPledged (getReview st id) /\
                  executed (getReview s' id) = true /\
                  Forall (fun i => exists a v, called i = call_value a v) tr)
               (fun _ => True)).
  { intros s4 balanceAfter HF4 HI4.
    assert (HF14 : Frozen st1 s4) by (eapply Frozen_trans; eauto).
    destruct (N.leb_spec w balanceAfter) as [Hle | _]; simpl; auto.
    set (T := balanceAfter - w).
    apply wp_bindP. eapply wp_mono; [| | apply allocateShares_wp]; [| auto].
    intros [] s6 tr [-> Hal]. rw_state.
    assert (Hx4 : executed (getReview s4 id) = true) by eauto using Frozen_executed.
    assert (Hz4 : forall a, tokenShare (getAgentShare s4 id a) = 0).
    { intros a. destruct (fr_shares _ _ HF14 id a Hx1) as (_ & -> & _). apply Hz1. }
    assert (Hr4 : getReview s4 id = getReview st1 id) by apply (fr_review _ _ HF14 id Hx1).
    assert (HP4 : totalPledged (getReview st1 id) = totalPledged (getReview s4 id)).
    { rewrite Hr4. reflexivity. }
    assert (HI6 : Inv s6) by (eapply (Inv_alloc s4 s6 id); eauto).
    assert (Hr6 := alloc_review s4 s6 id _ T Hal id).
    rewrite decide_True in Hr6 by reflexivity.
    assert (Hx6 : executed (getReview s6 id) = true) by (rewrite Hr6; exact Hx4).
    apply wp_bindP. eapply wp_mono; [| | apply (distribute_wp id s6 HI6 Hx6)]; [| auto].
    intros [] s7 tr (G1 & G2 & G3 & G4). simpl.
    assert (Hr7 : getReview s7 id = getReview s6 id) by apply (fr_review _ _ G2 id Hx6).
    rw_state. rewrite Hr7, Hr6. simpl.
    split; [exact Hle |]. split; [reflexivity |]. split; [rewrite <- HP4; exact Htp |].
    split; [exact Hx4 |].
    rewrite app_nil_r.
    apply Forall_forall. intros i Hi.
    pose proof (fee_calls_are_sends (getReviewAgents s6 id) (submissionFee (getReview s6 id))
                  (seq 0 (length (getReviewAgents s6 id)))) as Hs.
    rewrite <- G3 in Hs. rewrite Forall_forall in Hs.
    apply (Hs (called i)). apply (list_elem_of_fmap_2 called _ _ Hi). }
  destruct r3; simpl; auto;
    intros s4 r4 HR4; destruct (HR4 HI3) as [HI4 HF4]; clear HR4;
    destruct r4 as [| | after | |]; simpl; auto;
    (eapply wp_mono; [| | apply (Hgo s4 after HF4 HI4)]; [| auto];
     intros [] s' tr (K1 & K2 & K3 & K4 & K5);
     unfold purchased;
     eexists w, after, _, _, _, tr;
     split; [reflexivity |]; simpl;
     rewrite ?Htok2, ?Htok, ?Htp;
     repeat split; auto; discriminate).
Qed.

(** The purchase of an execution: a successful [executeReview] of a
    review with pledges, from a reachable state and whatever the other
    accounts do, asked the review's token for the contract's balance,
    made one purchase at the venue carrying exactly the pledged total as
    value and as amount, asked for the balance again, and recorded the
    balance gained as [totalPurchased]; a balance that went down aborts
    the execution.  The calls after these three are the value transfers
    of the fee distribution, and the pledged total is as before. *)
Theorem purchase_is_accounted now id st o st' tr :
  reachable st -> 0 < totalPledged (getReview st id) ->
  run now (executeReview now id st) o = Ok tt st' tr ->
  purchased id st st' tr.
Proof.
  intros Hr HP Hrun.
  pose proof (run_sound now _ o _ _
                (executeReview_purchase_wp now id st (reachable_Inv st Hr) HP)) as H.
  rewrite Hrun in H. exact H.
Qed.

Lemma purchase_is_accounted_witness :
  reachable Scenario.pledgedA /\
  0 < totalPledged (getReview Scenario.pledgedA 0) /\
  exists st' tr,
    run 600 (executeReview 600 0 Scenario.pledgedA) Scenario.purchase_ok = Ok tt st' tr /\
    map called (take 3 tr) = [balanceOf 3000 1000; buyJob 2000 100 3000 100 0;
                              balanceOf 3000 1000] /\
    totalPurchased (getReview st' 0) = 1000.
Proof.
  split; [exact reachable_pledgedA |]. split; [vm_compute; reflexivity |].
  assert (E : exists st' tr,
            run 600 (executeReview 600 0 Scenario.pledgedA) Scenario.purchase_ok
            = Ok tt st' tr /\
            map called (take 3 tr) = [balanceOf 3000 1000; buyJob 2000 100 3000 100 0;
                                      balanceOf 3000 1000] /\
            map answered (take 3 tr) = [XWord 5; XUnit; XWord 1005])
    by (vm_compute; eauto).
  destruct E as (st' & tr & E & Hc & Ha).
  exists st', tr. split; [exact E |]. split; [exact Hc |].
  destruct (purchase_is_accounted 600 0 Scenario.pledgedA Scenario.purchase_ok st' tr
              reachable_pledgedA) as (b0 & b1 & i1 & i2 & i3 & rest & Htr & _ & A1 & _ & _ & _ & A3 & _ & Hp & _);
    [vm_compute; reflexivity | exact E |].
  rewrite Hp. subst tr. simpl in Ha. rewrite A1, A3 in Ha.
  injection Ha as E0 _ E1. rewrite E0, E1. reflexivity.
Defined.
